(** * The cache manager's lazy writer (lazyrite.c)

    A shallow embedding of [CcScheduleLazyWriteScan], [CcScanDpc],
    [CcWaitForCurrentLazyWriterActivity], [CcLazyWriteScan],
    [CcPostWorkQueue] and [CcWorkerThread].

    Conventions.
    - A [ULONG] is a [Z] in [0, 2^32); every addition and subtraction the
      source performs on one is written with its wrap-around ([uadd], [usub]).
    - Flag words are [Z] bit sets tested with [Z.land].
    - Pointers to shared cache maps are addresses ([addr]); the shared cache
      maps live in a store indexed by address, the dirty list is the cyclic
      sequence of the addresses linked into it.
    - Code outside lazyrite.c that the lazy writer calls (the pool allocator,
      [CcWriteBehind], [CcCanIWrite], the timer) is an oracle or a logged
      event of the machine state.
    - The master lock and the work queue lock are not modelled as objects:
      a function of the model is what one thread does while it holds the
      lock, and the places where the loop of the scan drops the master lock
      are the places where the model lets other threads in.
    - Of the exceptions the [try] blocks guard against, the one raised by
      [CcWriteBehind] and taken by the handler of the worker is modelled;
      the bugcheck of the scan and the [DBG] only assertion are not. *)

From Stdlib Require Import ZArith List Bool Lia Arith Permutation.
Import ListNotations.
Local Open Scope Z_scope.

(** ** Machine words *)

Module Ulong.

Definition modulus : Z := 2 ^ 32.

Definition wrap (z : Z) : Z := z mod modulus.

Definition uadd (a b : Z) : Z := wrap (a + b).

Definition usub (a b : Z) : Z := wrap (a - b).

Definition in_range (z : Z) : Prop := 0 <= z < modulus.

End Ulong.

Import Ulong.

(** ** Flags *)

(** [FlagOn(F, SF)] is [((F) & (SF))] used as a truth value. *)
Definition FlagOn (F SF : Z) : bool := negb (Z.land F SF =? 0).

(** [SetFlag(F, SF)] is [F |= SF]. *)
Definition SetFlag (F SF : Z) : Z := Z.lor F SF.

(** [ClearFlag(F, SF)] is [F &= ~SF]. *)
Definition ClearFlag (F SF : Z) : Z := Z.ldiff F SF.

(** Modelled from the spec: the header cc.h, which gives the flag bits of a
    shared cache map, is not part of the sources at hand.  The spec names the
    flags [WRITE_QUEUED], [MODIFIED_WRITE_DISABLED], [WAITING_FOR_TEARDOWN]
    and [IS_CURSOR] as members of one bit set; they are taken as distinct
    single bits. *)
Definition WRITE_QUEUED : Z := 0x0020.
Definition MODIFIED_WRITE_DISABLED : Z := 0x0200.
Definition IS_CURSOR : Z := 0x0800.
Definition WAITING_FOR_TEARDOWN : Z := 0x10000.

(** Modelled from the spec: the file object flag "the stream is a temporary
    file"; a single bit of [FileObject->Flags]. *)
Definition FO_TEMPORARY_FILE : Z := 0x0400.

(** Modelled from the spec: [age_target = 8]. *)
Definition LAZY_WRITER_MAX_AGE_TARGET : Z := 8.

(** ** Data *)

Definition addr : Type := nat.

Inductive MM_SYSTEMSIZE : Type := MmSmallSystem | MmMediumSystem | MmLargeSystem.

Definition MM_SYSTEMSIZE_eqb (a b : MM_SYSTEMSIZE) : bool :=
  match a, b with
  | MmSmallSystem, MmSmallSystem
  | MmMediumSystem, MmMediumSystem
  | MmLargeSystem, MmLargeSystem => true
  | _, _ => false
  end.

Record FILE_OBJECT : Type := mkFileObject {
  FoId : nat;
  FoFlags : Z
}.

Record SHARED_CACHE_MAP : Type := mkScm {
  OpenCount : Z;
  FileSize : Z;
  DirtyPages : Z;
  PagesToWrite : Z;
  LazyWritePassCount : Z;
  Flags : Z;
  FileObject : FILE_OBJECT
}.

Definition set_DirtyPages (v : Z) (m : SHARED_CACHE_MAP) : SHARED_CACHE_MAP :=
  mkScm (OpenCount m) (FileSize m) v (PagesToWrite m)
        (LazyWritePassCount m) (Flags m) (FileObject m).

Definition set_PagesToWrite (v : Z) (m : SHARED_CACHE_MAP) : SHARED_CACHE_MAP :=
  mkScm (OpenCount m) (FileSize m) (DirtyPages m) v
        (LazyWritePassCount m) (Flags m) (FileObject m).

Definition set_LazyWritePassCount (v : Z) (m : SHARED_CACHE_MAP) : SHARED_CACHE_MAP :=
  mkScm (OpenCount m) (FileSize m) (DirtyPages m) (PagesToWrite m)
        v (Flags m) (FileObject m).

Definition set_Flags (v : Z) (m : SHARED_CACHE_MAP) : SHARED_CACHE_MAP :=
  mkScm (OpenCount m) (FileSize m) (DirtyPages m) (PagesToWrite m)
        (LazyWritePassCount m) v (FileObject m).

(** The build constants and collaborators the scan reads.  [MAX_WRITE_BEHIND]
    and [PAGE_SIZE] are macros of headers that are not at hand and stay
    parameters; [CcCanIWrite] stands for the call
    [CcCanIWrite(FileObject, WRITE_CHARGE_THRESHOLD, FALSE, MAXUCHAR)]. *)
Record Env : Type := mkEnv {
  MAX_WRITE_BEHIND : Z;
  PAGE_SIZE : Z;
  CcCanIWrite : FILE_OBJECT -> bool
}.

(** ** Work queue entries *)

Inductive WORK_FUNCTION : Type := ReadAhead | WriteBehind | EventSet | LazyWriteScan.

Definition WORK_FUNCTION_eqb (a b : WORK_FUNCTION) : bool :=
  match a, b with
  | ReadAhead, ReadAhead | WriteBehind, WriteBehind
  | EventSet, EventSet | LazyWriteScan, LazyWriteScan => true
  | _, _ => false
  end.

(** The union [Parameters] of a work queue entry: a file object for a read
    ahead, a shared cache map for a write behind, an event for an event set. *)
Inductive WORK_PARAMETERS : Type :=
| ParametersRead (FileObject : nat)
| ParametersWrite (SharedCacheMap : addr)
| ParametersEvent (Event : nat)
| ParametersNone.

Record WORK_QUEUE_ENTRY : Type := mkEntry {
  Function : WORK_FUNCTION;
  Parameters : WORK_PARAMETERS
}.

(** ** Collaborators *)

(** The three due times the scan timer is set with. *)
Inductive Delay : Type := CcNoDelay | CcIdleDelay | CcFirstDelay.

(** What a call of [CcWriteBehind] leaves in the caller's [IoStatus], or
    that it raised an exception the filter of the worker accepts. *)
Inductive WB_OUTCOME : Type :=
| WbReturns (Status : Z) (Information : Z)
| WbRaises.

(** Calls that leave lazyrite.c; a call of [CcWriteBehind] is logged with
    its outcome. *)
Inductive Event : Type :=
| EvCcPostDeferredWrites
| EvExQueueWorkItem (worker : nat)
| EvCcPerformReadAhead (FileObject : nat)
| EvCcWriteBehind (SharedCacheMap : addr) (r : WB_OUTCOME)
| EvKeSetEvent (Event : nat)
| EvCcFreeWorkQueueEntry (e : WORK_QUEUE_ENTRY).

Record LAZY_WRITER : Type := mkLazyWriter {
  ScanActive : bool;
  OtherWork : bool;
  ScanTimer : option Delay
}.

(** ** The machine state

    The globals of the cache manager that lazyrite.c reads or writes, and
    the oracles of the collaborators:
    - [Pool] holds the outcomes of the coming calls of
      [CcAllocateWorkQueueEntry] ([false] is a [NULL] result; an exhausted
      list allocates);
    - [WriteBehindResults] holds the outcomes of the coming calls of
      [CcWriteBehind] (an exhausted list returns success);
    - [Visitors] holds, for each coming window in which the scan has
      dropped the master lock, the events of the threads that call
      [CcWaitForCurrentLazyWriterActivity] in that window;
    - [Log] is the list of calls made so far, latest first. *)
Record Machine : Type := mkMachine {
  LazyWriter : LAZY_WRITER;
  CcTotalDirtyPages : Z;
  CcDirtyPageTarget : Z;
  CcPagesWrittenLastTime : Z;
  CcDirtyPagesLastScan : Z;
  CcPagesYetToWrite : Z;
  CcCapturedSystemSize : MM_SYSTEMSIZE;
  CcDirtySharedCacheMapList : list addr;
  Scm : addr -> SHARED_CACHE_MAP;
  CcPostTickWorkQueue : list WORK_QUEUE_ENTRY;
  CcRegularWorkQueue : list WORK_QUEUE_ENTRY;
  CcExpressWorkQueue : list WORK_QUEUE_ENTRY;
  CcIdleWorkerThreadList : list nat;
  CcNumberActiveWorkerThreads : Z;
  CcQueueThrottle : bool;
  CcDeferredWrites : list nat;
  Pool : list bool;
  WriteBehindResults : list WB_OUTCOME;
  Visitors : list (list nat);
  Log : list Event
}.

Definition set_LazyWriter (v : LAZY_WRITER) (s : Machine) : Machine :=
  mkMachine v (CcTotalDirtyPages s) (CcDirtyPageTarget s)
    (CcPagesWrittenLastTime s) (CcDirtyPagesLastScan s) (CcPagesYetToWrite s)
    (CcCapturedSystemSize s) (CcDirtySharedCacheMapList s) (Scm s)
    (CcPostTickWorkQueue s) (CcRegularWorkQueue s) (CcExpressWorkQueue s)
    (CcIdleWorkerThreadList s) (CcNumberActiveWorkerThreads s)
    (CcQueueThrottle s) (CcDeferredWrites s) (Pool s) (WriteBehindResults s)
    (Visitors s) (Log s).

Definition set_CcTotalDirtyPages (v : Z) (s : Machine) : Machine :=
  mkMachine (LazyWriter s) v (CcDirtyPageTarget s) (CcPagesWrittenLastTime s)
    (CcDirtyPagesLastScan s) (CcPagesYetToWrite s) (CcCapturedSystemSize s)
    (CcDirtySharedCacheMapList s) (Scm s) (CcPostTickWorkQueue s)
    (CcRegularWorkQueue s) (CcExpressWorkQueue s) (CcIdleWorkerThreadList s)
    (CcNumberActiveWorkerThreads s) (CcQueueThrottle s) (CcDeferredWrites s)
    (Pool s) (WriteBehindResults s) (Visitors s) (Log s).

Definition set_CcDirtyPageTarget (v : Z) (s : Machine) : Machine :=
  mkMachine (LazyWriter s) (CcTotalDirtyPages s) v (CcPagesWrittenLastTime s)
    (CcDirtyPagesLastScan s) (CcPagesYetToWrite s) (CcCapturedSystemSize s)
    (CcDirtySharedCacheMapList s) (Scm s) (CcPostTickWorkQueue s)
    (CcRegularWorkQueue s) (CcExpressWorkQueue s) (CcIdleWorkerThreadList s)
    (CcNumberActiveWorkerThreads s) (CcQueueThrottle s) (CcDeferredWrites s)
    (Pool s) (WriteBehindResults s) (Visitors s) (Log s).

Definition set_CcPagesWrittenLastTime (v : Z) (s : Machine) : Machine :=
  mkMachine (LazyWriter s) (CcTotalDirtyPages s) (CcDirtyPageTarget s) v
    (CcDirtyPagesLastScan s) (CcPagesYetToWrite s) (CcCapturedSystemSize s)
    (CcDirtySharedCacheMapList s) (Scm s) (CcPostTickWorkQueue s)
    (CcRegularWorkQueue s) (CcExpressWorkQueue s) (CcIdleWorkerThreadList s)
    (CcNumberActiveWorkerThreads s) (CcQueueThrottle s) (CcDeferredWrites s)
    (Pool s) (WriteBehindResults s) (Visitors s) (Log s).

Definition set_CcDirtyPagesLastScan (v : Z) (s : Machine) : Machine :=
  mkMachine (LazyWriter s) (CcTotalDirtyPages s) (CcDirtyPageTarget s)
    (CcPagesWrittenLastTime s) v (CcPagesYetToWrite s)
    (CcCapturedSystemSize s) (CcDirtySharedCacheMapList s) (Scm s)
    (CcPostTickWorkQueue s) (CcRegularWorkQueue s) (CcExpressWorkQueue s)
    (CcIdleWorkerThreadList s) (CcNumberActiveWorkerThreads s)
    (CcQueueThrottle s) (CcDeferredWrites s) (Pool s) (WriteBehindResults s)
    (Visitors s) (Log s).

Definition set_CcPagesYetToWrite (v : Z) (s : Machine) : Machine :=
  mkMachine (LazyWriter s) (CcTotalDirtyPages s) (CcDirtyPageTarget s)
    (CcPagesWrittenLastTime s) (CcDirtyPagesLastScan s) v
    (CcCapturedSystemSize s) (CcDirtySharedCacheMapList s) (Scm s)
    (CcPostTickWorkQueue s) (CcRegularWorkQueue s) (CcExpressWorkQueue s)
    (CcIdleWorkerThreadList s) (CcNumberActiveWorkerThreads s)
    (CcQueueThrottle s) (CcDeferredWrites s) (Pool s) (WriteBehindResults s)
    (Visitors s) (Log s).

Definition set_CcCapturedSystemSize (v : MM_SYSTEMSIZE) (s : Machine) : Machine :=
  mkMachine (LazyWriter s) (CcTotalDirtyPages s) (CcDirtyPageTarget s)
    (CcPagesWrittenLastTime s) (CcDirtyPagesLastScan s) (CcPagesYetToWrite s)
    v (CcDirtySharedCacheMapList s) (Scm s) (CcPostTickWorkQueue s)
    (CcRegularWorkQueue s) (CcExpressWorkQueue s) (CcIdleWorkerThreadList s)
    (CcNumberActiveWorkerThreads s) (CcQueueThrottle s) (CcDeferredWrites s)
    (Pool s) (WriteBehindResults s) (Visitors s) (Log s).

Definition set_CcDirtySharedCacheMapList (v : list addr) (s : Machine) : Machine :=
  mkMachine (LazyWriter s) (CcTotalDirtyPages s) (CcDirtyPageTarget s)
    (CcPagesWrittenLastTime s) (CcDirtyPagesLastScan s) (CcPagesYetToWrite s)
    (CcCapturedSystemSize s) v (Scm s) (CcPostTickWorkQueue s)
    (CcRegularWorkQueue s) (CcExpressWorkQueue s) (CcIdleWorkerThreadList s)
    (CcNumberActiveWorkerThreads s) (CcQueueThrottle s) (CcDeferredWrites s)
    (Pool s) (WriteBehindResults s) (Visitors s) (Log s).

Definition set_Scm (v : addr -> SHARED_CACHE_MAP) (s : Machine) : Machine :=
  mkMachine (LazyWriter s) (CcTotalDirtyPages s) (CcDirtyPageTarget s)
    (CcPagesWrittenLastTime s) (CcDirtyPagesLastScan s) (CcPagesYetToWrite s)
    (CcCapturedSystemSize s) (CcDirtySharedCacheMapList s) v
    (CcPostTickWorkQueue s) (CcRegularWorkQueue s) (CcExpressWorkQueue s)
    (CcIdleWorkerThreadList s) (CcNumberActiveWorkerThreads s)
    (CcQueueThrottle s) (CcDeferredWrites s) (Pool s) (WriteBehindResults s)
    (Visitors s) (Log s).

Definition set_CcPostTickWorkQueue (v : list WORK_QUEUE_ENTRY) (s : Machine) : Machine :=
  mkMachine (LazyWriter s) (CcTotalDirtyPages s) (CcDirtyPageTarget s)
    (CcPagesWrittenLastTime s) (CcDirtyPagesLastScan s) (CcPagesYetToWrite s)
    (CcCapturedSystemSize s) (CcDirtySharedCacheMapList s) (Scm s) v
    (CcRegularWorkQueue s) (CcExpressWorkQueue s) (CcIdleWorkerThreadList s)
    (CcNumberActiveWorkerThreads s) (CcQueueThrottle s) (CcDeferredWrites s)
    (Pool s) (WriteBehindResults s) (Visitors s) (Log s).

Definition set_CcRegularWorkQueue (v : list WORK_QUEUE_ENTRY) (s : Machine) : Machine :=
  mkMachine (LazyWriter s) (CcTotalDirtyPages s) (CcDirtyPageTarget s)
    (CcPagesWrittenLastTime s) (CcDirtyPagesLastScan s) (CcPagesYetToWrite s)
    (CcCapturedSystemSize s) (CcDirtySharedCacheMapList s) (Scm s)
    (CcPostTickWorkQueue s) v (CcExpressWorkQueue s)
    (CcIdleWorkerThreadList s) (CcNumberActiveWorkerThreads s)
    (CcQueueThrottle s) (CcDeferredWrites s) (Pool s) (WriteBehindResults s)
    (Visitors s) (Log s).

Definition set_CcExpressWorkQueue (v : list WORK_QUEUE_ENTRY) (s : Machine) : Machine :=
  mkMachine (LazyWriter s) (CcTotalDirtyPages s) (CcDirtyPageTarget s)
    (CcPagesWrittenLastTime s) (CcDirtyPagesLastScan s) (CcPagesYetToWrite s)
    (CcCapturedSystemSize s) (CcDirtySharedCacheMapList s) (Scm s)
    (CcPostTickWorkQueue s) (CcRegularWorkQueue s) v
    (CcIdleWorkerThreadList s) (CcNumberActiveWorkerThreads s)
    (CcQueueThrottle s) (CcDeferredWrites s) (Pool s) (WriteBehindResults s)
    (Visitors s) (Log s).

Definition set_CcIdleWorkerThreadList (v : list nat) (s : Machine) : Machine :=
  mkMachine (LazyWriter s) (CcTotalDirtyPages s) (CcDirtyPageTarget s)
    (CcPagesWrittenLastTime s) (CcDirtyPagesLastScan s) (CcPagesYetToWrite s)
    (CcCapturedSystemSize s) (CcDirtySharedCacheMapList s) (Scm s)
    (CcPostTickWorkQueue s) (CcRegularWorkQueue s) (CcExpressWorkQueue s) v
    (CcNumberActiveWorkerThreads s) (CcQueueThrottle s) (CcDeferredWrites s)
    (Pool s) (WriteBehindResults s) (Visitors s) (Log s).

Definition set_CcNumberActiveWorkerThreads (v : Z) (s : Machine) : Machine :=
  mkMachine (LazyWriter s) (CcTotalDirtyPages s) (CcDirtyPageTarget s)
    (CcPagesWrittenLastTime s) (CcDirtyPagesLastScan s) (CcPagesYetToWrite s)
    (CcCapturedSystemSize s) (CcDirtySharedCacheMapList s) (Scm s)
    (CcPostTickWorkQueue s) (CcRegularWorkQueue s) (CcExpressWorkQueue s)
    (CcIdleWorkerThreadList s) v (CcQueueThrottle s) (CcDeferredWrites s)
    (Pool s) (WriteBehindResults s) (Visitors s) (Log s).

Definition set_CcQueueThrottle (v : bool) (s : Machine) : Machine :=
  mkMachine (LazyWriter s) (CcTotalDirtyPages s) (CcDirtyPageTarget s)
    (CcPagesWrittenLastTime s) (CcDirtyPagesLastScan s) (CcPagesYetToWrite s)
    (CcCapturedSystemSize s) (CcDirtySharedCacheMapList s) (Scm s)
    (CcPostTickWorkQueue s) (CcRegularWorkQueue s) (CcExpressWorkQueue s)
    (CcIdleWorkerThreadList s) (CcNumberActiveWorkerThreads s) v
    (CcDeferredWrites s) (Pool s) (WriteBehindResults s) (Visitors s) (Log s).

Definition set_CcDeferredWrites (v : list nat) (s : Machine) : Machine :=
  mkMachine (LazyWriter s) (CcTotalDirtyPages s) (CcDirtyPageTarget s)
    (CcPagesWrittenLastTime s) (CcDirtyPagesLastScan s) (CcPagesYetToWrite s)
    (CcCapturedSystemSize s) (CcDirtySharedCacheMapList s) (Scm s)
    (CcPostTickWorkQueue s) (CcRegularWorkQueue s) (CcExpressWorkQueue s)
    (CcIdleWorkerThreadList s) (CcNumberActiveWorkerThreads s)
    (CcQueueThrottle s) v (Pool s) (WriteBehindResults s) (Visitors s) (Log s).

Definition set_Pool (v : list bool) (s : Machine) : Machine :=
  mkMachine (LazyWriter s) (CcTotalDirtyPages s) (CcDirtyPageTarget s)
    (CcPagesWrittenLastTime s) (CcDirtyPagesLastScan s) (CcPagesYetToWrite s)
    (CcCapturedSystemSize s) (CcDirtySharedCacheMapList s) (Scm s)
    (CcPostTickWorkQueue s) (CcRegularWorkQueue s) (CcExpressWorkQueue s)
    (CcIdleWorkerThreadList s) (CcNumberActiveWorkerThreads s)
    (CcQueueThrottle s) (CcDeferredWrites s) v (WriteBehindResults s)
    (Visitors s) (Log s).

Definition set_WriteBehindResults (v : list WB_OUTCOME) (s : Machine) : Machine :=
  mkMachine (LazyWriter s) (CcTotalDirtyPages s) (CcDirtyPageTarget s)
    (CcPagesWrittenLastTime s) (CcDirtyPagesLastScan s) (CcPagesYetToWrite s)
    (CcCapturedSystemSize s) (CcDirtySharedCacheMapList s) (Scm s)
    (CcPostTickWorkQueue s) (CcRegularWorkQueue s) (CcExpressWorkQueue s)
    (CcIdleWorkerThreadList s) (CcNumberActiveWorkerThreads s)
    (CcQueueThrottle s) (CcDeferredWrites s) (Pool s) v (Visitors s) (Log s).

Definition set_Visitors (v : list (list nat)) (s : Machine) : Machine :=
  mkMachine (LazyWriter s) (CcTotalDirtyPages s) (CcDirtyPageTarget s)
    (CcPagesWrittenLastTime s) (CcDirtyPagesLastScan s) (CcPagesYetToWrite s)
    (CcCapturedSystemSize s) (CcDirtySharedCacheMapList s) (Scm s)
    (CcPostTickWorkQueue s) (CcRegularWorkQueue s) (CcExpressWorkQueue s)
    (CcIdleWorkerThreadList s) (CcNumberActiveWorkerThreads s)
    (CcQueueThrottle s) (CcDeferredWrites s) (Pool s) (WriteBehindResults s) v
    (Log s).

Definition set_Log (v : list Event) (s : Machine) : Machine :=
  mkMachine (LazyWriter s) (CcTotalDirtyPages s) (CcDirtyPageTarget s)
    (CcPagesWrittenLastTime s) (CcDirtyPagesLastScan s) (CcPagesYetToWrite s)
    (CcCapturedSystemSize s) (CcDirtySharedCacheMapList s) (Scm s)
    (CcPostTickWorkQueue s) (CcRegularWorkQueue s) (CcExpressWorkQueue s)
    (CcIdleWorkerThreadList s) (CcNumberActiveWorkerThreads s)
    (CcQueueThrottle s) (CcDeferredWrites s) (Pool s) (WriteBehindResults s)
    (Visitors s) v.

Definition set_ScanActive (v : bool) (s : Machine) : Machine :=
  set_LazyWriter
    (mkLazyWriter v (OtherWork (LazyWriter s)) (ScanTimer (LazyWriter s))) s.

Definition set_OtherWork (v : bool) (s : Machine) : Machine :=
  set_LazyWriter
    (mkLazyWriter (ScanActive (LazyWriter s)) v (ScanTimer (LazyWriter s))) s.

Definition set_ScanTimer (v : option Delay) (s : Machine) : Machine :=
  set_LazyWriter
    (mkLazyWriter (ScanActive (LazyWriter s)) (OtherWork (LazyWriter s)) v) s.

Definition log (e : Event) (s : Machine) : Machine := set_Log (e :: Log s) s.

(** The store of shared cache maps, written at one address. *)
Definition store (a : addr) (m : SHARED_CACHE_MAP) (s : Machine) : Machine :=
  set_Scm (fun b => if Nat.eqb b a then m else Scm s b) s.

(** ** Lists *)

(** A work queue is a list head with its entries in FIFO order. *)
Module Queue.

Definition IsListEmpty {A} (q : list A) : bool :=
  match q with [] => true | _ :: _ => false end.

Definition InsertTailList {A} (q : list A) (e : A) : list A := q ++ [e].

Definition RemoveHeadList {A} (q : list A) : list A := tl q.

End Queue.

(** The dirty list is circular and has no fixed head for the scan: the scan
    enters it at the cursor.  It is kept as the sequence of the linked
    addresses in [Flink] order, read cyclically; any rotation of the sequence
    stands for the same list. *)
Module Ring.

Fixpoint after (x : addr) (l : list addr) : list addr :=
  match l with
  | [] => []
  | y :: t => if Nat.eqb y x then t else after x t
  end.

Fixpoint before (x : addr) (l : list addr) : list addr :=
  match l with
  | [] => []
  | y :: t => if Nat.eqb y x then [] else y :: before x t
  end.

(** The other entries of the list, as met from [x] following [Flink]. *)
Definition rot (x : addr) (l : list addr) : list addr := after x l ++ before x l.

(** An entry alone in its list points to itself. *)
Definition Flink (l : list addr) (x : addr) : addr := hd x (rot x l).

Definition Blink (l : list addr) (x : addr) : addr := last (rot x l) x.

Definition RemoveEntryList (e : addr) (l : list addr) : list addr := rot e l.

(** [InsertTailList(ListHead, Entry)] links [Entry] in front of [ListHead]. *)
Definition InsertTailList (h e : addr) (l : list addr) : list addr :=
  h :: rot h l ++ [e].

(** [InsertHeadList(ListHead, Entry)] links [Entry] behind [ListHead]. *)
Definition InsertHeadList (h e : addr) (l : list addr) : list addr :=
  h :: e :: rot h l.

Definition wf (c : addr) (l : list addr) : Prop := NoDup l /\ In c l.

End Ring.

(** The address of [CcLazyWriterCursor]. *)
Definition CcLazyWriterCursor : addr := 0%nat.

(** ** Scheduling the scan *)

(** The two kinds of statement of [CcScheduleLazyWriteScan]. *)
Inductive Stmt : Type :=
| AssignScanActive (b : bool)
| KeSetTimer (d : Delay).

Definition exec (s : Machine) (i : Stmt) : Machine :=
  match i with
  | AssignScanActive b => set_ScanActive b s
  | KeSetTimer d => set_ScanTimer (Some d) s
  end.

Definition run (code : list Stmt) (s : Machine) : Machine := fold_left exec code s.

(** The statements [CcScheduleLazyWriteScan] executes, in order. *)
Definition CcScheduleLazyWriteScan_code (FastScan : bool) (s : Machine) : list Stmt :=
  if FastScan then
    [AssignScanActive true; KeSetTimer CcNoDelay]
  else if ScanActive (LazyWriter s) then
    [KeSetTimer CcIdleDelay]
  else
    [AssignScanActive true; KeSetTimer CcFirstDelay].

Definition CcScheduleLazyWriteScan (FastScan : bool) (s : Machine) : Machine :=
  run (CcScheduleLazyWriteScan_code FastScan s) s.

Definition CcAllocateWorkQueueEntry (s : Machine) : bool * Machine :=
  match Pool s with
  | [] => (true, s)
  | b :: rest => (b, set_Pool rest s)
  end.

(** The two list heads an entry is posted to. *)
Inductive QueueHead : Type := Express | Regular.

Definition queue_of (q : QueueHead) (s : Machine) : list WORK_QUEUE_ENTRY :=
  match q with Express => CcExpressWorkQueue s | Regular => CcRegularWorkQueue s end.

Definition set_queue (q : QueueHead) (v : list WORK_QUEUE_ENTRY) (s : Machine) : Machine :=
  match q with
  | Express => set_CcExpressWorkQueue v s
  | Regular => set_CcRegularWorkQueue v s
  end.

Definition CcPostWorkQueue (e : WORK_QUEUE_ENTRY) (q : QueueHead) (s : Machine) : Machine :=
  let s := set_queue q (Queue.InsertTailList (queue_of q s) e) s in
  if negb (CcQueueThrottle s) && negb (Queue.IsListEmpty (CcIdleWorkerThreadList s)) then
    match CcIdleWorkerThreadList s with
    | [] => s
    | w :: idle =>
        let s := set_CcIdleWorkerThreadList idle s in
        let s := set_CcNumberActiveWorkerThreads
                   (uadd (CcNumberActiveWorkerThreads s) 1) s in
        log (EvExQueueWorkItem w) s
    end
  else s.

(** The timer going off: it is no longer set, and its DPC runs. *)
Definition CcScanDpc (s : Machine) : Machine :=
  let '(ok, s) := CcAllocateWorkQueueEntry s in
  if ok then CcPostWorkQueue (mkEntry LazyWriteScan ParametersNone) Regular s
  else set_ScanActive false s.

Definition timer_fires (s : Machine) : Machine :=
  match ScanTimer (LazyWriter s) with
  | None => s
  | Some _ => CcScanDpc (set_ScanTimer None s)
  end.

Inductive NTSTATUS : Type := STATUS_INSUFFICIENT_RESOURCES | STATUS_WAIT.

(** [CcWaitForCurrentLazyWriterActivity] up to its wait on the event. *)
Definition CcWaitForCurrentLazyWriterActivity (ev : nat) (s : Machine)
  : NTSTATUS * Machine :=
  let '(ok, s) := CcAllocateWorkQueueEntry s in
  if ok then
    let e := mkEntry EventSet (ParametersEvent ev) in
    let s := set_CcPostTickWorkQueue (Queue.InsertTailList (CcPostTickWorkQueue s) e) s in
    let s := set_OtherWork true s in
    let s := if negb (ScanActive (LazyWriter s))
             then CcScheduleLazyWriteScan true s else s in
    (STATUS_WAIT, s)
  else (STATUS_INSUFFICIENT_RESOURCES, s).

(** A window in which the scan does not hold the master lock: the threads
    that the oracle sends in make their calls. *)
Definition window (s : Machine) : Machine :=
  match Visitors s with
  | [] => s
  | evs :: rest =>
      fold_left (fun s ev => snd (CcWaitForCurrentLazyWriterActivity ev s))
                evs (set_Visitors rest s)
  end.

(** ** The scan *)

Module Scan.

(** The local variables of [CcLazyWriteScan]; [FirstVisited] is [None]
    while it is [NULL]. *)
Record Locals : Type := mkLocals {
  PagesToWrite : Z;
  FirstVisited : option addr;
  LoopsWithLockHeld : Z;
  AlreadyMoved : bool;
  MoveBehindCursor : bool;
  PostTickWorkQueue : list WORK_QUEUE_ENTRY
}.

Definition set_PagesToWrite (v : Z) (l : Locals) : Locals :=
  mkLocals v (FirstVisited l) (LoopsWithLockHeld l) (AlreadyMoved l)
           (MoveBehindCursor l) (PostTickWorkQueue l).

Definition set_FirstVisited (v : option addr) (l : Locals) : Locals :=
  mkLocals (PagesToWrite l) v (LoopsWithLockHeld l) (AlreadyMoved l)
           (MoveBehindCursor l) (PostTickWorkQueue l).

Definition set_LoopsWithLockHeld (v : Z) (l : Locals) : Locals :=
  mkLocals (PagesToWrite l) (FirstVisited l) v (AlreadyMoved l)
           (MoveBehindCursor l) (PostTickWorkQueue l).

Definition set_AlreadyMoved (v : bool) (l : Locals) : Locals :=
  mkLocals (PagesToWrite l) (FirstVisited l) (LoopsWithLockHeld l) v
           (MoveBehindCursor l) (PostTickWorkQueue l).

Definition set_MoveBehindCursor (v : bool) (l : Locals) : Locals :=
  mkLocals (PagesToWrite l) (FirstVisited l) (LoopsWithLockHeld l)
           (AlreadyMoved l) v (PostTickWorkQueue l).

End Scan.

(** The test at the top of the scan: nothing dirty and no other work. *)
Definition nothing_to_do (s : Machine) : bool :=
  (CcTotalDirtyPages s =? 0) && negb (OtherWork (LazyWriter s)).

(** The branch of the scan taken when there is nothing to do. *)
Definition go_inactive (s : Machine) : Machine :=
  if Queue.IsListEmpty (CcDeferredWrites s) then
    set_ScanActive false s
  else
    CcScheduleLazyWriteScan false (log EvCcPostDeferredWrites s).

(** The loop that empties [src] into the tail of [dst], head first. *)
Fixpoint pull (src dst : list WORK_QUEUE_ENTRY) : list WORK_QUEUE_ENTRY :=
  match src with
  | [] => dst
  | e :: rest => pull rest (Queue.InsertTailList dst e)
  end.

(** The pages to write in this tick. *)
Definition usual_fraction (s : Machine) : Z :=
  if CcTotalDirtyPages s >? LAZY_WRITER_MAX_AGE_TARGET
  then CcTotalDirtyPages s / LAZY_WRITER_MAX_AGE_TARGET
  else CcTotalDirtyPages s.

Definition ForegroundRate (s : Machine) : Z :=
  if uadd (CcTotalDirtyPages s) (CcPagesWrittenLastTime s) >? CcDirtyPagesLastScan s
  then usub (uadd (CcTotalDirtyPages s) (CcPagesWrittenLastTime s))
            (CcDirtyPagesLastScan s)
  else 0.

Definition EstimatedDirtyNextInterval (s : Machine) : Z :=
  uadd (usub (CcTotalDirtyPages s) (usual_fraction s)) (ForegroundRate s).

Definition pages_to_write (s : Machine) : Z :=
  if EstimatedDirtyNextInterval s >? CcDirtyPageTarget s
  then uadd (usual_fraction s)
            (usub (EstimatedDirtyNextInterval s) (CcDirtyPageTarget s))
  else usual_fraction s.

(** From the emptying of [CcPostTickWorkQueue] to the saving of the
    numbers just calculated: the state and the locals at the loop's entry. *)
Definition start_tick (s : Machine) : Machine * Scan.Locals :=
  let PostTickWorkQueue := pull (CcPostTickWorkQueue s) [] in
  let s1 := set_CcPostTickWorkQueue [] s in
  let s1 := set_OtherWork false s1 in
  let PagesToWrite := pages_to_write s in
  let s1 := set_CcDirtyPagesLastScan (CcTotalDirtyPages s1) s1 in
  let s1 := set_CcPagesWrittenLastTime PagesToWrite s1 in
  let s1 := set_CcPagesYetToWrite PagesToWrite s1 in
  (s1, Scan.mkLocals PagesToWrite None 0 false false PostTickWorkQueue).

(** [4 * (MAX_WRITE_BEHIND / PAGE_SIZE)]. *)
Definition four_write_behinds (env : Env) : Z :=
  4 * (MAX_WRITE_BEHIND env / PAGE_SIZE env).

(** The last disjunct of the loop's test, as C parses it. *)
Definition close_or_empty (m : SHARED_CACHE_MAP) : bool :=
  ((OpenCount m =? 0) && (DirtyPages m =? 0)) || (FileSize m =? 0).

Definition pass_gate (env : Env) (size : MM_SYSTEMSIZE) (m : SHARED_CACHE_MAP) : bool :=
  (Z.land (LazyWritePassCount m) 0xF =? 0)
  || negb (FlagOn (Flags m) MODIFIED_WRITE_DISABLED)
  || MM_SYSTEMSIZE_eqb size MmSmallSystem
  || (DirtyPages m >=? four_write_behinds env).

Definition temporary_gate (env : Env) (m : SHARED_CACHE_MAP) : bool :=
  negb (FlagOn (FoFlags (FileObject m)) FO_TEMPORARY_FILE)
  || (OpenCount m =? 0)
  || negb (CcCanIWrite env (FileObject m)).

(** The test of the loop's [if], evaluated left to right with the short
    cuts of [&&] and [||]: the pass count is incremented only when the
    evaluation reaches it.  Returns the outcome and the shared cache map as
    the evaluation leaves it. *)
Definition flush_test (env : Env) (size : MM_SYSTEMSIZE) (PagesToWrite : Z)
  (m : SHARED_CACHE_MAP) : bool * SHARED_CACHE_MAP :=
  if FlagOn (Flags m) (Z.lor WRITE_QUEUED IS_CURSOR) then (false, m)
  else if negb (DirtyPages m =? 0) then
    if FlagOn (Flags m) WAITING_FOR_TEARDOWN then (true, m)
    else if negb (PagesToWrite =? 0) then
      let m1 := set_LazyWritePassCount (uadd (LazyWritePassCount m) 1) m in
      if pass_gate env size m1 && temporary_gate env m1 then (true, m1)
      else (close_or_empty m1, m1)
    else (close_or_empty m, m)
  else (close_or_empty m, m).

(** [SharedCacheMap->PagesToWrite] as the loop sets it for a stream it is
    about to queue. *)
Definition set_stream_pages (env : Env) (size : MM_SYSTEMSIZE)
  (m : SHARED_CACHE_MAP) : SHARED_CACHE_MAP :=
  let m := set_PagesToWrite (DirtyPages m) m in
  if FlagOn (Flags m) MODIFIED_WRITE_DISABLED
     && (PagesToWrite m >=? four_write_behinds env)
     && negb (MM_SYSTEMSIZE_eqb size MmSmallSystem)
  then set_PagesToWrite (PagesToWrite m / 8) m
  else m.

Definition is_first_visited (lc : Scan.Locals) (a : addr) : bool :=
  match Scan.FirstVisited lc with
  | Some f => Nat.eqb f a
  | None => false
  end.

(** The [if (!AlreadyMoved)] block, for the stream at [a]. *)
Definition adjust_targets (a : addr) (s : Machine) (lc : Scan.Locals)
  : Machine * Scan.Locals :=
  let m := Scm s a in
  if negb (Scan.AlreadyMoved lc) then
    if PagesToWrite m >=? Scan.PagesToWrite lc then
      let '(s, lc) :=
        if FlagOn (Flags m) MODIFIED_WRITE_DISABLED
           || (is_first_visited lc a && (Z.land (LazyWritePassCount m) 0xF =? 0))
        then (s, Scan.set_MoveBehindCursor true lc)
        else
          (set_CcDirtySharedCacheMapList
             (Ring.InsertTailList a CcLazyWriterCursor
                (Ring.RemoveEntryList CcLazyWriterCursor
                   (CcDirtySharedCacheMapList s))) s, lc) in
      (s, Scan.set_AlreadyMoved true (Scan.set_PagesToWrite 0 lc))
    else
      (s, Scan.set_PagesToWrite (usub (Scan.PagesToWrite lc) (PagesToWrite m)) lc)
  else (s, lc).

(** [SetFlag(Flags, WRITE_QUEUED); DirtyPages += 1;] *)
Definition pin (a : addr) (s : Machine) : Machine :=
  let m := Scm s a in
  let m := set_Flags (SetFlag (Flags m) WRITE_QUEUED) m in
  store a (set_DirtyPages (uadd (DirtyPages m) 1) m) s.

(** [ClearFlag(Flags, WRITE_QUEUED); DirtyPages -= 1;] *)
Definition unpin (a : addr) (s : Machine) : Machine :=
  let m := Scm s a in
  let m := set_Flags (ClearFlag (Flags m) WRITE_QUEUED) m in
  store a (set_DirtyPages (usub (DirtyPages m) 1) m) s.

(** [DirtyPages -= 1;] *)
Definition unbias (a : addr) (s : Machine) : Machine :=
  let m := Scm s a in
  store a (set_DirtyPages (usub (DirtyPages m) 1) m) s.

(** How one turn of the loop ends: at the [break], or at the loop's foot. *)
Inductive Turn : Type := Break | Foot.

(** From [SetFlag(..., WRITE_QUEUED)] to the end of the [if] branch for a
    stream that passed the test. *)
Definition queue_write_behind (a : addr) (s : Machine) (lc : Scan.Locals)
  : Machine * Scan.Locals * Turn :=
  let s := pin a s in
  let s := window s in
  let '(ok, s) := CcAllocateWorkQueueEntry s in
  if ok then
    let e := mkEntry WriteBehind (ParametersWrite a) in
    let s := unbias a s in
    let s := if FlagOn (Flags (Scm s a)) WAITING_FOR_TEARDOWN
             then CcPostWorkQueue e Express s
             else CcPostWorkQueue e Regular s in
    (s, Scan.set_LoopsWithLockHeld 0 lc, Foot)
  else
    (unpin a s, lc, Break).

(** The [else if] branch: drop the lock now and then. *)
Definition drop_lock_occasionally (a : addr) (s : Machine) (lc : Scan.Locals)
  : Machine * Scan.Locals :=
  let lc := Scan.set_LoopsWithLockHeld (uadd (Scan.LoopsWithLockHeld lc) 1) lc in
  if (Scan.LoopsWithLockHeld lc >=? 20)
     && negb (FlagOn (Flags (Scm s a)) (Z.lor WRITE_QUEUED IS_CURSOR))
  then
    let s := pin a s in
    let s := window s in
    let lc := Scan.set_LoopsWithLockHeld 0 lc in
    (unpin a s, lc)
  else (s, lc).

(** The foot of the loop: the next shared cache map is read, and only then
    is the cursor moved behind the current one. *)
Definition loop_foot (a : addr) (s : Machine) (lc : Scan.Locals)
  : Machine * Scan.Locals * addr :=
  let NextSharedCacheMap := Ring.Flink (CcDirtySharedCacheMapList s) a in
  if Scan.MoveBehindCursor lc then
    (set_CcDirtySharedCacheMapList
       (Ring.InsertHeadList a CcLazyWriterCursor
          (Ring.RemoveEntryList CcLazyWriterCursor
             (CcDirtySharedCacheMapList s))) s,
     Scan.set_MoveBehindCursor false lc, NextSharedCacheMap)
  else (s, lc, NextSharedCacheMap).

(** The [if] branch of the loop for the stream at [a], which passed the test. *)
Definition flush_branch (env : Env) (a : addr) (s : Machine) (lc : Scan.Locals)
  : Machine * Scan.Locals * Turn :=
  let s := store a (set_stream_pages env (CcCapturedSystemSize s) (Scm s a)) s in
  let '(s, lc) := adjust_targets a s lc in
  queue_write_behind a s lc.

(** One turn of the loop on the shared cache map at [a]; [None] for the
    next shared cache map is the [break]. *)
Definition loop_body (env : Env) (a : addr) (s : Machine) (lc : Scan.Locals)
  : Machine * Scan.Locals * option addr :=
  let lc := match Scan.FirstVisited lc with
            | None => Scan.set_FirstVisited (Some a) lc
            | Some _ => lc
            end in
  let '(flush, m) :=
    flush_test env (CcCapturedSystemSize s) (Scan.PagesToWrite lc) (Scm s a) in
  let s := store a m s in
  let '(s, lc, turn) :=
    if flush then flush_branch env a s lc
    else let '(s, lc) := drop_lock_occasionally a s lc in (s, lc, Foot) in
  match turn with
  | Break => (s, lc, None)
  | Foot => let '(s, lc, next) := loop_foot a s lc in (s, lc, Some next)
  end.

Definition loop_goes_on (lc : Scan.Locals) (a : addr) : bool :=
  negb (is_first_visited lc a) && negb (Nat.eqb a CcLazyWriterCursor).

Fixpoint scan_loop (env : Env) (fuel : nat) (a : addr) (s : Machine)
  (lc : Scan.Locals) : option (Machine * Scan.Locals) :=
  match fuel with
  | O => None
  | S fuel =>
      if loop_goes_on lc a then
        match loop_body env a s lc with
        | (s, lc, Some next) => scan_loop env fuel next s lc
        | (s, lc, None) => Some (s, lc)
        end
      else Some (s, lc)
  end.

(** The loop that posts the post tick work items of this pass. *)
Fixpoint post_tick (q : list WORK_QUEUE_ENTRY) (s : Machine) : Machine :=
  match q with
  | [] => s
  | e :: rest => post_tick rest (CcPostWorkQueue e Regular s)
  end.

(** After the loop: the post tick work items, the poke of the deferred
    writes, the next scan. *)
Definition end_tick (s : Machine) (lc : Scan.Locals) : Machine :=
  let s := post_tick (Scan.PostTickWorkQueue lc) s in
  let s := if negb (Queue.IsListEmpty (CcDeferredWrites s))
           then log EvCcPostDeferredWrites s else s in
  CcScheduleLazyWriteScan false s.

(** [CcLazyWriteScan]; the loop is given one turn per entry of the dirty
    list and one more to see that it has come round; [None] is a loop still
    going on after these. *)
Definition CcLazyWriteScan (env : Env) (s : Machine) : option Machine :=
  if nothing_to_do s then Some (go_inactive s)
  else
    let '(s1, lc) := start_tick s in
    match scan_loop env (S (length (CcDirtySharedCacheMapList s1)))
            (Ring.Flink (CcDirtySharedCacheMapList s1) CcLazyWriterCursor) s1 lc with
    | Some (s2, lc) => Some (end_tick s2 lc)
    | None => None
    end.

(** ** The worker thread *)

(** Modelled from the spec: [io_status.information == CC_REQUEUE] asks for
    the entry to be queued again; the value is the one of cc.h. *)
Definition CC_REQUEUE : Z := 35422.

Definition STATUS_SUCCESS : Z := 0.

(** [NT_SUCCESS(Status)]: the status, a signed 32 bit value, is not negative. *)
Definition NT_SUCCESS (Status : Z) : bool := Status >=? 0.

Module Worker.

(** The local variables of [CcWorkerThread], and the [MemoryMaker] bit of
    the thread it runs in; [WorkQueue] and [WorkQueueEntry] are [None] while
    they are not initialised. *)
Record Locals : Type := mkLocals {
  WorkQueue : option QueueHead;
  WorkQueueEntry : option WORK_QUEUE_ENTRY;
  RescanOk : bool;
  DropThrottle : bool;
  Status : Z;
  Information : Z;
  MemoryMaker : bool
}.

Definition initial : Locals :=
  mkLocals None None false false STATUS_SUCCESS 0 false.

End Worker.

(** The top of the worker's loop: the throttle is dropped after an event
    set, and an entry that asked for it is queued again. *)
Definition resume (s : Machine) (lc : Worker.Locals) : Machine * Worker.Locals :=
  let '(s, DropThrottle) :=
    if Worker.DropThrottle lc then (set_CcQueueThrottle false s, false)
    else (s, Worker.DropThrottle lc) in
  let '(s, Information) :=
    if Worker.Information lc =? CC_REQUEUE then
      (match Worker.WorkQueue lc, Worker.WorkQueueEntry lc with
       | Some q, Some e => set_queue q (Queue.InsertTailList (queue_of q s) e) s
       | _, _ => s
       end, 0)
    else (s, Worker.Information lc) in
  (s, Worker.mkLocals (Worker.WorkQueue lc) (Worker.WorkQueueEntry lc)
        (Worker.RescanOk lc) DropThrottle (Worker.Status lc) Information
        (Worker.MemoryMaker lc)).

(** The queue the worker serves next and the entry at its head: the
    express queue first, then the regular queue. *)
Definition head_entry (s : Machine) : option (QueueHead * WORK_QUEUE_ENTRY) :=
  if negb (Queue.IsListEmpty (CcExpressWorkQueue s)) then
    match CcExpressWorkQueue s with
    | e :: _ => Some (Express, e)
    | [] => None
    end
  else if negb (Queue.IsListEmpty (CcRegularWorkQueue s)) then
    match CcRegularWorkQueue s with
    | e :: _ => Some (Regular, e)
    | [] => None
    end
  else None.

(** One turn of the worker's loop, from taking the work queue lock to
    releasing it with an entry in hand; [None] is a [break]. *)
Definition take_entry (s : Machine) (lc : Worker.Locals)
  : Machine * Worker.Locals * option WORK_QUEUE_ENTRY :=
  let '(s, lc) := resume s lc in
  match head_entry s with
  | None => (s, lc, None)
  | Some (q, e) =>
      let lc := Worker.mkLocals (Some q) (Some e) (Worker.RescanOk lc)
                  (Worker.DropThrottle lc) (Worker.Status lc)
                  (Worker.Information lc) (Worker.MemoryMaker lc) in
      if WORK_FUNCTION_eqb (Function e) EventSet
         && (CcNumberActiveWorkerThreads s >? 1)
      then (set_CcQueueThrottle true s, lc, None)
      else (set_queue q (Queue.RemoveHeadList (queue_of q s)) s, lc, Some e)
  end.

Definition CcWriteBehind (a : addr) (s : Machine) : WB_OUTCOME * Machine :=
  let '(r, s) :=
    match WriteBehindResults s with
    | [] => (WbReturns STATUS_SUCCESS 0, s)
    | r :: rest => (r, set_WriteBehindResults rest s)
    end in
  (r, log (EvCcWriteBehind a r) s).

Definition set_RescanOk (v : bool) (lc : Worker.Locals) : Worker.Locals :=
  Worker.mkLocals (Worker.WorkQueue lc) (Worker.WorkQueueEntry lc) v
    (Worker.DropThrottle lc) (Worker.Status lc) (Worker.Information lc)
    (Worker.MemoryMaker lc).

Definition set_DropThrottle (v : bool) (lc : Worker.Locals) : Worker.Locals :=
  Worker.mkLocals (Worker.WorkQueue lc) (Worker.WorkQueueEntry lc)
    (Worker.RescanOk lc) v (Worker.Status lc) (Worker.Information lc)
    (Worker.MemoryMaker lc).

Definition set_IoStatus (st inf : Z) (lc : Worker.Locals) : Worker.Locals :=
  Worker.mkLocals (Worker.WorkQueue lc) (Worker.WorkQueueEntry lc)
    (Worker.RescanOk lc) (Worker.DropThrottle lc) st inf
    (Worker.MemoryMaker lc).

Definition set_MemoryMaker (v : bool) (lc : Worker.Locals) : Worker.Locals :=
  Worker.mkLocals (Worker.WorkQueue lc) (Worker.WorkQueueEntry lc)
    (Worker.RescanOk lc) (Worker.DropThrottle lc) (Worker.Status lc)
    (Worker.Information lc) v.

(** The [switch] on the entry's function, inside its [try]; an exception
    of [CcWriteBehind] is taken by the handler, which clears [MemoryMaker]. *)
Definition process_entry (env : Env) (e : WORK_QUEUE_ENTRY) (s : Machine)
  (lc : Worker.Locals) : option (Machine * Worker.Locals) :=
  match Function e with
  | ReadAhead =>
      let fo := match Parameters e with ParametersRead fo => fo | _ => 0%nat end in
      Some (log (EvCcPerformReadAhead fo) s, lc)
  | WriteBehind =>
      let a := match Parameters e with ParametersWrite a => a | _ => 0%nat end in
      let lc := set_MemoryMaker true lc in
      let '(r, s) := CcWriteBehind a s in
      match r with
      | WbReturns st inf =>
          let lc := set_IoStatus st inf lc in
          let lc := set_RescanOk (NT_SUCCESS (Worker.Status lc)) lc in
          Some (s, set_MemoryMaker false lc)
      | WbRaises => Some (s, set_MemoryMaker false lc)
      end
  | EventSet =>
      let ev := match Parameters e with ParametersEvent ev => ev | _ => 0%nat end in
      Some (log (EvKeSetEvent ev) s, set_DropThrottle true lc)
  | LazyWriteScan =>
      match CcLazyWriteScan env s with
      | Some s => Some (s, lc)
      | None => None
      end
  end.

(** The entry is freed unless it is to be queued again. *)
Definition free_entry (e : WORK_QUEUE_ENTRY) (s : Machine) (lc : Worker.Locals)
  : Machine :=
  if negb (Worker.Information lc =? CC_REQUEUE)
  then log (EvCcFreeWorkQueueEntry e) s else s.

(** The [while (TRUE)] loop of the worker, up to its [break]. *)
Fixpoint worker_loop (env : Env) (fuel : nat) (s : Machine) (lc : Worker.Locals)
  : option (Machine * Worker.Locals) :=
  match fuel with
  | O => None
  | S fuel =>
      match take_entry s lc with
      | (s, lc, None) => Some (s, lc)
      | (s, lc, Some e) =>
          match process_entry env e s lc with
          | Some (s, lc) => worker_loop env fuel (free_entry e s lc) lc
          | None => None
          end
      end
  end.

(** The worker puts itself back on the idle list. *)
Definition go_idle (w : nat) (s : Machine) : Machine :=
  let s := set_CcIdleWorkerThreadList
             (Queue.InsertTailList (CcIdleWorkerThreadList s) w) s in
  set_CcNumberActiveWorkerThreads (usub (CcNumberActiveWorkerThreads s) 1) s.

(** The test of the last [if] of the worker. *)
Definition rescans (s : Machine) (lc : Worker.Locals) : bool :=
  negb (Queue.IsListEmpty (CcDeferredWrites s))
  && (CcTotalDirtyPages s >=? 20)
  && Worker.RescanOk lc.

(** [CcWorkerThread] for the work item [w]; [None] is a loop that has not
    come to its end within [fuel] turns. *)
Definition CcWorkerThread (env : Env) (fuel : nat) (w : nat) (s : Machine)
  : option Machine :=
  match worker_loop env fuel s Worker.initial with
  | Some (s, lc) =>
      let s := go_idle w s in
      if rescans s lc then CcLazyWriteScan env s else Some s
  | None => None
  end.

(** The outcome of the latest call of [CcWriteBehind] in a log that
    returned, as [RescanOk] records it; [d] when there is none. *)
Fixpoint latest_write (d : bool) (l : list Event) : bool :=
  match l with
  | [] => d
  | EvCcWriteBehind _ (WbReturns st _) :: _ => NT_SUCCESS st
  | _ :: rest => latest_write d rest
  end.

(** Some call of [CcWriteBehind] in the log returned a success. *)
Fixpoint some_write_succeeded (l : list Event) : bool :=
  match l with
  | [] => false
  | EvCcWriteBehind _ (WbReturns st _) :: rest =>
      NT_SUCCESS st || some_write_succeeded rest
  | _ :: rest => some_write_succeeded rest
  end.

(** ** The vocabulary of the properties *)

(** The condition under which a stream is queued for a write behind, in
    the words of the specification: [P] is what is left of the pages to
    write in this tick. *)
Definition eligible (env : Env) (size : MM_SYSTEMSIZE) (P : Z)
  (m : SHARED_CACHE_MAP) : Prop :=
  FlagOn (Flags m) WRITE_QUEUED = false /\
  FlagOn (Flags m) IS_CURSOR = false /\
  ((DirtyPages m <> 0 /\
    (FlagOn (Flags m) WAITING_FOR_TEARDOWN = true \/
     (P <> 0 /\
      (Z.land (uadd (LazyWritePassCount m) 1) 0xF = 0 \/
       FlagOn (Flags m) MODIFIED_WRITE_DISABLED = false \/
       size = MmSmallSystem \/
       DirtyPages m >= 4 * (MAX_WRITE_BEHIND env / PAGE_SIZE env)) /\
      (FlagOn (FoFlags (FileObject m)) FO_TEMPORARY_FILE = false \/
       OpenCount m = 0 \/
       CcCanIWrite env (FileObject m) = false)))) \/
   (OpenCount m = 0 /\ DirtyPages m = 0) \/
   FileSize m = 0).


(** The part of the state the callers of
    [CcWaitForCurrentLazyWriterActivity] do not write. *)
Definition undisturbed (s s' : Machine) : Prop :=
  Scm s' = Scm s /\
  CcDirtySharedCacheMapList s' = CcDirtySharedCacheMapList s /\
  CcRegularWorkQueue s' = CcRegularWorkQueue s /\
  CcExpressWorkQueue s' = CcExpressWorkQueue s /\
  CcIdleWorkerThreadList s' = CcIdleWorkerThreadList s /\
  CcNumberActiveWorkerThreads s' = CcNumberActiveWorkerThreads s /\
  CcQueueThrottle s' = CcQueueThrottle s /\
  CcDeferredWrites s' = CcDeferredWrites s /\
  Log s' = Log s /\
  WriteBehindResults s' = WriteBehindResults s /\
  CcTotalDirtyPages s' = CcTotalDirtyPages s /\
  CcDirtyPageTarget s' = CcDirtyPageTarget s /\
  CcPagesWrittenLastTime s' = CcPagesWrittenLastTime s /\
  CcDirtyPagesLastScan s' = CcDirtyPagesLastScan s /\
  CcPagesYetToWrite s' = CcPagesYetToWrite s /\
  CcCapturedSystemSize s' = CcCapturedSystemSize s.

Ltac undisturbed_tac := unfold undisturbed; simpl; repeat split; reflexivity.

(** Whether the allocation that follows the next window succeeds. *)
Definition next_allocation (s : Machine) : bool :=
  fst (CcAllocateWorkQueueEntry (window s)).

Definition first_of (done : list addr) : option addr :=
  match done with
  | [] => None
  | f :: _ => Some f
  end.

(** Where the loop stands with [rem] still to visit: on the head of [rem],
    or, with nothing left, on an entry that stops it. *)
Definition at_entry (rem : list addr) (lc : Scan.Locals) (cur : addr) : Prop :=
  match rem with
  | [] => loop_goes_on lc cur = false
  | x :: _ => cur = x
  end.

(** The state of a scan that has visited [done] and has [rem] to visit:
    the list seen from the cursor is the entries to visit between two
    parts of the visited ones. *)
Definition walking (done rem : list addr) (s : Machine) (lc : Scan.Locals) : Prop :=
  NoDup (done ++ rem) /\
  ~ In CcLazyWriterCursor (done ++ rem) /\
  Ring.wf CcLazyWriterCursor (CcDirtySharedCacheMapList s) /\
  Scan.MoveBehindCursor lc = false /\
  Scan.FirstVisited lc = first_of done /\
  exists d1 d2 : list addr,
    done = d1 ++ d2 /\
    Ring.rot CcLazyWriterCursor (CcDirtySharedCacheMapList s) = d2 ++ rem ++ d1.

(** The entries that the callers [evs] of
    [CcWaitForCurrentLazyWriterActivity], coming one after the other, get
    queued with the pool [pool]: one for each caller that is given an
    entry, in the callers' order. *)
Fixpoint admitted (evs : list nat) (pool : list bool) : list WORK_QUEUE_ENTRY :=
  match evs with
  | [] => []
  | ev :: evs =>
      match pool with
      | false :: pool => admitted evs pool
      | true :: pool => mkEntry EventSet (ParametersEvent ev) :: admitted evs pool
      | [] => mkEntry EventSet (ParametersEvent ev) :: admitted evs []
      end
  end.

(** Whether the turn of the loop on the stream at [a] drops the master
    lock: it does for a stream that passes the test, and every twentieth
    turn with the lock held for one that is neither queued nor a cursor. *)
Definition has_window (env : Env) (a : addr) (s : Machine) (lc : Scan.Locals)
  : bool :=
  fst (flush_test env (CcCapturedSystemSize s) (Scan.PagesToWrite lc) (Scm s a))
  || ((uadd (Scan.LoopsWithLockHeld lc) 1 >=? 20)
      && negb (FlagOn (Flags (Scm s a)) (Z.lor WRITE_QUEUED IS_CURSOR))).

(** The entries other threads queue on [CcPostTickWorkQueue] during the
    turn of the loop on the stream at [a]. *)
Definition arrivals (env : Env) (a : addr) (s : Machine) (lc : Scan.Locals)
  : list WORK_QUEUE_ENTRY :=
  if has_window env a s lc then admitted (hd [] (Visitors s)) (Pool s) else [].

(** The entries other threads queue on [CcPostTickWorkQueue] during the
    loop, turn after turn. *)
Fixpoint scan_arrivals (env : Env) (fuel : nat) (a : addr) (s : Machine)
  (lc : Scan.Locals) : list WORK_QUEUE_ENTRY :=
  match fuel with
  | O => []
  | S fuel =>
      if loop_goes_on lc a then
        arrivals env a s lc
        ++ match loop_body env a s lc with
           | (s', lc', Some next) => scan_arrivals env fuel next s' lc'
           | (_, _, None) => []
           end
      else []
  end.

(** ** Examples *)

Definition env0 : Env := mkEnv 65536 4096 (fun _ => true).

Definition file0 : FILE_OBJECT := mkFileObject 0 0.

Definition cursor_node : SHARED_CACHE_MAP := mkScm 0 0 0 0 0 IS_CURSOR file0.

(** An open stream of one page of file with [dirty] dirty pages. *)
Definition stream (dirty flags : Z) : SHARED_CACHE_MAP :=
  mkScm 1 4096 dirty 0 0 flags file0.

(** A machine with an active scan, empty queues, one active worker and no
    oracle: [T] dirty pages in all, the target [G], [W] pages written last
    time, [L] dirty pages at the last scan. *)
Definition machine (T G W L : Z) (ring : list addr)
  (scm : addr -> SHARED_CACHE_MAP) : Machine :=
  mkMachine (mkLazyWriter true false None) T G W L 0 MmLargeSystem ring scm
            [] [] [] [] 1 false [] [] [] [] [].

(** Scenario A of the specification: one stream with 100 dirty pages. *)
Definition scenario_A : Machine :=
  machine 100 1000 0 100 [0%nat; 1%nat]
          (fun a => if Nat.eqb a 1 then stream 100 0 else cursor_node).

(** A stream of size zero with three openers and dirty pages elsewhere. *)
Definition zero_size : Machine :=
  machine 100 1000 0 100 [0%nat; 1%nat]
          (fun a => if Nat.eqb a 1 then mkScm 3 0 0 0 0 0 file0 else cursor_node).

(** Nothing dirty, no other work, no deferred write. *)
Definition quiet : Machine :=
  machine 0 1000 0 0 [0%nat] (fun _ => cursor_node).

(** Scenario C of the specification, with a second caller of
    [CcWaitForCurrentLazyWriterActivity] coming in while the scan has
    dropped the master lock. *)
Definition barrier : Machine :=
  set_Visitors [[6%nat]]
    (set_CcPostTickWorkQueue [mkEntry EventSet (ParametersEvent 5)] scenario_A).


(** An estimate for the next interval of 2^32 and more. *)
Definition estimate_wraps : Machine :=
  machine (2 ^ 32 - 1) 4000000000 0 0 [0%nat] (fun _ => cursor_node).

(** A metadata stream followed by another stream, and a pool that has
    nothing to give. *)
Definition metadata_no_pool : Machine :=
  set_Pool [false]
    (machine 100 1000 0 100 [0%nat; 1%nat; 2%nat]
       (fun a => if Nat.eqb a 1 then stream 100 MODIFIED_WRITE_DISABLED
                 else if Nat.eqb a 2 then stream 0 0
                 else cursor_node)).

(** Two write behinds queued, the first to succeed and the second to fail
    with [STATUS_UNSUCCESSFUL], with a deferred write waiting. *)
Definition success_then_failure : Machine :=
  set_CcRegularWorkQueue
    [mkEntry WriteBehind (ParametersWrite 1%nat);
     mkEntry WriteBehind (ParametersWrite 2%nat)]
    (set_WriteBehindResults [WbReturns 0 0; WbReturns (-1073741823) 0]
       (set_CcDeferredWrites [9%nat] scenario_A)).

Definition after_loop (env : Env) (fuel : nat) (s : Machine) : Machine :=
  match worker_loop env fuel s Worker.initial with
  | Some (s', _) => s'
  | None => s
  end.

Definition locals_after_loop (env : Env) (fuel : nat) (s : Machine) : Worker.Locals :=
  match worker_loop env fuel s Worker.initial with
  | Some (_, lc) => lc
  | None => Worker.initial
  end.

Ltac ring_wf :=
  split; [repeat (constructor; [simpl; intuition discriminate|]); constructor
         |simpl; auto].

Ltac in_range_tac :=
  unfold in_range;
  first [ split; [apply Z.leb_le | apply Z.ltb_lt]
        | apply Z.ltb_lt
        | apply Z.leb_le ];
  vm_compute; reflexivity.

(** The entry the scan posts for the shared cache map at [a]. *)
Definition write_behind_entry (a : addr) : WORK_QUEUE_ENTRY :=
  mkEntry WriteBehind (ParametersWrite a).

(** The worker threads there are: the idle ones and the active ones. *)
Definition workers (s : Machine) : Z :=
  Z.of_nat (length (CcIdleWorkerThreadList s)) + CcNumberActiveWorkerThreads s.

(** Scenario A with the scan timer set and a pool that has nothing to give. *)
Definition timer_set_no_pool : Machine :=
  set_Pool [false] (set_ScanTimer (Some CcIdleDelay) scenario_A).

(** A lazy writer that is not active: nothing dirty, no timer set. *)
Definition asleep : Machine := set_ScanActive false quiet.

(** Scenario A with an idle worker to wake. *)
Definition one_idle_worker : Machine :=
  set_CcIdleWorkerThreadList [7%nat] scenario_A.

(** What a scan has made of the streams and the queues of [s] when it has
    queued write behinds for the streams [wr] on the regular queue and
    [we] on the express queue: each of them once, marked [WRITE_QUEUED]
    where it was not, every other stream with its flags, every stream
    with its dirty pages. *)
Definition queued_once (s s' : Machine) (wr we : list addr) : Prop :=
  CcExpressWorkQueue s' = CcExpressWorkQueue s ++ map write_behind_entry we /\
  NoDup (wr ++ we) /\
  forall b : addr,
    DirtyPages (Scm s' b) = DirtyPages (Scm s b) /\
    (In b (wr ++ we) ->
     FlagOn (Flags (Scm s b)) WRITE_QUEUED = false /\
     Flags (Scm s' b) = SetFlag (Flags (Scm s b)) WRITE_QUEUED) /\
    (~ In b (wr ++ we) -> Flags (Scm s' b) = Flags (Scm s b)).

(** An outcome of [CcWriteBehind] that does not ask for the entry to be
    queued again. *)
Definition no_requeue (r : WB_OUTCOME) : Prop :=
  match r with
  | WbReturns _ inf => inf <> CC_REQUEUE
  | WbRaises => True
  end.

(** The call a worker makes for an entry that is not a scan, with the
    outcome [r] if it is a write behind. *)
Definition call_of (e : WORK_QUEUE_ENTRY) (r : WB_OUTCOME) : Event :=
  match Function e with
  | ReadAhead =>
      EvCcPerformReadAhead
        (match Parameters e with ParametersRead fo => fo | _ => 0%nat end)
  | WriteBehind =>
      EvCcWriteBehind
        (match Parameters e with ParametersWrite a => a | _ => 0%nat end) r
  | EventSet | LazyWriteScan =>
      EvKeSetEvent
        (match Parameters e with ParametersEvent ev => ev | _ => 0%nat end)
  end.

(** A write behind queued whose outcome asks for it to be queued again. *)
Definition requeue_once : Machine :=
  set_CcRegularWorkQueue [write_behind_entry 1%nat]
    (set_WriteBehindResults [WbReturns 0 CC_REQUEUE] scenario_A).

(** A write behind and then the event of a waiter on the regular queue. *)
Definition writes_then_event : Machine :=
  set_CcRegularWorkQueue
    [write_behind_entry 1%nat; mkEntry EventSet (ParametersEvent 5)]
    scenario_A.

(** An open stream with modified writing disabled, ten dirty pages and
    fifteen passes behind it. *)
Definition metadata_stream : SHARED_CACHE_MAP :=
  mkScm 1 4096 10 0 15 MODIFIED_WRITE_DISABLED file0.

(** * Properties *)

(** ** Words and flags *)

Lemma wrap_small (z : Z) : in_range z -> wrap z = z.
Proof. unfold in_range, wrap. intros H. now apply Z.mod_small. Qed.

Lemma wrap_range (z : Z) : in_range (wrap z).
Proof. unfold in_range, wrap, modulus. apply Z.mod_pos_bound. lia. Qed.

Lemma usub_uadd_one (a : Z) : in_range a -> usub (uadd a 1) 1 = a.
Proof.
  unfold usub, uadd, wrap, in_range, modulus. intros H.
  rewrite Zminus_mod_idemp_l. replace (a + 1 - 1) with a by lia.
  now apply Z.mod_small.
Qed.

Lemma FlagOn_false (F SF : Z) : FlagOn F SF = false <-> Z.land F SF = 0.
Proof.
  unfold FlagOn. rewrite negb_false_iff. apply Z.eqb_eq.
Qed.

Lemma FlagOn_true (F SF : Z) : FlagOn F SF = true <-> Z.land F SF <> 0.
Proof.
  unfold FlagOn. rewrite negb_true_iff. apply Z.eqb_neq.
Qed.

Lemma FlagOn_either (F A B : Z) :
  FlagOn F (Z.lor A B) = false <-> FlagOn F A = false /\ FlagOn F B = false.
Proof.
  rewrite !FlagOn_false, Z.land_lor_distr_r. apply Z.lor_eq_0_iff.
Qed.

(** Setting a flag that is off and clearing it again gives the word back. *)
Lemma ClearFlag_SetFlag (F SF : Z) :
  Z.land F SF = 0 -> ClearFlag (SetFlag F SF) SF = F.
Proof.
  intros H. unfold ClearFlag, SetFlag. apply Z.bits_inj'. intros n Hn.
  rewrite Z.ldiff_spec, Z.lor_spec.
  assert (Hb : Z.testbit F n && Z.testbit SF n = false).
  { rewrite <- Z.land_spec, H. apply Z.bits_0. }
  destruct (Z.testbit F n), (Z.testbit SF n); simpl in *; congruence.
Qed.

(** Setting a flag does not show in the test of a flag on other bits. *)
Lemma FlagOn_SetFlag_other (F A B : Z) :
  Z.land A B = 0 -> FlagOn (SetFlag F A) B = FlagOn F B.
Proof.
  intros H. unfold FlagOn, SetFlag.
  rewrite Z.land_lor_distr_l, H, Z.lor_0_r. reflexivity.
Qed.

Lemma FlagOn_SetFlag_same (F A : Z) : A <> 0 -> FlagOn (SetFlag F A) A = true.
Proof.
  intros H. apply FlagOn_true. unfold SetFlag.
  rewrite Z.land_comm, Z.land_lor_distr_r, Z.land_diag.
  intros E. apply Z.lor_eq_0_iff in E. tauto.
Qed.

(** ** The test of the scan loop *)

Lemma MM_SYSTEMSIZE_eqb_eq (a b : MM_SYSTEMSIZE) :
  MM_SYSTEMSIZE_eqb a b = true <-> a = b.
Proof. destruct a, b; simpl; split; congruence. Qed.

Lemma close_or_empty_iff (m : SHARED_CACHE_MAP) :
  close_or_empty m = true <->
  (OpenCount m = 0 /\ DirtyPages m = 0) \/ FileSize m = 0.
Proof.
  unfold close_or_empty.
  rewrite orb_true_iff, andb_true_iff, !Z.eqb_eq. tauto.
Qed.

Lemma pass_gate_iff (env : Env) (size : MM_SYSTEMSIZE) (m : SHARED_CACHE_MAP) :
  pass_gate env size m = true <->
  Z.land (LazyWritePassCount m) 0xF = 0 \/
  FlagOn (Flags m) MODIFIED_WRITE_DISABLED = false \/
  size = MmSmallSystem \/
  DirtyPages m >= 4 * (MAX_WRITE_BEHIND env / PAGE_SIZE env).
Proof.
  unfold pass_gate, four_write_behinds.
  rewrite !orb_true_iff, negb_true_iff, Z.eqb_eq, MM_SYSTEMSIZE_eqb_eq, Z.geb_le.
  intuition lia.
Qed.

Lemma temporary_gate_iff (env : Env) (m : SHARED_CACHE_MAP) :
  temporary_gate env m = true <->
  FlagOn (FoFlags (FileObject m)) FO_TEMPORARY_FILE = false \/
  OpenCount m = 0 \/
  CcCanIWrite env (FileObject m) = false.
Proof.
  unfold temporary_gate.
  rewrite !orb_true_iff, !negb_true_iff, Z.eqb_eq. tauto.
Qed.

(** ** The pages to write in a tick *)

Lemma usual_fraction_bounds (s : Machine) :
  in_range (CcTotalDirtyPages s) ->
  0 <= usual_fraction s <= CcTotalDirtyPages s.
Proof.
  unfold in_range, usual_fraction, LAZY_WRITER_MAX_AGE_TARGET. intros H.
  destruct (Z.gtb_spec (CcTotalDirtyPages s) 8).
  - Z.to_euclidean_division_equations. lia.
  - lia.
Qed.

Lemma ForegroundRate_range (s : Machine) : in_range (ForegroundRate s).
Proof.
  unfold ForegroundRate.
  destruct (_ >? _).
  - apply wrap_range.
  - unfold in_range, modulus. lia.
Qed.


(** The estimate for the next interval, step by step. *)
Lemma estimate_steps (s : Machine) :
  in_range (CcTotalDirtyPages s) ->
  usual_fraction s <= CcTotalDirtyPages s /\
  usub (CcTotalDirtyPages s) (usual_fraction s)
    = CcTotalDirtyPages s - usual_fraction s /\
  EstimatedDirtyNextInterval s
    = (CcTotalDirtyPages s - usual_fraction s + ForegroundRate s) mod modulus /\
  (CcTotalDirtyPages s - usual_fraction s + ForegroundRate s < modulus ->
   EstimatedDirtyNextInterval s
     = CcTotalDirtyPages s - usual_fraction s + ForegroundRate s).
Proof.
  intros HT. pose proof (usual_fraction_bounds s HT) as Hf.
  pose proof (ForegroundRate_range s) as Hr.
  assert (Hsub : usub (CcTotalDirtyPages s) (usual_fraction s)
                 = CcTotalDirtyPages s - usual_fraction s).
  { unfold usub. apply wrap_small. unfold in_range in *. lia. }
  unfold EstimatedDirtyNextInterval. rewrite Hsub.
  repeat split; try lia.
  intros Hlt. apply wrap_small. unfold in_range in *. lia.
Qed.

(** C3, as the code has it.  Where [EstimatedDirtyNextInterval] is
    evaluated the pages to write are at most [CcTotalDirtyPages], so the
    subtraction does not wrap; the sum with [ForegroundRate] is still taken
    modulo 2^32, and is the exact value when that value is below 2^32. *)
Theorem estimate_subtraction_exact (s : Machine) :
  in_range (CcTotalDirtyPages s) ->
  usual_fraction s <= CcTotalDirtyPages s /\
  usub (CcTotalDirtyPages s) (usual_fraction s)
    = CcTotalDirtyPages s - usual_fraction s /\
  EstimatedDirtyNextInterval s
    = (CcTotalDirtyPages s - usual_fraction s + ForegroundRate s) mod modulus /\
  (CcTotalDirtyPages s - usual_fraction s + ForegroundRate s < modulus ->
   EstimatedDirtyNextInterval s
     = CcTotalDirtyPages s - usual_fraction s + ForegroundRate s).
Proof. exact (estimate_steps s). Qed.


(** ** Scheduling *)

Lemma set_ScanTimer_twice (v w : option Delay) (s : Machine) :
  set_ScanTimer v (set_ScanTimer w s) = set_ScanTimer v s.
Proof. reflexivity. Qed.

Lemma schedule_when_active (s : Machine) :
  ScanActive (LazyWriter s) = true ->
  CcScheduleLazyWriteScan false s = set_ScanTimer (Some CcIdleDelay) s.
Proof.
  intros H. unfold CcScheduleLazyWriteScan, CcScheduleLazyWriteScan_code.
  rewrite H. reflexivity.
Qed.

Lemma schedule_repeated (n : nat) (s : Machine) :
  ScanActive (LazyWriter s) = true ->
  Nat.iter (S n) (CcScheduleLazyWriteScan false) s
  = set_ScanTimer (Some CcIdleDelay) s.
Proof.
  intros H. induction n as [|n IH].
  - simpl. now apply schedule_when_active.
  - change (Nat.iter (S (S n)) (CcScheduleLazyWriteScan false) s)
      with (CcScheduleLazyWriteScan false
              (Nat.iter (S n) (CcScheduleLazyWriteScan false) s)).
    rewrite IH, schedule_when_active by exact H.
    apply set_ScanTimer_twice.
Qed.

Lemma CcPostWorkQueue_LazyWriter (e : WORK_QUEUE_ENTRY) (q : QueueHead) (s : Machine) :
  LazyWriter (CcPostWorkQueue e q s) = LazyWriter s.
Proof.
  unfold CcPostWorkQueue.
  destruct q; simpl; destruct (CcQueueThrottle s); simpl; try reflexivity;
    destruct (CcIdleWorkerThreadList s); reflexivity.
Qed.

Lemma CcScanDpc_ScanTimer (s : Machine) :
  ScanTimer (LazyWriter (CcScanDpc s)) = ScanTimer (LazyWriter s).
Proof.
  unfold CcScanDpc, CcAllocateWorkQueueEntry.
  destruct (Pool s) as [|[|] rest]; simpl;
    rewrite ?CcPostWorkQueue_LazyWriter; reflexivity.
Qed.

(** The regular queue after a post to it. *)
Lemma CcPostWorkQueue_Regular (e : WORK_QUEUE_ENTRY) (s : Machine) :
  CcRegularWorkQueue (CcPostWorkQueue e Regular s) = CcRegularWorkQueue s ++ [e].
Proof.
  unfold CcPostWorkQueue. simpl.
  destruct (CcQueueThrottle s); simpl; try reflexivity.
  destruct (CcIdleWorkerThreadList s); reflexivity.
Qed.

(** C10.  A call [CcScheduleLazyWriteScan(FALSE)] made while [ScanActive]
    is set only sets the timer, to the idle delay; any number of such calls
    in a row leaves the state of one call, in which the timer goes off once
    and its DPC posts one [LazyWriteScan] entry.  In the two other cases
    [ScanActive] is set before the timer is: to the first delay when the
    scan was not active, to no delay for a fast scan. *)
Theorem schedule_idempotent (n : nat) (s : Machine) :
  ScanActive (LazyWriter s) = true ->
  let one := CcScheduleLazyWriteScan false s in
  let many := Nat.iter (S n) (CcScheduleLazyWriteScan false) s in
  one = set_ScanTimer (Some CcIdleDelay) s /\
  many = one /\
  timer_fires many = CcScanDpc (set_ScanTimer None s) /\
  timer_fires (timer_fires many) = timer_fires many /\
  (fst (CcAllocateWorkQueueEntry s) = true ->
   CcRegularWorkQueue (timer_fires many)
   = CcRegularWorkQueue s ++ [mkEntry LazyWriteScan ParametersNone]) /\
  (forall t : Machine,
     CcScheduleLazyWriteScan_code true t
       = [AssignScanActive true; KeSetTimer CcNoDelay] /\
     (ScanActive (LazyWriter t) = false ->
      CcScheduleLazyWriteScan_code false t
        = [AssignScanActive true; KeSetTimer CcFirstDelay]) /\
     (forall (fast : bool) (pre post : list Stmt) (d : Delay),
        fast = true \/ ScanActive (LazyWriter t) = false ->
        CcScheduleLazyWriteScan_code fast t = pre ++ KeSetTimer d :: post ->
        ScanActive (LazyWriter (run pre t)) = true)).
Proof.
  intros H one many.
  assert (E1 : one = set_ScanTimer (Some CcIdleDelay) s)
    by (apply schedule_when_active; exact H).
  assert (E2 : many = one)
    by (unfold many; rewrite schedule_repeated by exact H; symmetry; exact E1).
  assert (E3 : timer_fires many = CcScanDpc (set_ScanTimer None s)).
  { rewrite E2, E1. reflexivity. }
  repeat split.
  - exact E1.
  - exact E2.
  - exact E3.
  - rewrite E3. unfold timer_fires at 1. rewrite CcScanDpc_ScanTimer. reflexivity.
  - intros Ha. rewrite E3. unfold CcScanDpc.
    destruct (CcAllocateWorkQueueEntry (set_ScanTimer None s)) as [ok s1] eqn:A.
    unfold CcAllocateWorkQueueEntry in *. simpl in A.
    destruct (Pool s) as [|b rest]; simpl in *; inversion A; subst;
      rewrite CcPostWorkQueue_Regular; reflexivity.
  - intros Hf. unfold CcScheduleLazyWriteScan_code. rewrite Hf. reflexivity.
  - intros fast pre post d Hc Hcode.
    assert (Code : CcScheduleLazyWriteScan_code fast t
                   = [AssignScanActive true; KeSetTimer CcNoDelay] \/
                   CcScheduleLazyWriteScan_code fast t
                   = [AssignScanActive true; KeSetTimer CcFirstDelay]).
    { unfold CcScheduleLazyWriteScan_code. destruct fast; [now left|].
      destruct Hc as [Hc|Hc]; [discriminate|]. rewrite Hc. now right. }
    destruct Code as [C|C]; rewrite C in Hcode;
      destruct pre as [|i1 [|i2 [|i3 pre]]]; simpl in Hcode;
      inversion Hcode; subst; try reflexivity;
      match goal with
      | K : [] = _ ++ _ :: _ |- _ => destruct pre; discriminate K
      end.
Qed.

(** ** A tick with nothing to do *)

(** C8.  A tick that starts with no dirty page and no other work: with no
    deferred write it clears [ScanActive] and returns, the timer and the
    queues as they were; with deferred writes, and [ScanActive] set, it
    leaves [ScanActive] set, calls [CcPostDeferredWrites] and schedules the
    next scan, not fast, which sets the timer to the idle delay. *)
Theorem tick_with_nothing_to_do (env : Env) (s : Machine) :
  CcTotalDirtyPages s = 0 ->
  OtherWork (LazyWriter s) = false ->
  (CcDeferredWrites s = [] ->
   CcLazyWriteScan env s = Some (set_ScanActive false s) /\
   ScanActive (LazyWriter (set_ScanActive false s)) = false /\
   ScanTimer (LazyWriter (set_ScanActive false s)) = ScanTimer (LazyWriter s) /\
   CcPostTickWorkQueue (set_ScanActive false s) = CcPostTickWorkQueue s /\
   CcRegularWorkQueue (set_ScanActive false s) = CcRegularWorkQueue s /\
   CcExpressWorkQueue (set_ScanActive false s) = CcExpressWorkQueue s /\
   Log (set_ScanActive false s) = Log s) /\
  (CcDeferredWrites s <> [] ->
   ScanActive (LazyWriter s) = true ->
   exists s' : Machine,
     CcLazyWriteScan env s = Some s' /\
     s' = CcScheduleLazyWriteScan false (log EvCcPostDeferredWrites s) /\
     ScanActive (LazyWriter s') = true /\
     ScanTimer (LazyWriter s') = Some CcIdleDelay /\
     Log s' = EvCcPostDeferredWrites :: Log s /\
     CcPostTickWorkQueue s' = CcPostTickWorkQueue s /\
     CcRegularWorkQueue s' = CcRegularWorkQueue s /\
     CcExpressWorkQueue s' = CcExpressWorkQueue s).
Proof.
  intros HT HO.
  assert (N : nothing_to_do s = true).
  { unfold nothing_to_do. rewrite HT, HO. reflexivity. }
  unfold CcLazyWriteScan. rewrite N. unfold go_inactive. split.
  - intros HD. rewrite HD. simpl. repeat split; reflexivity.
  - intros HD HA. destruct (CcDeferredWrites s) as [|d rest] eqn:E;
      [congruence|]. simpl.
    eexists. split; [reflexivity|].
    rewrite schedule_when_active by exact HA.
    repeat split; simpl; auto.
Qed.

(** ** The worker and the event sets *)

Lemma WORK_FUNCTION_eqb_eq (a b : WORK_FUNCTION) :
  WORK_FUNCTION_eqb a b = true <-> a = b.
Proof. destruct a, b; simpl; split; congruence. Qed.




(** ** What the windows leave alone *)

Lemma undisturbed_refl (s : Machine) : undisturbed s s.
Proof. undisturbed_tac. Qed.

Lemma undisturbed_trans (s1 s2 s3 : Machine) :
  undisturbed s1 s2 -> undisturbed s2 s3 -> undisturbed s1 s3.
Proof.
  unfold undisturbed. intros H1 H2.
  repeat match goal with H : _ /\ _ |- _ => destruct H end.
  repeat split; congruence.
Qed.

Lemma wait_undisturbed (ev : nat) (s : Machine) :
  undisturbed s (snd (CcWaitForCurrentLazyWriterActivity ev s)).
Proof.
  unfold CcWaitForCurrentLazyWriterActivity, CcAllocateWorkQueueEntry.
  destruct (Pool s) as [|[|] rest]; simpl;
    try destruct (ScanActive (LazyWriter s)); undisturbed_tac.
Qed.

Lemma visitors_undisturbed (evs : list nat) (s : Machine) :
  undisturbed s
    (fold_left (fun s ev => snd (CcWaitForCurrentLazyWriterActivity ev s)) evs s).
Proof.
  revert s. induction evs as [|ev evs IH]; intros s; simpl.
  - apply undisturbed_refl.
  - eapply undisturbed_trans; [apply wait_undisturbed | apply IH].
Qed.

Lemma window_undisturbed (s : Machine) : undisturbed s (window s).
Proof.
  unfold window. destruct (Visitors s) as [|evs rest].
  - apply undisturbed_refl.
  - eapply undisturbed_trans; [|apply visitors_undisturbed]. undisturbed_tac.
Qed.

Lemma allocate_undisturbed (s : Machine) :
  undisturbed s (snd (CcAllocateWorkQueueEntry s)) /\
  CcPostTickWorkQueue (snd (CcAllocateWorkQueueEntry s)) = CcPostTickWorkQueue s /\
  LazyWriter (snd (CcAllocateWorkQueueEntry s)) = LazyWriter s.
Proof.
  unfold CcAllocateWorkQueueEntry.
  destruct (Pool s); simpl; repeat split; reflexivity.
Qed.

Lemma store_same (a : addr) (m : SHARED_CACHE_MAP) (s : Machine) :
  Scm (store a m s) a = m.
Proof. unfold store. simpl. rewrite Nat.eqb_refl. reflexivity. Qed.

Lemma store_other (a b : addr) (m : SHARED_CACHE_MAP) (s : Machine) :
  b <> a -> Scm (store a m s) b = Scm s b.
Proof.
  intros H. unfold store. simpl.
  destruct (Nat.eqb_spec b a); [contradiction|reflexivity].
Qed.

Lemma adjust_targets_Scm (a : addr) (s : Machine) (lc : Scan.Locals) :
  Scm (fst (adjust_targets a s lc)) = Scm s /\
  CcRegularWorkQueue (fst (adjust_targets a s lc)) = CcRegularWorkQueue s /\
  CcExpressWorkQueue (fst (adjust_targets a s lc)) = CcExpressWorkQueue s.
Proof.
  unfold adjust_targets.
  destruct (negb (Scan.AlreadyMoved lc)); [|auto].
  destruct (_ >=? _); [|auto].
  destruct (_ || _); auto.
Qed.

Lemma CcPostWorkQueue_queues (e : WORK_QUEUE_ENTRY) (q : QueueHead) (s : Machine) :
  CcRegularWorkQueue (CcPostWorkQueue e q s)
  = match q with
    | Regular => CcRegularWorkQueue s ++ [e]
    | Express => CcRegularWorkQueue s
    end /\
  CcExpressWorkQueue (CcPostWorkQueue e q s)
  = match q with
    | Express => CcExpressWorkQueue s ++ [e]
    | Regular => CcExpressWorkQueue s
    end.
Proof.
  unfold CcPostWorkQueue.
  destruct q; simpl; destruct (CcQueueThrottle s); simpl; auto;
    destruct (CcIdleWorkerThreadList s); auto.
Qed.

(** What a post to a work queue leaves alone. *)
Lemma CcPostWorkQueue_frame (e : WORK_QUEUE_ENTRY) (q : QueueHead) (s : Machine) :
  Scm (CcPostWorkQueue e q s) = Scm s /\
  CcDirtySharedCacheMapList (CcPostWorkQueue e q s) = CcDirtySharedCacheMapList s /\
  CcPostTickWorkQueue (CcPostWorkQueue e q s) = CcPostTickWorkQueue s /\
  CcDeferredWrites (CcPostWorkQueue e q s) = CcDeferredWrites s /\
  Visitors (CcPostWorkQueue e q s) = Visitors s /\
  latest_write false (Log (CcPostWorkQueue e q s)) = latest_write false (Log s).
Proof.
  unfold CcPostWorkQueue.
  destruct q; simpl; destruct (CcQueueThrottle s); simpl; auto;
    destruct (CcIdleWorkerThreadList s); simpl; auto 10.
Qed.


(** ** The dirty list *)

Lemma ring_split (x : addr) (l : list addr) :
  In x l -> l = Ring.before x l ++ x :: Ring.after x l.
Proof.
  induction l as [|y t IH]; simpl; [contradiction|].
  intros H. destruct (Nat.eqb_spec y x) as [E|N].
  - subst. reflexivity.
  - destruct H as [H|H]; [contradiction|].
    simpl. f_equal. now apply IH.
Qed.

Lemma before_fresh (x : addr) (l r : list addr) :
  ~ In x l -> Ring.before x (l ++ x :: r) = l.
Proof.
  induction l as [|y t IH]; simpl; intros H.
  - rewrite Nat.eqb_refl. reflexivity.
  - destruct (Nat.eqb_spec y x) as [E|N]; [tauto|].
    f_equal. apply IH. tauto.
Qed.

Lemma after_fresh (x : addr) (l r : list addr) :
  ~ In x l -> Ring.after x (l ++ x :: r) = r.
Proof.
  induction l as [|y t IH]; simpl; intros H.
  - rewrite Nat.eqb_refl. reflexivity.
  - destruct (Nat.eqb_spec y x) as [E|N]; [tauto|].
    apply IH. tauto.
Qed.

Lemma before_absent (x : addr) (l : list addr) :
  ~ In x l -> Ring.before x l = l /\ Ring.after x l = [].
Proof.
  induction l as [|y t IH]; simpl; intros H; [auto|].
  destruct (Nat.eqb_spec y x) as [E|N]; [tauto|].
  destruct IH as [B A]; [tauto|]. rewrite B, A. auto.
Qed.

(** The list seen from one of its entries holds the same entries. *)
Lemma rot_perm (x : addr) (l : list addr) :
  In x l -> Permutation l (x :: Ring.rot x l).
Proof.
  intros H. rewrite (ring_split x l H) at 1. unfold Ring.rot.
  eapply Permutation_trans; [apply Permutation_sym, Permutation_middle|].
  constructor. apply Permutation_app_comm.
Qed.

Lemma rot_NoDup (x : addr) (l : list addr) :
  NoDup l -> In x l -> NoDup (Ring.rot x l) /\ ~ In x (Ring.rot x l).
Proof.
  intros N H.
  pose proof (Permutation_NoDup (rot_perm x l H) N) as P.
  inversion P; subst. auto.
Qed.



Lemma rot_of_split (x : addr) (u v : list addr) :
  NoDup (u ++ x :: v) -> Ring.rot x (u ++ x :: v) = v ++ u.
Proof.
  intros N. apply NoDup_remove_2 in N.
  assert (Hu : ~ In x u) by (intros H; apply N, in_or_app; auto).
  unfold Ring.rot. rewrite after_fresh, before_fresh by exact Hu. reflexivity.
Qed.

Lemma split_unique (x : addr) (p q p' q' : list addr) :
  NoDup (p ++ x :: q) -> p ++ x :: q = p' ++ x :: q' -> p = p' /\ q = q'.
Proof.
  intros N E.
  assert (N' : NoDup (p' ++ x :: q')) by (rewrite <- E; exact N).
  apply NoDup_remove_2 in N. apply NoDup_remove_2 in N'.
  assert (Hp : ~ In x p) by (intros H; apply N, in_or_app; auto).
  assert (Hp' : ~ In x p') by (intros H; apply N', in_or_app; auto).
  split.
  - rewrite <- (before_fresh x p q Hp), E. now apply before_fresh.
  - rewrite <- (after_fresh x p q Hp), E. now apply after_fresh.
Qed.

(** The list seen from [x], told from the list seen from [y]. *)
Lemma rot_rot (x y : addr) (l p q : list addr) :
  NoDup l -> In y l ->
  Ring.rot y l = p ++ x :: q -> Ring.rot x l = q ++ y :: p.
Proof.
  intros N Hy E.
  pose proof (ring_split y l Hy) as Sp.
  set (A := Ring.before y l) in *. set (B := Ring.after y l) in *.
  assert (Ny : NoDup (Ring.rot y l)) by (apply rot_NoDup; assumption).
  assert (Er : Ring.rot y l = B ++ A) by reflexivity.
  assert (Hx : In x (B ++ A)) by (rewrite <- Er, E; apply in_elt).
  rewrite E in Ny. rewrite Er in E.
  apply in_app_or in Hx. destruct Hx as [Hx|Hx].
  - apply in_split in Hx. destruct Hx as (B1 & B2 & HB).
    assert (E' : p ++ x :: q = B1 ++ x :: (B2 ++ A)).
    { rewrite <- E, HB, <- app_assoc. reflexivity. }
    destruct (split_unique x p q B1 (B2 ++ A) Ny E') as [-> ->].
    assert (L : l = (A ++ y :: B1) ++ x :: B2).
    { rewrite Sp at 1. rewrite HB, <- app_assoc. reflexivity. }
    rewrite L. rewrite rot_of_split by (rewrite <- L; exact N).
    rewrite <- app_assoc. reflexivity.
  - apply in_split in Hx. destruct Hx as (A1 & A2 & HA).
    assert (E' : p ++ x :: q = (B ++ A1) ++ x :: A2).
    { rewrite <- E, HA, <- app_assoc. reflexivity. }
    destruct (split_unique x p q (B ++ A1) A2 Ny E') as [-> ->].
    assert (L : l = A1 ++ x :: (A2 ++ y :: B)).
    { rewrite Sp at 1. rewrite HA, <- app_assoc. reflexivity. }
    rewrite L. rewrite rot_of_split by (rewrite <- L; exact N).
    rewrite <- app_assoc. reflexivity.
Qed.

(** [Flink] of an entry, told from the list seen from [y]. *)
Lemma Flink_seen_from (x y : addr) (l p q : list addr) :
  NoDup l -> In y l ->
  Ring.rot y l = p ++ x :: q -> Ring.Flink l x = hd y q.
Proof.
  intros N Hy E. unfold Ring.Flink. rewrite (rot_rot x y l p q N Hy E).
  destruct q; reflexivity.
Qed.

Lemma perm_turn (a : addr) (p q : list addr) :
  Permutation (p ++ a :: q) (a :: q ++ p).
Proof.
  eapply Permutation_trans; [apply Permutation_sym, Permutation_middle|].
  constructor. apply Permutation_app_comm.
Qed.

(** The cursor taken out and linked in front of [a]: the list seen from
    the cursor starts at [a]. *)
Lemma cursor_before (c a : addr) (l p q : list addr) :
  NoDup l -> In c l -> Ring.rot c l = p ++ a :: q ->
  let l' := Ring.InsertTailList a c (Ring.RemoveEntryList c l) in
  Ring.rot c l' = a :: q ++ p /\
  Ring.wf c l' /\
  Ring.Flink l' c = a /\
  Ring.Blink l' a = c.
Proof.
  intros N Hc E l'.
  destruct (rot_NoDup c l N Hc) as [Nr Nc].
  assert (El : l' = (a :: q ++ p) ++ c :: []).
  { unfold l', Ring.InsertTailList, Ring.RemoveEntryList.
    rewrite E, rot_of_split by (rewrite <- E; exact Nr). reflexivity. }
  assert (Nl : NoDup l').
  { rewrite El. apply (Permutation_NoDup (l := c :: p ++ a :: q)).
    - eapply Permutation_trans; [apply Permutation_cons_append|].
      apply Permutation_app_tail, perm_turn.
    - constructor; rewrite <- E; assumption. }
  assert (Er : Ring.rot c l' = a :: q ++ p).
  { rewrite El. rewrite rot_of_split by (rewrite <- El; exact Nl). reflexivity. }
  split; [exact Er|]. split.
  - split; [exact Nl|]. rewrite El. apply in_elt.
  - split.
    + unfold Ring.Flink. rewrite Er. reflexivity.
    + unfold Ring.Blink. rewrite El in Nl |- *.
      change ((a :: q ++ p) ++ [c]) with ([] ++ a :: ((q ++ p) ++ [c])) in Nl |- *.
      rewrite rot_of_split by exact Nl.
      rewrite app_nil_r. apply last_last.
Qed.

(** The cursor taken out and linked behind [a]: the list seen from the
    cursor ends at [a], and starts where the list without the cursor goes
    on after [a]. *)
Lemma cursor_behind (c a : addr) (l p q : list addr) :
  NoDup l -> In c l -> Ring.rot c l = p ++ a :: q ->
  let l' := Ring.InsertHeadList a c (Ring.RemoveEntryList c l) in
  Ring.rot c l' = q ++ p ++ [a] /\
  Ring.wf c l' /\
  Ring.Flink l' a = c /\
  Ring.Flink l' c = Ring.Flink (Ring.RemoveEntryList c l) a.
Proof.
  intros N Hc E l'.
  destruct (rot_NoDup c l N Hc) as [Nr Nc].
  assert (Ex : Ring.rot a (Ring.rot c l) = q ++ p).
  { rewrite E. apply rot_of_split. rewrite <- E. exact Nr. }
  assert (El : l' = [a] ++ c :: (q ++ p)).
  { unfold l', Ring.InsertHeadList, Ring.RemoveEntryList.
    rewrite Ex. reflexivity. }
  assert (Nl : NoDup l').
  { rewrite El. apply (Permutation_NoDup (l := c :: p ++ a :: q)).
    - eapply Permutation_trans; [apply perm_skip, perm_turn|].
      simpl. apply perm_swap.
    - constructor; rewrite <- E; assumption. }
  assert (Er : Ring.rot c l' = q ++ p ++ [a]).
  { rewrite El. rewrite rot_of_split by (rewrite <- El; exact Nl).
    rewrite <- app_assoc. reflexivity. }
  split; [exact Er|]. split.
  - split; [exact Nl|]. rewrite El. apply in_elt.
  - split.
    + unfold Ring.Flink. rewrite El in Nl |- *.
      change ([a] ++ c :: q ++ p) with ([] ++ a :: (c :: q ++ p)) in Nl |- *.
      rewrite rot_of_split by exact Nl. reflexivity.
    + unfold Ring.Flink at 1. rewrite Er.
      unfold Ring.Flink, Ring.RemoveEntryList. rewrite Ex.
      rewrite app_assoc. destruct (q ++ p); reflexivity.
Qed.

(** ** The outcome of the next allocation *)

Lemma wait_Pool (ev : nat) (s : Machine) :
  Pool (snd (CcWaitForCurrentLazyWriterActivity ev s)) = tl (Pool s).
Proof.
  unfold CcWaitForCurrentLazyWriterActivity, CcAllocateWorkQueueEntry.
  destruct (Pool s) as [|[|] rest] eqn:E; simpl;
    try destruct (ScanActive (LazyWriter s)); simpl; rewrite ?E; reflexivity.
Qed.

Lemma visitors_Pool (evs : list nat) (s : Machine) :
  Pool (fold_left (fun s ev => snd (CcWaitForCurrentLazyWriterActivity ev s)) evs s)
  = skipn (length evs) (Pool s).
Proof.
  revert s. induction evs as [|ev evs IH]; intros s; simpl; [reflexivity|].
  rewrite IH, wait_Pool. destruct (Pool s); simpl; [|reflexivity].
  destruct (length evs); reflexivity.
Qed.

Lemma window_Pool (s : Machine) :
  Pool (window s)
  = match Visitors s with
    | [] => Pool s
    | evs :: _ => skipn (length evs) (Pool s)
    end.
Proof.
  unfold window. destruct (Visitors s) as [|evs rest]; [reflexivity|].
  rewrite visitors_Pool. reflexivity.
Qed.

Lemma next_allocation_ext (s1 s2 : Machine) :
  Pool s1 = Pool s2 -> Visitors s1 = Visitors s2 ->
  next_allocation s1 = next_allocation s2.
Proof.
  intros HP HV. unfold next_allocation, CcAllocateWorkQueueEntry.
  rewrite (window_Pool s1), (window_Pool s2), HP, HV.
  destruct (Visitors s2) as [|evs rest].
  - destruct (Pool s2); reflexivity.
  - destruct (skipn (length evs) (Pool s2)); reflexivity.
Qed.

(** The branch that queues a write behind: the dirty list stays as it is,
    the other shared cache maps stay as they are, and of the locals only
    [LoopsWithLockHeld] is written. *)
Lemma queue_write_behind_shape (a : addr) (s : Machine) (lc : Scan.Locals) :
  exists s' : Machine,
    queue_write_behind a s lc
    = (s',
       if next_allocation s then Scan.set_LoopsWithLockHeld 0 lc else lc,
       if next_allocation s then Foot else Break) /\
    CcDirtySharedCacheMapList s' = CcDirtySharedCacheMapList s /\
    (forall b : addr, b <> a -> Scm s' b = Scm s b).
Proof.
  assert (Hn : next_allocation (pin a s) = next_allocation s)
    by (apply next_allocation_ext; reflexivity).
  rewrite <- Hn. unfold queue_write_behind, next_allocation.
  pose proof (window_undisturbed (pin a s)) as Hw.
  destruct (allocate_undisturbed (window (pin a s))) as (Ha & _ & _).
  pose proof (undisturbed_trans _ _ _ Hw Ha) as Hu.
  destruct Hu as (US & UL & _).
  destruct (CcAllocateWorkQueueEntry (window (pin a s))) as [ok s3].
  cbn [fst snd] in *. destruct ok.
  - eexists. split; [reflexivity|].
    set (e := mkEntry WriteBehind (ParametersWrite a)).
    destruct (FlagOn (Flags (Scm (unbias a s3) a)) WAITING_FOR_TEARDOWN).
    + destruct (CcPostWorkQueue_frame e Express (unbias a s3)) as (F1 & F2 & _).
      rewrite F1, F2. split.
      * simpl. rewrite UL. reflexivity.
      * intros b Hb. unfold unbias. rewrite store_other by exact Hb.
        rewrite US. unfold pin. now rewrite store_other.
    + destruct (CcPostWorkQueue_frame e Regular (unbias a s3)) as (F1 & F2 & _).
      rewrite F1, F2. split.
      * simpl. rewrite UL. reflexivity.
      * intros b Hb. unfold unbias. rewrite store_other by exact Hb.
        rewrite US. unfold pin. now rewrite store_other.
  - eexists. split; [reflexivity|]. split.
    + simpl. rewrite UL. reflexivity.
    + intros b Hb. unfold unpin. rewrite store_other by exact Hb.
      rewrite US. unfold pin. now rewrite store_other.
Qed.

(** ** One turn of the loop *)

Lemma flush_test_fields (env : Env) (size : MM_SYSTEMSIZE) (P : Z)
  (m : SHARED_CACHE_MAP) :
  Flags (snd (flush_test env size P m)) = Flags m /\
  DirtyPages (snd (flush_test env size P m)) = DirtyPages m.
Proof.
  unfold flush_test.
  destruct (FlagOn (Flags m) (Z.lor WRITE_QUEUED IS_CURSOR)); [auto|].
  destruct (negb (DirtyPages m =? 0)); [|auto].
  destruct (FlagOn (Flags m) WAITING_FOR_TEARDOWN); [auto|].
  destruct (negb (P =? 0)); [|auto].
  destruct (_ && _); auto.
Qed.

Lemma set_stream_pages_fields (env : Env) (size : MM_SYSTEMSIZE)
  (m : SHARED_CACHE_MAP) :
  Flags (set_stream_pages env size m) = Flags m /\
  DirtyPages (set_stream_pages env size m) = DirtyPages m /\
  LazyWritePassCount (set_stream_pages env size m) = LazyWritePassCount m /\
  0 <= PagesToWrite (set_stream_pages env size m) <= DirtyPages m \/
  Flags (set_stream_pages env size m) = Flags m /\
  DirtyPages (set_stream_pages env size m) = DirtyPages m /\
  LazyWritePassCount (set_stream_pages env size m) = LazyWritePassCount m /\
  DirtyPages m < 0.
Proof.
  unfold set_stream_pages. simpl.
  destruct (Z.le_gt_cases 0 (DirtyPages m)) as [H|H].
  - left. destruct (_ && _); simpl; repeat split; try lia;
      Z.to_euclidean_division_equations; lia.
  - right. destruct (_ && _); simpl; auto.
Qed.

Lemma loop_body_flush (env : Env) (a : addr) (s : Machine) (lc : Scan.Locals) :
  fst (flush_test env (CcCapturedSystemSize s) (Scan.PagesToWrite lc) (Scm s a))
  = true ->
  let lc1 := match Scan.FirstVisited lc with
             | None => Scan.set_FirstVisited (Some a) lc
             | Some _ => lc
             end in
  let m1 := snd (flush_test env (CcCapturedSystemSize s) (Scan.PagesToWrite lc)
                   (Scm s a)) in
  let s1 := store a (set_stream_pages env (CcCapturedSystemSize s) m1)
              (store a m1 s) in
  let t := queue_write_behind a (fst (adjust_targets a s1 lc1))
             (snd (adjust_targets a s1 lc1)) in
  loop_body env a s lc
  = match snd t with
    | Break => (fst (fst t), snd (fst t), None)
    | Foot =>
        (fst (fst (loop_foot a (fst (fst t)) (snd (fst t)))),
         snd (fst (loop_foot a (fst (fst t)) (snd (fst t)))),
         Some (snd (loop_foot a (fst (fst t)) (snd (fst t)))))
    end.
Proof.
  intros H lc1 m1 s1 t. unfold loop_body.
  assert (HP : Scan.PagesToWrite lc1 = Scan.PagesToWrite lc)
    by (unfold lc1; destruct (Scan.FirstVisited lc); reflexivity).
  fold lc1. rewrite HP.
  destruct (flush_test env (CcCapturedSystemSize s) (Scan.PagesToWrite lc)
              (Scm s a)) as [f m] eqn:F.
  simpl in H. subst f. unfold flush_branch.
  assert (Em : m1 = m) by (unfold m1; reflexivity).
  change (CcCapturedSystemSize (store a m s)) with (CcCapturedSystemSize s).
  rewrite store_same. rewrite <- Em. fold s1.
  destruct (adjust_targets a s1 lc1) as [s2 lc2] eqn:A.
  cbn [fst snd] in t. fold t.
  destruct t as [[s3 lc3] turn]. cbn [fst snd].
  destruct turn; [reflexivity|].
  destruct (loop_foot a s3 lc3) as [[s4 lc4] n]. reflexivity.
Qed.



Lemma adjust_targets_ring (a : addr) (s : Machine) (lc : Scan.Locals) :
  let R := CcDirtySharedCacheMapList s in
  let r := adjust_targets a s lc in
  Scan.FirstVisited (snd r) = Scan.FirstVisited lc /\
  Scan.PostTickWorkQueue (snd r) = Scan.PostTickWorkQueue lc /\
  Pool (fst r) = Pool s /\ Visitors (fst r) = Visitors s /\
  (CcDirtySharedCacheMapList (fst r) = R /\
   (Scan.MoveBehindCursor (snd r) = Scan.MoveBehindCursor lc \/
    Scan.MoveBehindCursor (snd r) = true) \/
   CcDirtySharedCacheMapList (fst r)
   = Ring.InsertTailList a CcLazyWriterCursor
       (Ring.RemoveEntryList CcLazyWriterCursor R) /\
   Scan.MoveBehindCursor (snd r) = Scan.MoveBehindCursor lc).
Proof.
  unfold adjust_targets.
  destruct (negb (Scan.AlreadyMoved lc)); [|simpl; auto 10].
  destruct (_ >=? _); [|simpl; auto 10].
  destruct (_ || _); simpl; auto 10.
Qed.

Lemma drop_lock_occasionally_frame (a : addr) (s : Machine) (lc : Scan.Locals) :
  let r := drop_lock_occasionally a s lc in
  CcDirtySharedCacheMapList (fst r) = CcDirtySharedCacheMapList s /\
  CcRegularWorkQueue (fst r) = CcRegularWorkQueue s /\
  Log (fst r) = Log s /\
  Scan.FirstVisited (snd r) = Scan.FirstVisited lc /\
  Scan.MoveBehindCursor (snd r) = Scan.MoveBehindCursor lc /\
  Scan.PostTickWorkQueue (snd r) = Scan.PostTickWorkQueue lc.
Proof.
  unfold drop_lock_occasionally. cbv zeta.
  destruct (_ && _); [|simpl; auto 10].
  cbn [fst snd]. pose proof (window_undisturbed (pin a s)) as Hw.
  destruct Hw as (_ & U1 & U2 & _ & _ & _ & _ & _ & U3 & _).
  unfold unpin. simpl. rewrite U1, U2, U3. simpl. auto 10.
Qed.



(** ** The dirty list through one turn *)

(** The shape of the dirty list after one turn on [a]: as it was, or with
    the cursor in front of [a], or with the cursor behind [a]; the next
    shared cache map is read before the cursor goes behind [a]. *)
Lemma loop_body_ring (env : Env) (a : addr) (s : Machine) (lc : Scan.Locals) :
  Scan.MoveBehindCursor lc = false ->
  let R := CcDirtySharedCacheMapList s in
  let Rb := Ring.InsertTailList a CcLazyWriterCursor
              (Ring.RemoveEntryList CcLazyWriterCursor R) in
  let Ra := Ring.InsertHeadList a CcLazyWriterCursor
              (Ring.RemoveEntryList CcLazyWriterCursor R) in
  let s' := fst (fst (loop_body env a s lc)) in
  let lc' := snd (fst (loop_body env a s lc)) in
  let nxt := snd (loop_body env a s lc) in
  Scan.FirstVisited lc'
  = Some (match Scan.FirstVisited lc with None => a | Some f => f end) /\
  (nxt = None \/
   Scan.MoveBehindCursor lc' = false /\
   (CcDirtySharedCacheMapList s' = R /\ nxt = Some (Ring.Flink R a) \/
    CcDirtySharedCacheMapList s' = Rb /\ nxt = Some (Ring.Flink Rb a) \/
    CcDirtySharedCacheMapList s' = Ra /\ nxt = Some (Ring.Flink R a))).
Proof.
  intros Hmb R Rb Ra.
  set (lc1 := match Scan.FirstVisited lc with
              | None => Scan.set_FirstVisited (Some a) lc
              | Some _ => lc
              end).
  assert (H1 : Scan.FirstVisited lc1
               = Some (match Scan.FirstVisited lc with None => a | Some f => f end)
               /\ Scan.MoveBehindCursor lc1 = false).
  { unfold lc1. destruct (Scan.FirstVisited lc) eqn:E; simpl; auto. }
  destruct H1 as [HF1 HM1].
  destruct (fst (flush_test env (CcCapturedSystemSize s) (Scan.PagesToWrite lc)
                   (Scm s a))) eqn:T.
  - rewrite (loop_body_flush env a s lc T). cbv zeta. fold lc1.
    set (s1 := store a _ (store a _ s)).
    pose proof (adjust_targets_ring a s1 lc1) as A. cbv zeta in A.
    destruct (adjust_targets a s1 lc1) as [s2 lc2]. cbn [fst snd] in *.
    destruct A as (AF & _ & _ & _ & AR).
    change (CcDirtySharedCacheMapList s1) with R in AR. fold Rb in AR.
    destruct (queue_write_behind_shape a s2 lc2) as (s3 & Q & R3 & _).
    rewrite Q. cbn [fst snd].
    destruct (next_allocation s2); cbn [fst snd]; [|rewrite AF; auto].
    unfold loop_foot. simpl Scan.MoveBehindCursor.
    destruct (Scan.MoveBehindCursor lc2) eqn:M; cbn [fst snd]; simpl;
      rewrite AF; (split; [exact HF1|]); right.
    + split; [reflexivity|]. right. right. rewrite R3.
      destruct AR as [[AR _]|[_ AR]]; [|congruence].
      rewrite AR. auto.
    + split; [exact M|]. rewrite R3.
      destruct AR as [[AR _]|[AR _]]; rewrite AR; auto.
  - unfold loop_body. fold lc1.
    assert (HP : Scan.PagesToWrite lc1 = Scan.PagesToWrite lc)
      by (unfold lc1; destruct (Scan.FirstVisited lc); reflexivity).
    rewrite HP.
    destruct (flush_test env (CcCapturedSystemSize s) (Scan.PagesToWrite lc)
                (Scm s a)) as [f m]. simpl in T. subst f.
    pose proof (drop_lock_occasionally_frame a (store a m s) lc1) as D.
    cbv zeta in D.
    destruct (drop_lock_occasionally a (store a m s) lc1) as [s2 lc2].
    cbn [fst snd] in *. destruct D as (DR & _ & _ & DF & DM & _).
    unfold loop_foot. rewrite DM, HM1. cbn [fst snd].
    rewrite DF, DM, DR. simpl.
    split; [exact HF1|]. right. split; [exact HM1|]. left. auto.
Qed.

(** ** The loop comes to its end *)

Lemma stops_at_cursor (lc : Scan.Locals) :
  loop_goes_on lc CcLazyWriterCursor = false.
Proof. unfold loop_goes_on. simpl. apply andb_false_r. Qed.

Lemma stops_at_first (lc : Scan.Locals) (f : addr) :
  Scan.FirstVisited lc = Some f -> loop_goes_on lc f = false.
Proof.
  intros H. unfold loop_goes_on, is_first_visited. rewrite H, Nat.eqb_refl.
  reflexivity.
Qed.

Lemma first_of_snoc (done : list addr) (x : addr) :
  first_of (done ++ [x])
  = Some (match first_of done with None => x | Some f => f end).
Proof. destruct done; reflexivity. Qed.

Lemma walking_step (env : Env) (done rem : list addr) (x : addr)
  (s : Machine) (lc : Scan.Locals) :
  walking done (x :: rem) s lc ->
  let r := loop_body env x s lc in
  snd r = None \/
  exists next : addr,
    snd r = Some next /\
    walking (done ++ [x]) rem (fst (fst r)) (snd (fst r)) /\
    at_entry rem (snd (fst r)) next.
Proof.
  intros (Nv & Cv & [N Hc] & Hmb & Hfv & d1 & d2 & Hd & Hrot) r.
  pose proof (loop_body_ring env x s lc Hmb) as B. cbv zeta in B. fold r in B.
  destruct B as [BF [B|[BM B]]]; [left; exact B|right].
  rewrite Hfv, <- first_of_snoc in BF.
  set (R := CcDirtySharedCacheMapList s) in *.
  assert (Nv' : NoDup ((done ++ [x]) ++ rem) /\
                ~ In CcLazyWriterCursor ((done ++ [x]) ++ rem)).
  { rewrite <- app_assoc. simpl. auto. }
  destruct Nv' as [Nv' Cv'].
  assert (FR : Ring.Flink R x = hd CcLazyWriterCursor (rem ++ d1))
    by (apply (Flink_seen_from x _ R d2 (rem ++ d1) N Hc Hrot)).
  destruct (cursor_before _ x R d2 (rem ++ d1) N Hc Hrot) as (Bb & Wb & _).
  destruct (cursor_behind _ x R d2 (rem ++ d1) N Hc Hrot) as (Ba & Wa & _).
  assert (Stop : forall l : list addr,
            (l = d1 \/ l = d1 ++ d2) ->
            loop_goes_on (snd (fst r)) (hd CcLazyWriterCursor l) = false).
  { intros l Hl. destruct l as [|f l']; [apply stops_at_cursor|].
    apply stops_at_first. rewrite BF. simpl hd.
    destruct Hl as [Hl|Hl].
    - rewrite Hd, <- Hl. reflexivity.
    - rewrite Hd, <- Hl. reflexivity. }
  destruct B as [[BR Bn]|[[BR Bn]|[BR Bn]]].
  - exists (Ring.Flink R x). split; [exact Bn|]. split.
    + unfold walking. rewrite BR. repeat split; auto.
      exists d1, (d2 ++ [x]). split.
      * rewrite Hd, app_assoc. reflexivity.
      * rewrite Hrot, <- app_assoc. reflexivity.
    + rewrite FR. destruct rem as [|y rem']; simpl; [|reflexivity].
      apply Stop. auto.
  - set (Rb := Ring.InsertTailList x CcLazyWriterCursor
                 (Ring.RemoveEntryList CcLazyWriterCursor R)) in *.
    exists (Ring.Flink Rb x). split; [exact Bn|].
    destruct Wb as [Nb Cb].
    assert (FB : Ring.Flink Rb x = hd CcLazyWriterCursor ((rem ++ d1) ++ d2))
      by (apply (Flink_seen_from x _ Rb [] ((rem ++ d1) ++ d2) Nb Cb Bb)).
    split.
    + unfold walking. rewrite BR. repeat split; auto.
      exists (d1 ++ d2), [x]. split.
      * rewrite Hd. reflexivity.
      * rewrite Bb. simpl. rewrite <- app_assoc. reflexivity.
    + rewrite FB. destruct rem as [|y rem']; simpl; [|reflexivity].
      apply Stop. auto.
  - set (Ra := Ring.InsertHeadList x CcLazyWriterCursor
                 (Ring.RemoveEntryList CcLazyWriterCursor R)) in *.
    exists (Ring.Flink R x). split; [exact Bn|].
    destruct Wa as [Na Ca]. split.
    + unfold walking. rewrite BR. repeat split; auto.
      exists ((d1 ++ d2) ++ [x]), []. split.
      * rewrite Hd, app_nil_r. reflexivity.
      * rewrite Ba. simpl. rewrite <- !app_assoc. reflexivity.
    + rewrite FR. destruct rem as [|y rem']; simpl; [|reflexivity].
      apply Stop. auto.
Qed.

Lemma walking_goes_on (done rem : list addr) (x : addr) (s : Machine)
  (lc : Scan.Locals) :
  walking done (x :: rem) s lc -> loop_goes_on lc x = true.
Proof.
  intros (Nv & Cv & _ & _ & Hfv & _). unfold loop_goes_on, is_first_visited.
  rewrite Hfv. apply andb_true_iff. split; apply negb_true_iff.
  - destruct done as [|f done']; simpl; [reflexivity|].
    apply Nat.eqb_neq. intros E. subst f. simpl in Nv.
    inversion Nv as [|? ? Hn _]; subst. apply Hn, in_elt.
  - apply Nat.eqb_neq. intros E. apply Cv. rewrite <- E. apply in_elt.
Qed.

(** With one turn for each entry to visit and one more, the loop ends,
    and what a turn preserves holds at the end. *)
Lemma scan_loop_ends (env : Env) (I : Machine -> Scan.Locals -> Prop) :
  (forall (a : addr) (s : Machine) (lc : Scan.Locals),
     I s lc ->
     I (fst (fst (loop_body env a s lc))) (snd (fst (loop_body env a s lc)))) ->
  forall (rem done : list addr) (s : Machine) (lc : Scan.Locals) (cur : addr)
         (fuel : nat),
    walking done rem s lc -> at_entry rem lc cur -> I s lc ->
    (length rem < fuel)%nat ->
    exists (s' : Machine) (lc' : Scan.Locals),
      scan_loop env fuel cur s lc = Some (s', lc') /\ I s' lc'.
Proof.
  intros Step rem. induction rem as [|x rem IH];
    intros done s lc cur fuel W E Hi Hf;
    (destruct fuel as [|fuel]; [inversion Hf|]); simpl in E.
  - simpl. rewrite E. eauto.
  - subst cur. simpl. rewrite (walking_goes_on done rem x s lc W).
    pose proof (walking_step env done rem x s lc W) as St. cbv zeta in St.
    pose proof (Step x s lc Hi) as Hi'.
    destruct (loop_body env x s lc) as [[s1 lc1] nxt]. cbn [fst snd] in *.
    destruct St as [St|(next & St & W' & E')]; subst nxt; [eauto|].
    apply (IH (done ++ [x])); auto. simpl in Hf. lia.
Qed.

(** The state in which the loop is entered. *)
Lemma start_tick_walking (s : Machine) :
  Ring.wf CcLazyWriterCursor (CcDirtySharedCacheMapList s) ->
  let rem := Ring.rot CcLazyWriterCursor (CcDirtySharedCacheMapList s) in
  walking [] rem (fst (start_tick s)) (snd (start_tick s)) /\
  at_entry rem (snd (start_tick s))
    (Ring.Flink (CcDirtySharedCacheMapList s) CcLazyWriterCursor) /\
  (length rem < S (length (CcDirtySharedCacheMapList s)))%nat.
Proof.
  intros [N Hc] rem.
  destruct (rot_NoDup _ _ N Hc) as [Nr Cr]. fold rem in Nr, Cr.
  split; [|split].
  - unfold walking. simpl. repeat split; auto.
    exists [], []. split; [reflexivity|]. fold rem. rewrite app_nil_r. reflexivity.
  - unfold Ring.Flink. fold rem. destruct rem; simpl; [|reflexivity].
    apply stops_at_cursor.
  - pose proof (Permutation_length (rot_perm _ _ Hc)) as L. fold rem in L.
    simpl in L. lia.
Qed.

(** ** What the scan posts *)

Lemma queue_write_behind_queues (a : addr) (s : Machine) (lc : Scan.Locals) :
  let r := queue_write_behind a s lc in
  Scan.PostTickWorkQueue (snd (fst r)) = Scan.PostTickWorkQueue lc /\
  (CcRegularWorkQueue (fst (fst r)) = CcRegularWorkQueue s \/
   CcRegularWorkQueue (fst (fst r))
   = CcRegularWorkQueue s ++ [mkEntry WriteBehind (ParametersWrite a)]) /\
  latest_write false (Log (fst (fst r))) = latest_write false (Log s).
Proof.
  unfold queue_write_behind.
  pose proof (window_undisturbed (pin a s)) as Hw.
  destruct (allocate_undisturbed (window (pin a s))) as (Ha & _ & _).
  pose proof (undisturbed_trans _ _ _ Hw Ha) as Hu.
  destruct Hu as (_ & _ & UR & _ & _ & _ & _ & _ & UL & _).
  destruct (CcAllocateWorkQueueEntry (window (pin a s))) as [ok s3].
  cbn [fst snd] in *. simpl in UR, UL. destruct ok; cbn [fst snd].
  - set (e := mkEntry WriteBehind (ParametersWrite a)).
    destruct (FlagOn (Flags (Scm (unbias a s3) a)) WAITING_FOR_TEARDOWN).
    + destruct (CcPostWorkQueue_queues e Express (unbias a s3)) as [Q _].
      destruct (CcPostWorkQueue_frame e Express (unbias a s3))
        as (_ & _ & _ & _ & _ & L).
      rewrite Q, L. simpl. rewrite UR, UL. auto.
    + destruct (CcPostWorkQueue_queues e Regular (unbias a s3)) as [Q _].
      destruct (CcPostWorkQueue_frame e Regular (unbias a s3))
        as (_ & _ & _ & _ & _ & L).
      rewrite Q, L. simpl. rewrite UR, UL. auto.
  - simpl. rewrite UR, UL. auto.
Qed.

(** One turn of the loop leaves the post tick work items it pulled as they
    are, posts at most one write behind to the regular queue, and makes no
    call of [CcWriteBehind]. *)
Lemma loop_body_queues (env : Env) (a : addr) (s : Machine) (lc : Scan.Locals) :
  let r := loop_body env a s lc in
  Scan.PostTickWorkQueue (snd (fst r)) = Scan.PostTickWorkQueue lc /\
  (CcRegularWorkQueue (fst (fst r)) = CcRegularWorkQueue s \/
   CcRegularWorkQueue (fst (fst r))
   = CcRegularWorkQueue s ++ [mkEntry WriteBehind (ParametersWrite a)]) /\
  latest_write false (Log (fst (fst r))) = latest_write false (Log s).
Proof.
  unfold loop_body.
  set (lc1 := match Scan.FirstVisited lc with
              | None => Scan.set_FirstVisited (Some a) lc
              | Some _ => lc
              end).
  assert (H1 : Scan.PostTickWorkQueue lc1 = Scan.PostTickWorkQueue lc)
    by (unfold lc1; destruct (Scan.FirstVisited lc); reflexivity).
  destruct (flush_test env (CcCapturedSystemSize s) (Scan.PagesToWrite lc1)
              (Scm s a)) as [f m].
  destruct f.
  - unfold flush_branch.
    set (s1 := store a _ (store a m s)).
    pose proof (adjust_targets_ring a s1 lc1) as A. cbv zeta in A.
    destruct (adjust_targets_Scm a s1 lc1) as (_ & AR & _).
    assert (AL : Log (fst (adjust_targets a s1 lc1)) = Log s).
    { unfold adjust_targets. destruct (negb _); [|reflexivity].
      destruct (_ >=? _); [|reflexivity]. destruct (_ || _); reflexivity. }
    destruct (adjust_targets a s1 lc1) as [s2 lc2]. cbn [fst snd] in *.
    destruct A as (_ & AP & _).
    pose proof (queue_write_behind_queues a s2 lc2) as Q. cbv zeta in Q.
    destruct (queue_write_behind a s2 lc2) as [[s3 lc3] turn].
    cbn [fst snd] in Q. destruct Q as (QP & QR & QL).
    rewrite AP, H1 in QP. rewrite AR in QR. rewrite AL in QL.
    change (CcRegularWorkQueue s1) with (CcRegularWorkQueue s) in QR.
    destruct turn; cbn [fst snd]; [auto|].
    unfold loop_foot. destruct (Scan.MoveBehindCursor lc3); cbn [fst snd]; auto.
  - pose proof (drop_lock_occasionally_frame a (store a m s) lc1) as D.
    cbv zeta in D.
    destruct (drop_lock_occasionally a (store a m s) lc1) as [s2 lc2].
    cbn [fst snd] in *. destruct D as (_ & DR & DL & _ & _ & DP).
    unfold loop_foot. destruct (Scan.MoveBehindCursor lc2); cbn [fst snd];
      simpl; rewrite DR, DL, DP, H1; auto.
Qed.

Lemma pull_app (src dst : list WORK_QUEUE_ENTRY) : pull src dst = dst ++ src.
Proof.
  revert dst. induction src as [|e src IH]; intros dst; simpl.
  - symmetry. apply app_nil_r.
  - rewrite IH. unfold Queue.InsertTailList. rewrite <- app_assoc. reflexivity.
Qed.

Lemma post_tick_queues (q : list WORK_QUEUE_ENTRY) (s : Machine) :
  CcRegularWorkQueue (post_tick q s) = CcRegularWorkQueue s ++ q /\
  CcPostTickWorkQueue (post_tick q s) = CcPostTickWorkQueue s /\
  CcDeferredWrites (post_tick q s) = CcDeferredWrites s /\
  latest_write false (Log (post_tick q s)) = latest_write false (Log s).
Proof.
  revert s. induction q as [|e q IH]; intros s; simpl.
  - rewrite app_nil_r. auto.
  - destruct (IH (CcPostWorkQueue e Regular s)) as (R & P & D & L).
    destruct (CcPostWorkQueue_frame e Regular s) as (_ & _ & FP & FD & _ & FL).
    rewrite R, P, D, L, CcPostWorkQueue_Regular, FP, FD, FL, <- app_assoc. auto.
Qed.

Lemma schedule_queues (fast : bool) (s : Machine) :
  CcRegularWorkQueue (CcScheduleLazyWriteScan fast s) = CcRegularWorkQueue s /\
  CcPostTickWorkQueue (CcScheduleLazyWriteScan fast s) = CcPostTickWorkQueue s /\
  Log (CcScheduleLazyWriteScan fast s) = Log s.
Proof.
  unfold CcScheduleLazyWriteScan, CcScheduleLazyWriteScan_code.
  destruct fast; [simpl; auto|].
  destruct (ScanActive (LazyWriter s)); simpl; auto.
Qed.

Lemma CcLazyWriteScan_work (env : Env) (s : Machine) :
  nothing_to_do s = false ->
  CcLazyWriteScan env s
  = match scan_loop env (S (length (CcDirtySharedCacheMapList s)))
            (Ring.Flink (CcDirtySharedCacheMapList s) CcLazyWriterCursor)
            (fst (start_tick s)) (snd (start_tick s)) with
    | Some (s2, lc) => Some (end_tick s2 lc)
    | None => None
    end.
Proof. intros H. unfold CcLazyWriteScan. rewrite H. reflexivity. Qed.

(** ** What comes in while the scan does not hold the lock *)

Lemma admitted_cons (ev : nat) (evs : list nat) (pool : list bool) :
  admitted (ev :: evs) pool = admitted [ev] pool ++ admitted evs (tl pool).
Proof. destruct pool as [|[|] pool]; reflexivity. Qed.

Lemma wait_arrivals (ev : nat) (s : Machine) :
  CcPostTickWorkQueue (snd (CcWaitForCurrentLazyWriterActivity ev s))
  = CcPostTickWorkQueue s ++ admitted [ev] (Pool s).
Proof.
  unfold CcWaitForCurrentLazyWriterActivity, CcAllocateWorkQueueEntry.
  destruct (Pool s) as [|[|] rest]; simpl;
    try destruct (ScanActive (LazyWriter s)); simpl;
    rewrite ?app_nil_r; reflexivity.
Qed.

Lemma visitors_arrivals (evs : list nat) (s : Machine) :
  CcPostTickWorkQueue
    (fold_left (fun s ev => snd (CcWaitForCurrentLazyWriterActivity ev s)) evs s)
  = CcPostTickWorkQueue s ++ admitted evs (Pool s).
Proof.
  revert s. induction evs as [|ev evs IH]; intros s.
  - simpl. rewrite app_nil_r. reflexivity.
  - cbn [fold_left]. rewrite IH, wait_arrivals, wait_Pool, <- app_assoc.
    rewrite <- admitted_cons. reflexivity.
Qed.

(** A window adds to [CcPostTickWorkQueue] the entries of the callers it
    lets in, behind what is there. *)
Lemma window_arrivals (s : Machine) :
  CcPostTickWorkQueue (window s)
  = CcPostTickWorkQueue s ++ admitted (hd [] (Visitors s)) (Pool s).
Proof.
  unfold window. destruct (Visitors s) as [|evs rest]; simpl hd.
  - simpl. rewrite app_nil_r. reflexivity.
  - rewrite visitors_arrivals. reflexivity.
Qed.

Lemma queue_write_behind_arrivals (a : addr) (s : Machine) (lc : Scan.Locals) :
  CcPostTickWorkQueue (fst (fst (queue_write_behind a s lc)))
  = CcPostTickWorkQueue s ++ admitted (hd [] (Visitors s)) (Pool s).
Proof.
  unfold queue_write_behind.
  pose proof (window_arrivals (pin a s)) as Hw.
  destruct (allocate_undisturbed (window (pin a s))) as (_ & Ha & _).
  destruct (CcAllocateWorkQueueEntry (window (pin a s))) as [ok s3].
  cbn [fst snd] in *. rewrite Hw in Ha. destruct ok; cbn [fst snd].
  - set (e := mkEntry WriteBehind (ParametersWrite a)).
    destruct (FlagOn (Flags (Scm (unbias a s3) a)) WAITING_FOR_TEARDOWN).
    + destruct (CcPostWorkQueue_frame e Express (unbias a s3)) as (_ & _ & F & _).
      rewrite F. exact Ha.
    + destruct (CcPostWorkQueue_frame e Regular (unbias a s3)) as (_ & _ & F & _).
      rewrite F. exact Ha.
  - exact Ha.
Qed.

(** A turn of the loop leaves what is in [CcPostTickWorkQueue] where it
    is, with the entries that come in during the turn behind it. *)
Lemma loop_body_arrivals (env : Env) (a : addr) (s : Machine) (lc : Scan.Locals) :
  CcPostTickWorkQueue (fst (fst (loop_body env a s lc)))
  = CcPostTickWorkQueue s ++ arrivals env a s lc.
Proof.
  unfold arrivals, has_window, loop_body.
  set (lc1 := match Scan.FirstVisited lc with
              | None => Scan.set_FirstVisited (Some a) lc
              | Some _ => lc
              end).
  assert (H1 : Scan.PagesToWrite lc1 = Scan.PagesToWrite lc)
    by (unfold lc1; destruct (Scan.FirstVisited lc); reflexivity).
  assert (H2 : Scan.LoopsWithLockHeld lc1 = Scan.LoopsWithLockHeld lc)
    by (unfold lc1; destruct (Scan.FirstVisited lc); reflexivity).
  rewrite H1.
  destruct (flush_test_fields env (CcCapturedSystemSize s) (Scan.PagesToWrite lc)
              (Scm s a)) as [Ff _].
  destruct (flush_test env (CcCapturedSystemSize s) (Scan.PagesToWrite lc)
              (Scm s a)) as [f m].
  cbn [fst snd] in Ff |- *. destruct f; cbn [orb].
  - unfold flush_branch.
    set (s1 := store a _ (store a m s)).
    destruct (adjust_targets_ring a s1 lc1) as (_ & _ & AP & AV & _).
    assert (AQ : CcPostTickWorkQueue (fst (adjust_targets a s1 lc1))
                 = CcPostTickWorkQueue s).
    { unfold adjust_targets. destruct (negb _); [|reflexivity].
      destruct (_ >=? _); [|reflexivity]. destruct (_ || _); reflexivity. }
    destruct (adjust_targets a s1 lc1) as [s2 lc2]. cbn [fst snd] in *.
    pose proof (queue_write_behind_arrivals a s2 lc2) as Q.
    rewrite AQ, AP, AV in Q.
    change (Pool s1) with (Pool s) in Q.
    change (Visitors s1) with (Visitors s) in Q.
    destruct (queue_write_behind a s2 lc2) as [[s3 lc3] turn].
    cbn [fst snd] in Q. destruct turn; cbn [fst snd]; [exact Q|].
    unfold loop_foot. destruct (Scan.MoveBehindCursor lc3); cbn [fst snd];
      exact Q.
  - assert (D : CcPostTickWorkQueue
                  (fst (drop_lock_occasionally a (store a m s) lc1))
                = CcPostTickWorkQueue s
                  ++ (if (uadd (Scan.LoopsWithLockHeld lc) 1 >=? 20)
                         && negb (FlagOn (Flags (Scm s a))
                                    (Z.lor WRITE_QUEUED IS_CURSOR))
                      then admitted (hd [] (Visitors s)) (Pool s) else [])).
    { unfold drop_lock_occasionally. cbv zeta.
      cbn [Scan.LoopsWithLockHeld Scan.set_LoopsWithLockHeld].
      rewrite store_same, Ff, H2.
      destruct (_ && _); cbn [fst snd].
      - unfold unpin.
        change (CcPostTickWorkQueue (store a ?x ?y))
          with (CcPostTickWorkQueue y).
        rewrite window_arrivals. reflexivity.
      - simpl. rewrite app_nil_r. reflexivity. }
    destruct (drop_lock_occasionally a (store a m s) lc1) as [s2 lc2].
    cbn [fst snd] in D |- *.
    unfold loop_foot. destruct (Scan.MoveBehindCursor lc2); cbn [fst snd];
      exact D.
Qed.

(** The loop leaves what is in [CcPostTickWorkQueue] where it is, with
    the entries that have come in during its turns behind it. *)
Lemma scan_loop_arrivals (env : Env) :
  forall (fuel : nat) (cur : addr) (s : Machine) (lc : Scan.Locals)
         (s' : Machine) (lc' : Scan.Locals),
    scan_loop env fuel cur s lc = Some (s', lc') ->
    CcPostTickWorkQueue s'
    = CcPostTickWorkQueue s ++ scan_arrivals env fuel cur s lc.
Proof.
  intros fuel. induction fuel as [|fuel IH];
    intros cur s lc s' lc' H; simpl in H; [discriminate|].
  cbn [scan_arrivals].
  destruct (loop_goes_on lc cur).
  2:{ inversion H; subst. rewrite app_nil_r. reflexivity. }
  pose proof (loop_body_arrivals env cur s lc) as B.
  destruct (loop_body env cur s lc) as [[s1 lc1] [next|]]; cbn [fst snd] in B.
  - rewrite (IH _ _ _ _ _ H), B, <- app_assoc. reflexivity.
  - inversion H; subst. rewrite B, app_nil_r. reflexivity.
Qed.

(** C6.  In a tick with work to do on a well formed dirty list, the work
    items that are in [CcPostTickWorkQueue] when the tick starts are pulled
    into the local list first, which empties the queue; the loop ends,
    whatever the allocations do, having posted nothing but write behinds
    to the regular queue; the pulled items are then posted to the tail of
    the regular queue in their order, before the deferred writes are poked
    and the next scan is scheduled.  The entries that other threads queue
    on [CcPostTickWorkQueue] after the pull, while the loop does not hold
    the lock, are not posted: when the tick ends the queue holds exactly
    these entries, in the order they came in. *)
Theorem post_tick_items_posted (env : Env) (s : Machine) :
  Ring.wf CcLazyWriterCursor (CcDirtySharedCacheMapList s) ->
  nothing_to_do s = false ->
  Scan.PostTickWorkQueue (snd (start_tick s)) = CcPostTickWorkQueue s /\
  CcPostTickWorkQueue (fst (start_tick s)) = [] /\
  exists (s2 : Machine) (lc2 : Scan.Locals) (written : list WORK_QUEUE_ENTRY),
    scan_loop env (S (length (CcDirtySharedCacheMapList s)))
      (Ring.Flink (CcDirtySharedCacheMapList s) CcLazyWriterCursor)
      (fst (start_tick s)) (snd (start_tick s)) = Some (s2, lc2) /\
    CcLazyWriteScan env s = Some (end_tick s2 lc2) /\
    Forall (fun e => Function e = WriteBehind) written /\
    CcRegularWorkQueue s2 = CcRegularWorkQueue s ++ written /\
    end_tick s2 lc2
    = CcScheduleLazyWriteScan false
        (let s3 := post_tick (CcPostTickWorkQueue s) s2 in
         if negb (Queue.IsListEmpty (CcDeferredWrites s3))
         then log EvCcPostDeferredWrites s3 else s3) /\
    CcRegularWorkQueue (post_tick (CcPostTickWorkQueue s) s2)
    = CcRegularWorkQueue s ++ written ++ CcPostTickWorkQueue s /\
    CcRegularWorkQueue (end_tick s2 lc2)
    = CcRegularWorkQueue s ++ written ++ CcPostTickWorkQueue s /\
    CcPostTickWorkQueue (end_tick s2 lc2) = CcPostTickWorkQueue s2 /\
    CcPostTickWorkQueue s2
    = scan_arrivals env (S (length (CcDirtySharedCacheMapList s)))
        (Ring.Flink (CcDirtySharedCacheMapList s) CcLazyWriterCursor)
        (fst (start_tick s)) (snd (start_tick s)).
Proof.
  intros W Hn.
  assert (P0 : Scan.PostTickWorkQueue (snd (start_tick s)) = CcPostTickWorkQueue s)
    by (simpl; apply pull_app).
  split; [exact P0|]. split; [reflexivity|].
  destruct (start_tick_walking s W) as (Hw & He & Hl).
  set (I := fun (s' : Machine) (lc' : Scan.Locals) =>
              Scan.PostTickWorkQueue lc' = CcPostTickWorkQueue s /\
              exists written : list WORK_QUEUE_ENTRY,
                Forall (fun e => Function e = WriteBehind) written /\
                CcRegularWorkQueue s' = CcRegularWorkQueue s ++ written).
  assert (Step : forall a s' lc', I s' lc' ->
            I (fst (fst (loop_body env a s' lc')))
              (snd (fst (loop_body env a s' lc')))).
  { intros a s' lc' [HP (w & Fw & HR)].
    destruct (loop_body_queues env a s' lc') as (BP & BR & _).
    split; [congruence|].
    destruct BR as [BR|BR].
    - exists w. split; [exact Fw|]. congruence.
    - exists (w ++ [mkEntry WriteBehind (ParametersWrite a)]). split.
      + apply Forall_app. split; [exact Fw|]. repeat constructor.
      + rewrite BR, HR, <- app_assoc. reflexivity. }
  assert (I0 : I (fst (start_tick s)) (snd (start_tick s))).
  { split; [exact P0|]. exists []. split; [constructor|].
    simpl. rewrite app_nil_r. reflexivity. }
  destruct (scan_loop_ends env I Step _ [] _ _ _ _ Hw He I0 Hl)
    as (s2 & lc2 & Hloop & HP & written & Fw & HR).
  exists s2, lc2, written.
  pose proof (scan_loop_arrivals env _ _ _ _ _ _ Hloop) as HA.
  change (CcPostTickWorkQueue (fst (start_tick s)))
    with (@nil WORK_QUEUE_ENTRY) in HA.
  rewrite app_nil_l in HA.
  destruct (post_tick_queues (CcPostTickWorkQueue s) s2) as (TR & TP & _).
  assert (E : end_tick s2 lc2
              = CcScheduleLazyWriteScan false
                  (let s3 := post_tick (CcPostTickWorkQueue s) s2 in
                   if negb (Queue.IsListEmpty (CcDeferredWrites s3))
                   then log EvCcPostDeferredWrites s3 else s3))
    by (unfold end_tick; rewrite HP; reflexivity).
  split; [exact Hloop|]. split.
  - rewrite (CcLazyWriteScan_work env s Hn), Hloop. reflexivity.
  - split; [exact Fw|]. split; [exact HR|]. split; [exact E|].
    split; [rewrite TR, HR, <- app_assoc; reflexivity|].
    assert (Q : CcRegularWorkQueue (end_tick s2 lc2)
                = CcRegularWorkQueue s ++ written ++ CcPostTickWorkQueue s /\
                CcPostTickWorkQueue (end_tick s2 lc2) = CcPostTickWorkQueue s2).
    { rewrite E. cbv zeta.
      destruct (schedule_queues false
                  (if negb (Queue.IsListEmpty
                              (CcDeferredWrites
                                 (post_tick (CcPostTickWorkQueue s) s2)))
                   then log EvCcPostDeferredWrites
                          (post_tick (CcPostTickWorkQueue s) s2)
                   else post_tick (CcPostTickWorkQueue s) s2)) as (SR & SP & _).
      rewrite SR, SP.
      destruct (negb _); simpl; rewrite TR, TP, HR, <- app_assoc; auto. }
    destruct Q as [Q1 Q2]. split; [exact Q1|]. split; [exact Q2|exact HA].
Qed.

(** ** The rescan at the end of a worker *)

Lemma scan_loop_invariant (env : Env) (I : Machine -> Scan.Locals -> Prop) :
  (forall (a : addr) (s : Machine) (lc : Scan.Locals),
     I s lc ->
     I (fst (fst (loop_body env a s lc))) (snd (fst (loop_body env a s lc)))) ->
  forall (fuel : nat) (cur : addr) (s : Machine) (lc : Scan.Locals)
         (s' : Machine) (lc' : Scan.Locals),
    I s lc -> scan_loop env fuel cur s lc = Some (s', lc') -> I s' lc'.
Proof.
  intros Step fuel. induction fuel as [|fuel IH];
    intros cur s lc s' lc' Hi H; simpl in H; [discriminate|].
  destruct (loop_goes_on lc cur); [|inversion H; subst; exact Hi].
  pose proof (Step cur s lc Hi) as Hi'.
  destruct (loop_body env cur s lc) as [[s1 lc1] [next|]]; cbn [fst snd] in Hi'.
  - eapply IH; eauto.
  - inversion H; subst. exact Hi'.
Qed.

(** The scan makes no call of [CcWriteBehind]. *)
Lemma scan_latest_write (env : Env) (s s' : Machine) :
  CcLazyWriteScan env s = Some s' ->
  latest_write false (Log s') = latest_write false (Log s).
Proof.
  intros H. destruct (nothing_to_do s) eqn:Hn.
  - unfold CcLazyWriteScan in H. rewrite Hn in H. inversion H; subst.
    unfold go_inactive. destruct (Queue.IsListEmpty (CcDeferredWrites s));
      [reflexivity|].
    destruct (schedule_queues false (log EvCcPostDeferredWrites s)) as (_ & _ & L).
    rewrite L. reflexivity.
  - rewrite (CcLazyWriteScan_work env s Hn) in H.
    destruct (scan_loop env _ _ _ _) as [[s2 lc2]|] eqn:Hl; [|discriminate].
    inversion H; subst.
    assert (L2 : latest_write false (Log s2) = latest_write false (Log s)).
    { apply (scan_loop_invariant env
               (fun s' _ => latest_write false (Log s') = latest_write false (Log s)))
        in Hl; [exact Hl| |reflexivity].
      intros a s1 lc1 Hi. destruct (loop_body_queues env a s1 lc1) as (_ & _ & L).
      congruence. }
    unfold end_tick.
    destruct (post_tick_queues (Scan.PostTickWorkQueue lc2) s2) as (_ & _ & _ & TL).
    match goal with
    | |- latest_write false (Log (CcScheduleLazyWriteScan false ?x)) = _ =>
        destruct (schedule_queues false x) as (_ & _ & SL); rewrite SL
    end.
    destruct (negb _); simpl; congruence.
Qed.

Lemma take_entry_frame (s : Machine) (lc : Worker.Locals) :
  Log (fst (fst (take_entry s lc))) = Log s /\
  Worker.RescanOk (snd (fst (take_entry s lc))) = Worker.RescanOk lc.
Proof.
  unfold take_entry.
  assert (R : Log (fst (resume s lc)) = Log s /\
              Worker.RescanOk (snd (resume s lc)) = Worker.RescanOk lc).
  { unfold resume. destruct (Worker.DropThrottle lc);
      destruct (Worker.Information lc =? CC_REQUEUE); simpl; auto;
      destruct (Worker.WorkQueue lc) as [[|]|]; destruct (Worker.WorkQueueEntry lc);
      auto. }
  destruct (resume s lc) as [s1 lc1]. cbn [fst snd] in R. destruct R as [RL RR].
  destruct (head_entry s1) as [[q e]|]; [|auto].
  destruct (_ && _); simpl; [auto|].
  destruct q; simpl; auto.
Qed.

(** [RescanOk] is the outcome of the latest call of [CcWriteBehind] that
    returned. *)
Lemma worker_loop_RescanOk (env : Env) (fuel : nat) :
  forall (s : Machine) (lc : Worker.Locals) (s' : Machine) (lc' : Worker.Locals),
    worker_loop env fuel s lc = Some (s', lc') ->
    Worker.RescanOk lc = latest_write false (Log s) ->
    Worker.RescanOk lc' = latest_write false (Log s').
Proof.
  induction fuel as [|fuel IH]; intros s lc s' lc' H Hi; simpl in H;
    [discriminate|].
  destruct (take_entry_frame s lc) as [TL TR].
  destruct (take_entry s lc) as [[s1 lc1] [e|]]; cbn [fst snd] in *.
  - destruct (process_entry env e s1 lc1) as [[s2 lc2]|] eqn:P; [|discriminate].
    apply IH in H; [exact H|].
    assert (K : Worker.RescanOk lc2 = latest_write false (Log s2)).
    { unfold process_entry in P. destruct (Function e).
      - inversion P; subst. simpl. congruence.
      - unfold CcWriteBehind in P.
        destruct (WriteBehindResults s1) as [|[st inf|] rest];
          inversion P; subst; simpl; try reflexivity; congruence.
      - inversion P; subst. simpl. congruence.
      - destruct (CcLazyWriteScan env s1) as [s3|] eqn:Sc; [|discriminate].
        inversion P; subst. rewrite (scan_latest_write env s1 s2 Sc). congruence. }
    unfold free_entry. destruct (negb _); simpl; exact K.
  - inversion H; subst. congruence.
Qed.

Lemma latest_write_some (l : list Event) :
  latest_write false l = true -> some_write_succeeded l = true.
Proof.
  induction l as [|e l IH]; simpl; [discriminate|].
  destruct e as [| | |a [st inf|]| |]; auto.
  intros H. rewrite H. reflexivity.
Qed.

(** C9, as the code has it.  A worker whose loop has come to its end runs
    the scan in its own thread exactly when there are deferred writes,
    [CcTotalDirtyPages] is at least 20 and the latest call of
    [CcWriteBehind] that returned in its run returned a success; some
    write behind of the run has then succeeded. *)
Theorem rescan_after_latest_write (env : Env) (fuel : nat) (w : nat)
  (s s' : Machine) (lc' : Worker.Locals) :
  Log s = [] ->
  worker_loop env fuel s Worker.initial = Some (s', lc') ->
  rescans (go_idle w s') lc'
  = negb (Queue.IsListEmpty (CcDeferredWrites s'))
    && (CcTotalDirtyPages s' >=? 20)
    && latest_write false (Log s') /\
  CcWorkerThread env fuel w s
  = (if rescans (go_idle w s') lc'
     then CcLazyWriteScan env (go_idle w s')
     else Some (go_idle w s')) /\
  (rescans (go_idle w s') lc' = true -> some_write_succeeded (Log s') = true).
Proof.
  intros HL H.
  assert (R : Worker.RescanOk lc' = latest_write false (Log s')).
  { apply (worker_loop_RescanOk env fuel s Worker.initial s' lc' H).
    rewrite HL. reflexivity. }
  assert (E : rescans (go_idle w s') lc'
              = negb (Queue.IsListEmpty (CcDeferredWrites s'))
                && (CcTotalDirtyPages s' >=? 20)
                && latest_write false (Log s')).
  { unfold rescans. rewrite R. reflexivity. }
  split; [exact E|]. split.
  - unfold CcWorkerThread. rewrite H. reflexivity.
  - rewrite E. intros K. apply andb_true_iff in K. destruct K as [_ K].
    apply latest_write_some. exact K.
Qed.

(** ** What a turn of the loop does with a stream *)

Lemma flush_test_iff (env : Env) (size : MM_SYSTEMSIZE) (P : Z)
  (m : SHARED_CACHE_MAP) :
  fst (flush_test env size P m) = true <-> eligible env size P m.
Proof.
  unfold flush_test, eligible.
  destruct (FlagOn (Flags m) (Z.lor WRITE_QUEUED IS_CURSOR)) eqn:Hq.
  - simpl. split; [discriminate|]. intros (Hw & Hc & _).
    assert (F : FlagOn (Flags m) (Z.lor WRITE_QUEUED IS_CURSOR) = false)
      by (apply FlagOn_either; auto).
    congruence.
  - apply FlagOn_either in Hq. destruct Hq as [Hw Hc].
    destruct (Z.eqb_spec (DirtyPages m) 0) as [Hd|Hd]; simpl.
    + rewrite close_or_empty_iff. intuition congruence.
    + destruct (FlagOn (Flags m) WAITING_FOR_TEARDOWN) eqn:Ht; simpl.
      * intuition congruence.
      * destruct (Z.eqb_spec P 0) as [Hp|Hp]; simpl.
        { rewrite close_or_empty_iff. intuition congruence. }
        set (m1 := set_LazyWritePassCount (uadd (LazyWritePassCount m) 1) m).
        destruct (pass_gate env size m1 && temporary_gate env m1) eqn:Hg; simpl.
        { apply andb_true_iff in Hg. destruct Hg as [Hg1 Hg2].
          apply pass_gate_iff in Hg1. apply temporary_gate_iff in Hg2.
          simpl in Hg1, Hg2. intuition congruence. }
        { rewrite close_or_empty_iff. simpl.
          assert (Hn : ~ (pass_gate env size m1 = true /\
                          temporary_gate env m1 = true)).
          { intros [A B]. rewrite A, B in Hg. discriminate. }
          rewrite pass_gate_iff, temporary_gate_iff in Hn. simpl in Hn.
          intuition congruence. }
Qed.

Lemma drop_lock_occasionally_Express (a : addr) (s : Machine) (lc : Scan.Locals) :
  CcExpressWorkQueue (fst (drop_lock_occasionally a s lc)) = CcExpressWorkQueue s.
Proof.
  unfold drop_lock_occasionally. cbv zeta.
  destruct (_ && _); [|reflexivity].
  cbn [fst snd]. pose proof (window_undisturbed (pin a s)) as Hw.
  destruct Hw as (_ & _ & _ & U & _).
  unfold unpin. simpl. rewrite U. reflexivity.
Qed.

Lemma app_one_neq {A : Type} (l : list A) (x : A) : l ++ [x] <> l.
Proof.
  intros H. apply (f_equal (@length A)) in H.
  rewrite length_app in H. simpl in H. lia.
Qed.

(** The branch that queues a write behind, by the outcome of its
    allocation: with an entry, the entry is at the tail of the express
    queue for a stream that waits for teardown and of the regular queue
    otherwise, and the other queue is as it was; without one, the loop is
    left with both queues as they were. *)
Lemma queue_write_behind_split (a : addr) (s : Machine) (lc : Scan.Locals) :
  let r := queue_write_behind a s lc in
  let e := mkEntry WriteBehind (ParametersWrite a) in
  (next_allocation s = true ->
   snd r = Foot /\
   (FlagOn (Flags (Scm s a)) WAITING_FOR_TEARDOWN = false /\
    CcRegularWorkQueue (fst (fst r)) = CcRegularWorkQueue s ++ [e] /\
    CcExpressWorkQueue (fst (fst r)) = CcExpressWorkQueue s \/
    FlagOn (Flags (Scm s a)) WAITING_FOR_TEARDOWN = true /\
    CcExpressWorkQueue (fst (fst r)) = CcExpressWorkQueue s ++ [e] /\
    CcRegularWorkQueue (fst (fst r)) = CcRegularWorkQueue s)) /\
  (next_allocation s = false ->
   snd r = Break /\
   CcRegularWorkQueue (fst (fst r)) = CcRegularWorkQueue s /\
   CcExpressWorkQueue (fst (fst r)) = CcExpressWorkQueue s).
Proof.
  intros r e.
  assert (Hn : next_allocation (pin a s) = next_allocation s)
    by (apply next_allocation_ext; reflexivity).
  rewrite <- Hn. unfold r, queue_write_behind, next_allocation.
  assert (Hp : Flags (Scm (pin a s) a) = SetFlag (Flags (Scm s a)) WRITE_QUEUED)
    by (unfold pin; rewrite store_same; reflexivity).
  pose proof (window_undisturbed (pin a s)) as Hw.
  destruct (allocate_undisturbed (window (pin a s))) as (Ha & _ & _).
  pose proof (undisturbed_trans _ _ _ Hw Ha) as Hu.
  destruct Hu as (US & _ & UR & UE & _).
  destruct (CcAllocateWorkQueueEntry (window (pin a s))) as [ok s3].
  cbn [fst snd] in *. simpl in UR, UE.
  split; intros Hok; subst ok; cbn [fst snd].
  - split; [reflexivity|].
    assert (Ht : FlagOn (Flags (Scm (unbias a s3) a)) WAITING_FOR_TEARDOWN
                 = FlagOn (Flags (Scm s a)) WAITING_FOR_TEARDOWN).
    { unfold unbias. rewrite store_same. unfold set_DirtyPages. cbn [Flags].
      rewrite US, Hp. apply FlagOn_SetFlag_other. reflexivity. }
    rewrite Ht. subst e. set (e := mkEntry WriteBehind (ParametersWrite a)).
    destruct (FlagOn (Flags (Scm s a)) WAITING_FOR_TEARDOWN); cbv iota.
    + right. destruct (CcPostWorkQueue_queues e Express (unbias a s3)) as [R1 R2].
      rewrite R1, R2. simpl. rewrite UR, UE. auto.
    + left. destruct (CcPostWorkQueue_queues e Regular (unbias a s3)) as [R1 R2].
      rewrite R1, R2. simpl. rewrite UR, UE. auto.
  - simpl. rewrite UR, UE. auto.
Qed.

(** A turn of the loop on a stream, by the outcome of the test and of the
    allocation. *)
Lemma loop_body_dispatch (env : Env) (a : addr) (s : Machine) (lc : Scan.Locals) :
  let r := loop_body env a s lc in
  let e := mkEntry WriteBehind (ParametersWrite a) in
  let t := fst (flush_test env (CcCapturedSystemSize s) (Scan.PagesToWrite lc)
                  (Scm s a)) in
  (t = true -> next_allocation s = true ->
   snd r <> None /\
   (FlagOn (Flags (Scm s a)) WAITING_FOR_TEARDOWN = false /\
    CcRegularWorkQueue (fst (fst r)) = CcRegularWorkQueue s ++ [e] /\
    CcExpressWorkQueue (fst (fst r)) = CcExpressWorkQueue s \/
    FlagOn (Flags (Scm s a)) WAITING_FOR_TEARDOWN = true /\
    CcExpressWorkQueue (fst (fst r)) = CcExpressWorkQueue s ++ [e] /\
    CcRegularWorkQueue (fst (fst r)) = CcRegularWorkQueue s)) /\
  (t = true -> next_allocation s = false ->
   snd r = None /\
   CcRegularWorkQueue (fst (fst r)) = CcRegularWorkQueue s /\
   CcExpressWorkQueue (fst (fst r)) = CcExpressWorkQueue s) /\
  (t = false ->
   snd r <> None /\
   CcRegularWorkQueue (fst (fst r)) = CcRegularWorkQueue s /\
   CcExpressWorkQueue (fst (fst r)) = CcExpressWorkQueue s).
Proof.
  intros r e t.
  assert (Flush : t = true ->
            (next_allocation s = true ->
             snd r <> None /\
             (FlagOn (Flags (Scm s a)) WAITING_FOR_TEARDOWN = false /\
              CcRegularWorkQueue (fst (fst r)) = CcRegularWorkQueue s ++ [e] /\
              CcExpressWorkQueue (fst (fst r)) = CcExpressWorkQueue s \/
              FlagOn (Flags (Scm s a)) WAITING_FOR_TEARDOWN = true /\
              CcExpressWorkQueue (fst (fst r)) = CcExpressWorkQueue s ++ [e] /\
              CcRegularWorkQueue (fst (fst r)) = CcRegularWorkQueue s)) /\
            (next_allocation s = false ->
             snd r = None /\
             CcRegularWorkQueue (fst (fst r)) = CcRegularWorkQueue s /\
             CcExpressWorkQueue (fst (fst r)) = CcExpressWorkQueue s)).
  { intros T. unfold r. rewrite (loop_body_flush env a s lc T). cbv zeta.
    set (lc1 := match Scan.FirstVisited lc with
                | None => Scan.set_FirstVisited (Some a) lc
                | Some _ => lc
                end).
    set (m1 := snd (flush_test env (CcCapturedSystemSize s)
                      (Scan.PagesToWrite lc) (Scm s a))).
    set (s1 := store a (set_stream_pages env (CcCapturedSystemSize s) m1)
                 (store a m1 s)).
    destruct (adjust_targets_Scm a s1 lc1) as (AS & AR & AE).
    destruct (adjust_targets_ring a s1 lc1) as (_ & _ & AP & AV & _).
    assert (Hn : next_allocation (fst (adjust_targets a s1 lc1))
                 = next_allocation s)
      by (apply next_allocation_ext; [rewrite AP|rewrite AV]; reflexivity).
    assert (Hf : Flags (Scm (fst (adjust_targets a s1 lc1)) a)
                 = Flags (Scm s a)).
    { rewrite AS. unfold s1. rewrite store_same.
      destruct (flush_test_fields env (CcCapturedSystemSize s)
                  (Scan.PagesToWrite lc) (Scm s a)) as [F _]. fold m1 in F.
      rewrite <- F. unfold set_stream_pages. cbv zeta.
      destruct (_ && _); reflexivity. }
    pose proof (queue_write_behind_split a (fst (adjust_targets a s1 lc1))
                  (snd (adjust_targets a s1 lc1))) as Q.
    cbv zeta in Q. rewrite Hn, Hf, AR, AE in Q.
    change (CcRegularWorkQueue s1) with (CcRegularWorkQueue s) in Q.
    change (CcExpressWorkQueue s1) with (CcExpressWorkQueue s) in Q.
    destruct (queue_write_behind a (fst (adjust_targets a s1 lc1))
                (snd (adjust_targets a s1 lc1))) as [[s3 lc3] turn].
    cbn [fst snd] in Q |- *. destruct Q as [Q1 Q2].
    split; intros Hok.
    - destruct (Q1 Hok) as [Tn Q]. subst turn.
      unfold loop_foot. destruct (Scan.MoveBehindCursor lc3); cbn [fst snd];
        (split; [discriminate|exact Q]).
    - destruct (Q2 Hok) as [Tn Q]. subst turn. cbn [fst snd].
      split; [reflexivity|exact Q]. }
  split; [intros T; exact (proj1 (Flush T))|].
  split; [intros T; exact (proj2 (Flush T))|].
  intros T. unfold r, loop_body.
  assert (HP : Scan.PagesToWrite
                 (match Scan.FirstVisited lc with
                  | None => Scan.set_FirstVisited (Some a) lc
                  | Some _ => lc
                  end) = Scan.PagesToWrite lc)
    by (destruct (Scan.FirstVisited lc); reflexivity).
  rewrite HP. unfold t in T.
  destruct (flush_test env (CcCapturedSystemSize s) (Scan.PagesToWrite lc)
              (Scm s a)) as [f m]. simpl in T. subst f.
  match goal with
  | |- context [drop_lock_occasionally a ?s1 ?lc1] =>
      pose proof (drop_lock_occasionally_frame a s1 lc1) as D;
      pose proof (drop_lock_occasionally_Express a s1 lc1) as DE;
      destruct (drop_lock_occasionally a s1 lc1) as [s2 lc2]
  end.
  cbv zeta in D. cbn [fst snd] in *. destruct D as (_ & DR & _).
  simpl in DR, DE.
  unfold loop_foot. destruct (Scan.MoveBehindCursor lc2); cbn [fst snd];
    simpl; rewrite DR, DE; (split; [discriminate|split; reflexivity]).
Qed.

(** C1.  A stream the scan looks at is queued for a write behind exactly
    when it passes the test of the loop, which it does exactly when it is
    neither [WRITE_QUEUED] nor a cursor and (1) it has dirty pages and is
    waiting for teardown, or there are pages left to write and the pass
    gate (on the incremented pass count) and the temporary file gate hold,
    or (2) it has no opener and no dirty page, or (3) its file size is
    zero; a stream of size zero passes whatever its open count and dirty
    pages.  Queued is: when a work queue entry can be had, the write
    behind entry of the stream is at the tail of a work queue (the express
    queue for a stream that waits for teardown, the regular queue
    otherwise) and the loop goes on to the next stream.  When no entry can
    be had, a stream that passes the test has nothing queued for it: the
    loop is left with both queues as they were.  A stream that does not
    pass leaves both queues as they were and the loop goes on. *)
Theorem flush_test_eligible (env : Env) (a : addr) (s : Machine) (lc : Scan.Locals) :
  let m := Scm s a in
  let r := loop_body env a s lc in
  let e := mkEntry WriteBehind (ParametersWrite a) in
  let size := CcCapturedSystemSize s in
  let P := Scan.PagesToWrite lc in
  let queued :=
    snd r <> None /\
    (FlagOn (Flags m) WAITING_FOR_TEARDOWN = false /\
     CcRegularWorkQueue (fst (fst r)) = CcRegularWorkQueue s ++ [e] /\
     CcExpressWorkQueue (fst (fst r)) = CcExpressWorkQueue s \/
     FlagOn (Flags m) WAITING_FOR_TEARDOWN = true /\
     CcExpressWorkQueue (fst (fst r)) = CcExpressWorkQueue s ++ [e] /\
     CcRegularWorkQueue (fst (fst r)) = CcRegularWorkQueue s) in
  let untouched :=
    CcRegularWorkQueue (fst (fst r)) = CcRegularWorkQueue s /\
    CcExpressWorkQueue (fst (fst r)) = CcExpressWorkQueue s in
  (fst (flush_test env size P m) = true <-> eligible env size P m) /\
  (next_allocation s = true -> (queued <-> eligible env size P m)) /\
  (next_allocation s = false ->
   untouched /\ (snd r = None <-> eligible env size P m)) /\
  (~ eligible env size P m -> snd r <> None /\ untouched) /\
  (FlagOn (Flags m) WRITE_QUEUED = false ->
   FlagOn (Flags m) IS_CURSOR = false ->
   FileSize m = 0 -> fst (flush_test env size P m) = true).
Proof.
  intros m r e size P queued untouched.
  pose proof (flush_test_iff env size P m) as Main.
  pose proof (loop_body_dispatch env a s lc) as D. cbv zeta in D.
  fold m r e size P in D. destruct D as (D1 & D2 & D3).
  assert (Never : untouched -> ~ queued).
  { unfold untouched, queued. intros [UR UE] [_ [(_ & Q & _)|(_ & Q & _)]].
    - rewrite UR in Q. symmetry in Q. exact (app_one_neq _ _ Q).
    - rewrite UE in Q. symmetry in Q. exact (app_one_neq _ _ Q). }
  split; [exact Main|]. split; [|split; [|split]].
  - intros Hok. rewrite <- Main.
    destruct (fst (flush_test env size P m)) eqn:T.
    + split; [reflexivity|]. intros _. exact (D1 eq_refl Hok).
    + split; [|discriminate]. intros Q. exfalso.
      destruct (D3 eq_refl) as [_ U]. exact (Never U Q).
  - intros Hno. rewrite <- Main.
    destruct (fst (flush_test env size P m)) eqn:T.
    + destruct (D2 eq_refl Hno) as [B U]. split; [exact U|].
      split; [reflexivity|]. intros _. exact B.
    + destruct (D3 eq_refl) as [B U]. split; [exact U|].
      split; [|discriminate]. intros N. contradiction.
  - intros Hn. rewrite <- Main in Hn.
    destruct (fst (flush_test env size P m)) eqn:T; [contradiction Hn; reflexivity|].
    exact (D3 eq_refl).
  - intros Hw Hc Hs. apply Main. unfold eligible. tauto.
Qed.

(** ** The properties at the examples *)

(** Scenario A: a hundred dirty pages, a target of a thousand and no rate
    give 12 pages to write, with no more added. *)
Example scenario_A_budget :
  usual_fraction scenario_A = 12 /\
  ForegroundRate scenario_A = 0 /\
  EstimatedDirtyNextInterval scenario_A = 88 /\
  Scan.PagesToWrite (snd (start_tick scenario_A)) = 12.
Proof. repeat split; reflexivity. Qed.

Lemma flush_test_eligible_witness :
  fst (flush_test env0 (CcCapturedSystemSize zero_size)
         (Scan.PagesToWrite (snd (start_tick zero_size)))
         (Scm zero_size 1%nat)) = true /\
  snd (loop_body env0 1%nat (fst (start_tick zero_size))
         (snd (start_tick zero_size))) <> None /\
  CcRegularWorkQueue
    (fst (fst (loop_body env0 1%nat (fst (start_tick zero_size))
                 (snd (start_tick zero_size)))))
  = [mkEntry WriteBehind (ParametersWrite 1%nat)].
Proof.
  destruct (flush_test_eligible env0 1%nat (fst (start_tick zero_size))
              (snd (start_tick zero_size))) as (T & Q & _ & _ & Z0).
  assert (H : fst (flush_test env0 (CcCapturedSystemSize zero_size)
                     (Scan.PagesToWrite (snd (start_tick zero_size)))
                     (Scm zero_size 1%nat)) = true)
    by (apply Z0; reflexivity).
  split; [exact H|].
  destruct (proj2 (Q eq_refl) (proj1 T H)) as [N [(_ & R & _)|(W & _)]].
  - split; [exact N|exact R].
  - discriminate W.
Defined.



Lemma estimate_subtraction_exact_witness :
  usual_fraction scenario_A <= CcTotalDirtyPages scenario_A /\
  usub (CcTotalDirtyPages scenario_A) (usual_fraction scenario_A) = 88.
Proof.
  destruct (estimate_subtraction_exact scenario_A) as (H1 & H2 & _).
  - in_range_tac.
  - split; [exact H1|exact H2].
Defined.

(** C3 fails in its last part: the pages to write are at most the dirty
    pages and the subtraction is exact, but the sum with the rate wraps,
    and the test against the target comes out the other way. *)
Lemma estimate_sum_wraps :
  in_range (CcTotalDirtyPages estimate_wraps) /\
  in_range (CcDirtyPageTarget estimate_wraps) /\
  usual_fraction estimate_wraps <= CcTotalDirtyPages estimate_wraps /\
  CcTotalDirtyPages estimate_wraps - usual_fraction estimate_wraps
    + ForegroundRate estimate_wraps = 8053063679 /\
  EstimatedDirtyNextInterval estimate_wraps = 3758096383 /\
  (EstimatedDirtyNextInterval estimate_wraps >? CcDirtyPageTarget estimate_wraps)
  = false /\
  (CcTotalDirtyPages estimate_wraps - usual_fraction estimate_wraps
     + ForegroundRate estimate_wraps >? CcDirtyPageTarget estimate_wraps) = true.
Proof.
  repeat split; try in_range_tac; reflexivity.
Qed.




Lemma post_tick_items_posted_witness :
  exists (s' : Machine) (written : list WORK_QUEUE_ENTRY),
    CcLazyWriteScan env0 barrier = Some s' /\
    Forall (fun e => Function e = WriteBehind) written /\
    CcRegularWorkQueue s' = written ++ [mkEntry EventSet (ParametersEvent 5)] /\
    CcPostTickWorkQueue s' = [mkEntry EventSet (ParametersEvent 6)].
Proof.
  destruct (post_tick_items_posted env0 barrier)
    as (_ & _ & s2 & lc2 & written & _ & Hs & Fw & _ & _ & _ & HR & HP & HA).
  - ring_wf.
  - reflexivity.
  - exists (end_tick s2 lc2), written. split; [exact Hs|].
    split; [exact Fw|]. split; [exact HR|].
    rewrite HP, HA. vm_compute. reflexivity.
Defined.


Lemma tick_with_nothing_to_do_witness :
  CcLazyWriteScan env0 quiet = Some (set_ScanActive false quiet).
Proof.
  destruct (tick_with_nothing_to_do env0 quiet) as [H _].
  - reflexivity.
  - reflexivity.
  - destruct (H eq_refl) as [E _]. exact E.
Defined.

Lemma rescan_after_latest_write_witness :
  rescans (go_idle 7 (after_loop env0 5 success_then_failure))
    (locals_after_loop env0 5 success_then_failure) = false.
Proof.
  destruct (rescan_after_latest_write env0 5 7 success_then_failure
              (after_loop env0 5 success_then_failure)
              (locals_after_loop env0 5 success_then_failure)) as (E & _).
  - reflexivity.
  - vm_compute. reflexivity.
  - rewrite E. vm_compute. reflexivity.
Defined.

(** C9 fails for a worker that writes behind with success and then
    without: a write behind of its run has succeeded, there is a deferred
    write and there are a hundred dirty pages, and the worker goes idle
    without running the scan. *)
Lemma no_rescan_after_failed_write :
  let s' := after_loop env0 5 success_then_failure in
  let lc' := locals_after_loop env0 5 success_then_failure in
  worker_loop env0 5 success_then_failure Worker.initial = Some (s', lc') /\
  CcDeferredWrites s' = [9%nat] /\
  (CcTotalDirtyPages s' >=? 20) = true /\
  some_write_succeeded (Log s') = true /\
  rescans (go_idle 7 s') lc' = false /\
  option_map Log (CcWorkerThread env0 5 7 success_then_failure)
  = Some (Log (go_idle 7 s')) /\
  Log (go_idle 7 s')
  = [EvCcFreeWorkQueueEntry (mkEntry WriteBehind (ParametersWrite 2%nat));
     EvCcWriteBehind 2%nat (WbReturns (-1073741823) 0);
     EvCcFreeWorkQueueEntry (mkEntry WriteBehind (ParametersWrite 1%nat));
     EvCcWriteBehind 1%nat (WbReturns 0 0)].
Proof. vm_compute. repeat split; reflexivity. Qed.

Lemma schedule_idempotent_witness :
  Nat.iter 3 (CcScheduleLazyWriteScan false) scenario_A
  = CcScheduleLazyWriteScan false scenario_A.
Proof.
  destruct (schedule_idempotent 2 scenario_A) as (_ & H & _).
  - reflexivity.
  - exact H.
Defined.

(** * Further properties *)

(** ** The timer and its DPC *)

Lemma allocate_fields (s : Machine) :
  CcRegularWorkQueue (snd (CcAllocateWorkQueueEntry s)) = CcRegularWorkQueue s /\
  CcExpressWorkQueue (snd (CcAllocateWorkQueueEntry s)) = CcExpressWorkQueue s /\
  CcPostTickWorkQueue (snd (CcAllocateWorkQueueEntry s)) = CcPostTickWorkQueue s /\
  LazyWriter (snd (CcAllocateWorkQueueEntry s)) = LazyWriter s /\
  Log (snd (CcAllocateWorkQueueEntry s)) = Log s.
Proof.
  unfold CcAllocateWorkQueueEntry. destruct (Pool s); simpl; auto.
Qed.

(** X1.  When the scan timer goes off and no work queue entry can be
    allocated, nothing is posted, the timer is left unset and the lazy
    writer is left inactive, so that the next call
    [CcScheduleLazyWriteScan(FALSE)] starts it again with the first delay. *)
Theorem timer_fires_without_entry (s : Machine) (d : Delay) :
  ScanTimer (LazyWriter s) = Some d ->
  fst (CcAllocateWorkQueueEntry s) = false ->
  CcRegularWorkQueue (timer_fires s) = CcRegularWorkQueue s /\
  CcExpressWorkQueue (timer_fires s) = CcExpressWorkQueue s /\
  Log (timer_fires s) = Log s /\
  ScanActive (LazyWriter (timer_fires s)) = false /\
  ScanTimer (LazyWriter (timer_fires s)) = None /\
  ScanActive (LazyWriter (CcScheduleLazyWriteScan false (timer_fires s))) = true /\
  ScanTimer (LazyWriter (CcScheduleLazyWriteScan false (timer_fires s)))
  = Some CcFirstDelay.
Proof.
  intros Ht Ha. unfold timer_fires. rewrite Ht. unfold CcScanDpc.
  assert (A : fst (CcAllocateWorkQueueEntry (set_ScanTimer None s)) = false).
  { unfold CcAllocateWorkQueueEntry in *. simpl.
    destruct (Pool s); simpl in *; [discriminate|exact Ha]. }
  destruct (allocate_fields (set_ScanTimer None s)) as (R & E & _ & L & G).
  destruct (CcAllocateWorkQueueEntry (set_ScanTimer None s)) as [ok s1].
  cbn [fst snd] in *. subst ok.
  unfold CcScheduleLazyWriteScan, CcScheduleLazyWriteScan_code.
  simpl. rewrite R, E, G, L. simpl. auto 10.
Qed.

(** ** The callers that wait for the lazy writer *)

(** X2.  [CcWaitForCurrentLazyWriterActivity] without an entry returns
    [STATUS_INSUFFICIENT_RESOURCES] and leaves the post tick queue, the
    flags of the lazy writer and its timer as they were.  With an entry it
    queues one [EventSet] entry at the tail of the post tick queue and sets
    [OtherWork]; the scan is active afterwards, and the timer is touched
    only when the scan was not active, in which case it is set to no
    delay. *)
Theorem wait_for_activity (ev : nat) (s : Machine) :
  let r := CcWaitForCurrentLazyWriterActivity ev s in
  (fst (CcAllocateWorkQueueEntry s) = false ->
   fst r = STATUS_INSUFFICIENT_RESOURCES /\
   CcPostTickWorkQueue (snd r) = CcPostTickWorkQueue s /\
   LazyWriter (snd r) = LazyWriter s) /\
  (fst (CcAllocateWorkQueueEntry s) = true ->
   fst r = STATUS_WAIT /\
   CcPostTickWorkQueue (snd r)
   = CcPostTickWorkQueue s ++ [mkEntry EventSet (ParametersEvent ev)] /\
   OtherWork (LazyWriter (snd r)) = true /\
   ScanActive (LazyWriter (snd r)) = true /\
   ScanTimer (LazyWriter (snd r))
   = (if ScanActive (LazyWriter s) then ScanTimer (LazyWriter s)
      else Some CcNoDelay) /\
   nothing_to_do (snd r) = false).
Proof.
  intros r. unfold r, CcWaitForCurrentLazyWriterActivity.
  destruct (allocate_fields s) as (_ & _ & P & L & _).
  destruct (CcAllocateWorkQueueEntry s) as [ok s1]. cbn [fst snd] in *.
  split; intros Hok; subst ok; cbn [fst snd].
  - auto.
  - simpl. rewrite L, P.
    unfold nothing_to_do.
    destruct (ScanActive (LazyWriter s)) eqn:A; simpl; rewrite ?A, ?L, ?P;
      repeat split; auto using andb_false_r.
Qed.

(** ** The pool of worker threads *)

Lemma CcPostWorkQueue_wakes (e : WORK_QUEUE_ENTRY) (q : QueueHead) (s : Machine) :
  CcPostWorkQueue e q s
  = let s0 := set_queue q (Queue.InsertTailList (queue_of q s) e) s in
    match CcQueueThrottle s, CcIdleWorkerThreadList s with
    | false, v :: idle =>
        log (EvExQueueWorkItem v)
          (set_CcNumberActiveWorkerThreads
             (uadd (CcNumberActiveWorkerThreads s) 1)
             (set_CcIdleWorkerThreadList idle s0))
    | _, _ => s0
    end.
Proof.
  unfold CcPostWorkQueue.
  destruct q; simpl; destruct (CcQueueThrottle s); simpl; try reflexivity;
    destruct (CcIdleWorkerThreadList s); reflexivity.
Qed.

(** X3.  A post to a work queue wakes a worker exactly when the queues are
    not throttled and a worker is idle: the worker at the head of the idle
    list is handed to [ExQueueWorkItem] and counted active.  Neither a post
    nor a worker going idle changes the number of workers, idle and
    active. *)
Theorem workers_kept (e : WORK_QUEUE_ENTRY) (q : QueueHead) (w : nat) (s : Machine) :
  0 <= CcNumberActiveWorkerThreads s ->
  CcNumberActiveWorkerThreads s + 1 < modulus ->
  let s' := CcPostWorkQueue e q s in
  (CcQueueThrottle s = true \/ CcIdleWorkerThreadList s = [] ->
   Log s' = Log s /\
   CcIdleWorkerThreadList s' = CcIdleWorkerThreadList s /\
   CcNumberActiveWorkerThreads s' = CcNumberActiveWorkerThreads s) /\
  (forall (v : nat) (idle : list nat),
     CcQueueThrottle s = false ->
     CcIdleWorkerThreadList s = v :: idle ->
     Log s' = EvExQueueWorkItem v :: Log s /\
     CcIdleWorkerThreadList s' = idle /\
     CcNumberActiveWorkerThreads s' = CcNumberActiveWorkerThreads s + 1) /\
  workers s' = workers s /\
  (1 <= CcNumberActiveWorkerThreads s -> workers (go_idle w s) = workers s).
Proof.
  intros H0 H1 s'.
  assert (U : uadd (CcNumberActiveWorkerThreads s) 1
              = CcNumberActiveWorkerThreads s + 1)
    by (apply wrap_small; unfold in_range; lia).
  unfold s'. rewrite CcPostWorkQueue_wakes. cbv zeta.
  split; [|split; [|split]].
  - intros [H|H]; rewrite H.
    + destruct q; simpl; auto.
    + destruct (CcQueueThrottle s); destruct q; simpl; auto.
  - intros v idle Ht Hi. rewrite Ht, Hi. destruct q; simpl; auto.
  - unfold workers.
    destruct (CcQueueThrottle s); [destruct q; reflexivity|].
    destruct (CcIdleWorkerThreadList s) as [|v idle] eqn:I.
    + destruct q; simpl; rewrite I; reflexivity.
    + destruct q; cbn -[Z.of_nat Z.add length]; rewrite U;
        change (length (v :: idle)) with (S (length idle)); lia.
  - intros Ha. unfold go_idle, workers. cbn -[Z.of_nat Z.add length].
    unfold Queue.InsertTailList. rewrite length_app.
    change (length [w]) with 1%nat.
    unfold usub. rewrite wrap_small by (unfold in_range; lia). lia.
Qed.

(** ** The pages to write are not nothing *)

(** X4.  With dirty pages there are, the usual fraction of them is at least
    one page: the division is left out when it would give nothing.  The
    pages to write of the tick are at least the usual fraction, unless
    raising them wraps. *)
Theorem usual_fraction_positive (s : Machine) :
  in_range (CcTotalDirtyPages s) ->
  in_range (CcDirtyPageTarget s) ->
  0 < CcTotalDirtyPages s ->
  1 <= usual_fraction s <= CcTotalDirtyPages s /\
  (usual_fraction s
   + Z.max 0 (EstimatedDirtyNextInterval s - CcDirtyPageTarget s) < modulus ->
   usual_fraction s <= pages_to_write s).
Proof.
  intros HT HG Hp.
  assert (B : 1 <= usual_fraction s <= CcTotalDirtyPages s).
  { unfold in_range, usual_fraction, LAZY_WRITER_MAX_AGE_TARGET in *.
    destruct (Z.gtb_spec (CcTotalDirtyPages s) 8).
    - Z.to_euclidean_division_equations. lia.
    - lia. }
  split; [exact B|]. intros Hs. unfold pages_to_write.
  assert (HE : in_range (EstimatedDirtyNextInterval s))
    by (unfold EstimatedDirtyNextInterval, uadd; apply wrap_range).
  destruct (Z.gtb_spec (EstimatedDirtyNextInterval s) (CcDirtyPageTarget s));
    [|lia].
  unfold uadd, usub. unfold in_range in *.
  rewrite (wrap_small (_ - CcDirtyPageTarget s)) by (unfold in_range; lia).
  rewrite wrap_small by (unfold in_range; lia). lia.
Qed.

(** ** What a worker takes from the queues *)

(** The queue an entry is taken from. *)
Lemma take_entry_queue (s : Machine) (lc : Worker.Locals) (s' : Machine)
  (lc' : Worker.Locals) (e : WORK_QUEUE_ENTRY) :
  take_entry s lc = (s', lc', Some e) ->
  let s0 := fst (resume s lc) in
  Worker.WorkQueueEntry lc' = Some e /\
  (CcExpressWorkQueue s0 = e :: CcExpressWorkQueue s' /\
   CcRegularWorkQueue s' = CcRegularWorkQueue s0 /\
   Worker.WorkQueue lc' = Some Express \/
   CcExpressWorkQueue s0 = [] /\
   CcExpressWorkQueue s' = [] /\
   CcRegularWorkQueue s0 = e :: CcRegularWorkQueue s' /\
   Worker.WorkQueue lc' = Some Regular).
Proof.
  intros H s0. unfold take_entry in H. subst s0.
  destruct (resume s lc) as [s1 lc1]. cbn [fst snd].
  unfold head_entry in H.
  destruct (CcExpressWorkQueue s1) as [|x xs] eqn:X; simpl in H.
  - destruct (CcRegularWorkQueue s1) as [|y ys] eqn:Y; simpl in H;
      [discriminate|].
    destruct (_ && _); [discriminate|].
    inversion H; subst. simpl. rewrite X, Y. auto 10.
  - destruct (_ && _); [discriminate|].
    inversion H; subst. simpl. rewrite X. auto 10.
Qed.

(** X5.  The entry a worker takes is the head of a queue, which loses it
    and nothing else: the head of the express queue whenever that queue
    is not empty, the head of the regular queue only when the express
    queue is empty.  The worker notes the queue it took the entry from. *)
Theorem take_entry_head (s : Machine) (lc : Worker.Locals) (s' : Machine)
  (lc' : Worker.Locals) (e : WORK_QUEUE_ENTRY) :
  take_entry s lc = (s', lc', Some e) ->
  let s0 := fst (resume s lc) in
  Worker.WorkQueueEntry lc' = Some e /\
  (CcExpressWorkQueue s0 = e :: CcExpressWorkQueue s' /\
   CcRegularWorkQueue s' = CcRegularWorkQueue s0 /\
   Worker.WorkQueue lc' = Some Express \/
   CcExpressWorkQueue s0 = [] /\
   CcExpressWorkQueue s' = [] /\
   CcRegularWorkQueue s0 = e :: CcRegularWorkQueue s' /\
   Worker.WorkQueue lc' = Some Regular).
Proof. exact (take_entry_queue s lc s' lc' e). Qed.

(** X6.  A write behind that asks to be queued again is not freed, and
    the top of the worker's next turn puts its entry back at the tail of
    the queue it came from and clears the request. *)
Theorem requeue_goes_back (env : Env) (s : Machine) (lc : Worker.Locals)
  (s1 : Machine) (lc1 : Worker.Locals) (e : WORK_QUEUE_ENTRY) (a : addr)
  (st : Z) (rest : list WB_OUTCOME) :
  take_entry s lc = (s1, lc1, Some e) ->
  Function e = WriteBehind ->
  Parameters e = ParametersWrite a ->
  WriteBehindResults s1 = WbReturns st CC_REQUEUE :: rest ->
  exists (s2 : Machine) (lc2 : Worker.Locals) (q : QueueHead),
    process_entry env e s1 lc1 = Some (s2, lc2) /\
    Worker.WorkQueue lc1 = Some q /\
    Log (free_entry e s2 lc2)
    = EvCcWriteBehind a (WbReturns st CC_REQUEUE) :: Log s1 /\
    queue_of q (fst (resume (free_entry e s2 lc2) lc2)) = queue_of q s1 ++ [e] /\
    Worker.Information (snd (resume (free_entry e s2 lc2) lc2)) = 0.
Proof.
  intros Ht Hf Hp Hr.
  pose proof (take_entry_queue s lc s1 lc1 e Ht) as Hh. cbv zeta in Hh.
  destruct Hh as [He Hq].
  assert (Q : exists q, Worker.WorkQueue lc1 = Some q)
    by (destruct Hq as [(_ & _ & Q)|(_ & _ & _ & Q)]; eauto).
  destruct Q as [q Q].
  unfold process_entry. rewrite Hf, Hp. unfold CcWriteBehind. rewrite Hr.
  do 2 eexists. exists q. split; [reflexivity|]. split; [exact Q|].
  unfold free_entry, resume. simpl. rewrite Q, He.
  destruct (Worker.DropThrottle lc1); destruct q; simpl; auto.
Qed.

(** X7.  Whatever the entry, and whether [CcWriteBehind] returns or
    raises, a worker that was not a memory maker before it processed the
    entry is not one after; no worker leaves its loop as a memory maker. *)
Theorem memory_maker_cleared (env : Env) (fuel : nat) (s : Machine)
  (s' : Machine) (lc' : Worker.Locals) :
  (forall (e : WORK_QUEUE_ENTRY) (s1 s2 : Machine) (lc1 lc2 : Worker.Locals),
     process_entry env e s1 lc1 = Some (s2, lc2) ->
     (Function e = WriteBehind \/ Worker.MemoryMaker lc1 = false) ->
     Worker.MemoryMaker lc2 = false) /\
  (worker_loop env fuel s Worker.initial = Some (s', lc') ->
   Worker.MemoryMaker lc' = false).
Proof.
  assert (P : forall e s1 s2 lc1 lc2,
            process_entry env e s1 lc1 = Some (s2, lc2) ->
            (Function e = WriteBehind \/ Worker.MemoryMaker lc1 = false) ->
            Worker.MemoryMaker lc2 = false).
  { intros e s1 s2 lc1 lc2 H Hc. unfold process_entry in H.
    destruct (Function e) eqn:F.
    - inversion H; subst. destruct Hc; [discriminate|assumption].
    - unfold CcWriteBehind in H.
      destruct (WriteBehindResults s1) as [|[? ?|] ?]; inversion H; reflexivity.
    - inversion H; subst. destruct Hc; [discriminate|assumption].
    - destruct (CcLazyWriteScan env s1); [|discriminate].
      inversion H; subst. destruct Hc; [discriminate|assumption]. }
  split; [exact P|].
  assert (T : forall s1 lc1,
            Worker.MemoryMaker (snd (fst (take_entry s1 lc1)))
            = Worker.MemoryMaker lc1).
  { intros s1 lc1. unfold take_entry, resume.
    destruct (Worker.DropThrottle lc1);
      destruct (Worker.Information lc1 =? CC_REQUEUE); cbn [fst snd];
      match goal with
      | |- context [head_entry ?x] => destruct (head_entry x) as [[q e]|]
      end; try reflexivity; destruct (_ && _); reflexivity. }
  assert (L : forall fuel s1 lc1 s2 lc2,
            worker_loop env fuel s1 lc1 = Some (s2, lc2) ->
            Worker.MemoryMaker lc1 = false -> Worker.MemoryMaker lc2 = false).
  { clear fuel s s' lc'. induction fuel as [|fuel IH];
      intros s1 lc1 s2 lc2 H Hm; simpl in H; [discriminate|].
    pose proof (T s1 lc1) as Tm.
    destruct (take_entry s1 lc1) as [[s3 lc3] [e|]]; cbn [fst snd] in Tm.
    - destruct (process_entry env e s3 lc3) as [[s4 lc4]|] eqn:E; [|discriminate].
      apply IH in H; [exact H|].
      apply (P e s3 s4 lc3 lc4 E). right. congruence.
    - inversion H; subst. congruence. }
  intros H. apply (L fuel s Worker.initial s' lc' H). reflexivity.
Qed.

(** X8.  A worker leaves its loop only when both queues are empty, or
    when it has throttled the queues because the entry at the head is an
    [EventSet] and it is not the one active worker. *)
Theorem worker_leaves_when_done (env : Env) (fuel : nat) (s : Machine)
  (lc : Worker.Locals) (s' : Machine) (lc' : Worker.Locals) :
  worker_loop env fuel s lc = Some (s', lc') ->
  CcExpressWorkQueue s' = [] /\ CcRegularWorkQueue s' = [] \/
  CcQueueThrottle s' = true /\
  CcNumberActiveWorkerThreads s' > 1 /\
  exists (q : QueueHead) (e : WORK_QUEUE_ENTRY),
    head_entry s' = Some (q, e) /\ Function e = EventSet.
Proof.
  revert s lc. induction fuel as [|fuel IH]; intros s lc H; simpl in H;
    [discriminate|].
  destruct (take_entry s lc) as [[s1 lc1] [e|]] eqn:T.
  - destruct (process_entry env e s1 lc1) as [[s2 lc2]|]; [|discriminate].
    eapply IH; eauto.
  - inversion H; subst. clear H IH. unfold take_entry in T.
    destruct (resume s lc) as [s0 lc0].
    destruct (head_entry s0) as [[q e]|] eqn:Hh.
    + destruct (WORK_FUNCTION_eqb (Function e) EventSet
                && (CcNumberActiveWorkerThreads s0 >? 1)) eqn:C;
        [|discriminate].
      inversion T; subst. right.
      apply andb_true_iff in C. destruct C as [C1 C2].
      apply WORK_FUNCTION_eqb_eq in C1. apply Z.gtb_lt in C2.
      split; [reflexivity|]. split; [simpl; lia|].
      exists q, e. split; [|exact C1].
      unfold head_entry in *. simpl. exact Hh.
    + inversion T; subst. left. unfold head_entry in Hh.
      destruct (CcExpressWorkQueue s') ; simpl in Hh; [|discriminate].
      destruct (CcRegularWorkQueue s'); simpl in Hh; [auto|discriminate].
Qed.

(** ** The dirty list after a scan *)

Lemma loop_body_ring_any (env : Env) (a : addr) (s : Machine) (lc : Scan.Locals) :
  Scan.MoveBehindCursor lc = false ->
  let R := CcDirtySharedCacheMapList s in
  let Rb := Ring.InsertTailList a CcLazyWriterCursor
              (Ring.RemoveEntryList CcLazyWriterCursor R) in
  let s' := fst (fst (loop_body env a s lc)) in
  snd (loop_body env a s lc) = None ->
  CcDirtySharedCacheMapList s' = R \/ CcDirtySharedCacheMapList s' = Rb.
Proof.
  intros Hmb R Rb s'. unfold s'.
  set (lc1 := match Scan.FirstVisited lc with
              | None => Scan.set_FirstVisited (Some a) lc
              | Some _ => lc
              end).
  destruct (fst (flush_test env (CcCapturedSystemSize s) (Scan.PagesToWrite lc)
                   (Scm s a))) eqn:T.
  - rewrite (loop_body_flush env a s lc T). cbv zeta. fold lc1.
    set (s1 := store a _ (store a _ s)).
    pose proof (adjust_targets_ring a s1 lc1) as A. cbv zeta in A.
    destruct (adjust_targets a s1 lc1) as [s2 lc2]. cbn [fst snd] in *.
    destruct A as (_ & _ & _ & _ & AR).
    change (CcDirtySharedCacheMapList s1) with R in AR. fold Rb in AR.
    destruct (queue_write_behind_shape a s2 lc2) as (s3 & Q & R3 & _).
    rewrite Q. cbn [fst snd].
    destruct (next_allocation s2); cbn [fst snd].
    + unfold loop_foot. destruct (Scan.MoveBehindCursor _); cbn [fst snd];
        discriminate.
    + intros _. rewrite R3. destruct AR as [[AR _]|[AR _]]; auto.
  - unfold loop_body. fold lc1.
    assert (HP : Scan.PagesToWrite lc1 = Scan.PagesToWrite lc)
      by (unfold lc1; destruct (Scan.FirstVisited lc); reflexivity).
    rewrite HP.
    destruct (flush_test env (CcCapturedSystemSize s) (Scan.PagesToWrite lc)
                (Scm s a)) as [f m]. simpl in T. subst f.
    destruct (drop_lock_occasionally a (store a m s) lc1) as [s2 lc2].
    unfold loop_foot. destruct (Scan.MoveBehindCursor lc2); cbn [fst snd];
      discriminate.
Qed.

(** The loop ends with the cursor somewhere in the list it started on. *)
Lemma scan_loop_keeps_order (env : Env) :
  forall (rem done : list addr) (s : Machine) (lc : Scan.Locals) (cur : addr)
         (fuel : nat),
    walking done rem s lc -> at_entry rem lc cur ->
    (length rem < fuel)%nat ->
    exists (s' : Machine) (lc' : Scan.Locals) (d1 d2 : list addr),
      scan_loop env fuel cur s lc = Some (s', lc') /\
      Ring.wf CcLazyWriterCursor (CcDirtySharedCacheMapList s') /\
      done ++ rem = d1 ++ d2 /\
      Ring.rot CcLazyWriterCursor (CcDirtySharedCacheMapList s') = d2 ++ d1.
Proof.
  intros rem. induction rem as [|x rem IH]; intros done s lc cur fuel W E Hf;
    (destruct fuel as [|fuel]; [inversion Hf|]); simpl in E.
  - simpl. rewrite E.
    destruct W as (_ & _ & Wf & _ & _ & d1 & d2 & Hd & Hr).
    exists s, lc, d1, d2. rewrite app_nil_r. simpl in Hr. auto.
  - subst cur. simpl. rewrite (walking_goes_on done rem x s lc W).
    pose proof (walking_step env done rem x s lc W) as St. cbv zeta in St.
    pose proof (loop_body_ring_any env x s lc) as Br. cbv zeta in Br.
    destruct (loop_body env x s lc) as [[s1 lc1] nxt]. cbn [fst snd] in *.
    destruct St as [St|(next & St & W' & E')]; subst nxt.
    + destruct W as (_ & _ & [N Hc] & Hmb & _ & d1 & d2 & Hd & Hr).
      destruct (cursor_before _ x _ d2 (rem ++ d1) N Hc Hr) as (Bb & Wb & _).
      destruct (Br Hmb eq_refl) as [B|B].
      * exists s1, lc1, d1, (d2 ++ x :: rem). rewrite B.
        split; [reflexivity|]. split; [split; assumption|].
        rewrite Hd, Hr, <- ?app_assoc. auto.
      * exists s1, lc1, (d1 ++ d2), (x :: rem). rewrite B.
        split; [reflexivity|]. split; [exact Wb|].
        rewrite Hd, Bb, <- ?app_assoc. simpl. rewrite <- ?app_assoc. auto.
    + destruct (IH (done ++ [x]) s1 lc1 next fuel W' E') as
        (s' & lc' & d1 & d2 & L & Wf & Hd & Hr); [simpl in Hf; lia|].
      exists s', lc', d1, d2. rewrite <- app_assoc in Hd. auto.
Qed.

Lemma end_tick_frame (s : Machine) (lc : Scan.Locals) :
  CcDirtySharedCacheMapList (end_tick s lc) = CcDirtySharedCacheMapList s /\
  Scm (end_tick s lc) = Scm s /\
  CcExpressWorkQueue (end_tick s lc) = CcExpressWorkQueue s /\
  ScanActive (LazyWriter (end_tick s lc)) = true /\
  (ScanTimer (LazyWriter (end_tick s lc)) = Some CcIdleDelay \/
   ScanTimer (LazyWriter (end_tick s lc)) = Some CcFirstDelay).
Proof.
  unfold end_tick.
  assert (P : forall q t,
            CcDirtySharedCacheMapList (post_tick q t) = CcDirtySharedCacheMapList t /\
            Scm (post_tick q t) = Scm t /\
            CcExpressWorkQueue (post_tick q t) = CcExpressWorkQueue t).
  { induction q as [|e q IH]; intros t; simpl; [auto|].
    destruct (IH (CcPostWorkQueue e Regular t)) as (A & B & C).
    destruct (CcPostWorkQueue_frame e Regular t) as (F1 & F2 & _).
    destruct (CcPostWorkQueue_queues e Regular t) as [_ F3].
    rewrite A, B, C, F1, F2, F3. auto. }
  destruct (P (Scan.PostTickWorkQueue lc) s) as (A & B & C).
  set (t := post_tick (Scan.PostTickWorkQueue lc) s) in *.
  set (u := if negb (Queue.IsListEmpty (CcDeferredWrites t))
            then log EvCcPostDeferredWrites t else t).
  assert (U : CcDirtySharedCacheMapList u = CcDirtySharedCacheMapList s /\
              Scm u = Scm s /\ CcExpressWorkQueue u = CcExpressWorkQueue s)
    by (unfold u; destruct (negb _); simpl; auto).
  destruct U as (U1 & U2 & U3).
  unfold CcScheduleLazyWriteScan, CcScheduleLazyWriteScan_code.
  destruct (ScanActive (LazyWriter u)) eqn:Au; simpl; rewrite ?Au, U1, U2, U3;
    auto 10.
Qed.

(** X9.  On a well formed dirty list the scan comes to its end, whatever
    the streams, the pool and the other threads do, and leaves a well
    formed list: the cursor is in it once, and the other entries follow
    one another round the list as before; only the cursor has moved. *)
Theorem scan_keeps_dirty_list (env : Env) (s : Machine) :
  Ring.wf CcLazyWriterCursor (CcDirtySharedCacheMapList s) ->
  exists (s' : Machine) (d1 d2 : list addr),
    CcLazyWriteScan env s = Some s' /\
    Ring.wf CcLazyWriterCursor (CcDirtySharedCacheMapList s') /\
    Ring.rot CcLazyWriterCursor (CcDirtySharedCacheMapList s) = d1 ++ d2 /\
    Ring.rot CcLazyWriterCursor (CcDirtySharedCacheMapList s') = d2 ++ d1.
Proof.
  intros W. destruct (nothing_to_do s) eqn:Hn.
  - exists (go_inactive s),
      (Ring.rot CcLazyWriterCursor (CcDirtySharedCacheMapList s)), [].
    assert (G : CcDirtySharedCacheMapList (go_inactive s)
                = CcDirtySharedCacheMapList s).
    { unfold go_inactive. destruct (Queue.IsListEmpty _); [reflexivity|].
      unfold CcScheduleLazyWriteScan, CcScheduleLazyWriteScan_code. simpl.
      destruct (ScanActive (LazyWriter s)); reflexivity. }
    unfold CcLazyWriteScan. rewrite Hn, G, app_nil_r. auto.
  - destruct (start_tick_walking s W) as (Hw & He & Hl).
    destruct (scan_loop_keeps_order env _ [] _ _ _ _ Hw He Hl)
      as (s2 & lc2 & d1 & d2 & L & Wf & Hd & Hr).
    destruct (end_tick_frame s2 lc2) as (F & _).
    exists (end_tick s2 lc2), d1, d2.
    rewrite (CcLazyWriteScan_work env s Hn), L, F. auto.
Qed.

(** ** When the scan goes on and when it stops *)

Lemma scan_ends (env : Env) (s : Machine) :
  Ring.wf CcLazyWriterCursor (CcDirtySharedCacheMapList s) ->
  nothing_to_do s = false ->
  exists (s2 : Machine) (lc2 : Scan.Locals),
    CcLazyWriteScan env s = Some (end_tick s2 lc2).
Proof.
  intros W Hn. destruct (start_tick_walking s W) as (Hw & He & Hl).
  destruct (scan_loop_keeps_order env _ [] _ _ _ _ Hw He Hl)
    as (s2 & lc2 & _ & _ & L & _).
  exists s2, lc2. rewrite (CcLazyWriteScan_work env s Hn), L. reflexivity.
Qed.

(** X10.  The scan leaves the lazy writer inactive exactly when it finds
    no dirty page, no other work and no deferred write.  In every other
    case it leaves it active with the timer set, to the idle delay or to
    the first delay and never to no delay. *)
Theorem scan_goes_on_or_stops (env : Env) (s : Machine) :
  Ring.wf CcLazyWriterCursor (CcDirtySharedCacheMapList s) ->
  exists s' : Machine,
    CcLazyWriteScan env s = Some s' /\
    (ScanActive (LazyWriter s') = false <->
     CcTotalDirtyPages s = 0 /\ OtherWork (LazyWriter s) = false /\
     CcDeferredWrites s = []) /\
    (ScanActive (LazyWriter s') = true ->
     ScanTimer (LazyWriter s') = Some CcIdleDelay \/
     ScanTimer (LazyWriter s') = Some CcFirstDelay).
Proof.
  intros W. destruct (nothing_to_do s) eqn:Hn.
  - assert (Hn' := Hn). unfold nothing_to_do in Hn'.
    apply andb_true_iff in Hn'. destruct Hn' as [HT HO].
    apply Z.eqb_eq in HT. apply negb_true_iff in HO.
    exists (go_inactive s). unfold CcLazyWriteScan. rewrite Hn.
    split; [reflexivity|]. unfold go_inactive.
    destruct (CcDeferredWrites s) as [|d ds] eqn:D; simpl.
    + split; [tauto|discriminate].
    + unfold CcScheduleLazyWriteScan, CcScheduleLazyWriteScan_code. simpl.
      destruct (ScanActive (LazyWriter s)) eqn:A; simpl; rewrite ?A;
        (split; [split; [discriminate|intros (_ & _ & K); discriminate K]|auto]).
  - destruct (scan_ends env s W Hn) as (s2 & lc2 & E).
    destruct (end_tick_frame s2 lc2) as (_ & _ & _ & A & T).
    exists (end_tick s2 lc2). split; [exact E|]. rewrite A.
    split; [|auto]. split; [discriminate|].
    intros (HT & HO & _). unfold nothing_to_do in Hn.
    rewrite HT, HO in Hn. discriminate Hn.
Qed.

(** The regular queue after a tick with work to do. *)
Lemma tick_posts_pulled (env : Env) (s : Machine) :
  Ring.wf CcLazyWriterCursor (CcDirtySharedCacheMapList s) ->
  nothing_to_do s = false ->
  exists (s' : Machine) (written : list WORK_QUEUE_ENTRY),
    CcLazyWriteScan env s = Some s' /\
    ScanActive (LazyWriter s') = true /\
    CcRegularWorkQueue s'
    = CcRegularWorkQueue s ++ written ++ CcPostTickWorkQueue s.
Proof.
  intros W Hn. destruct (start_tick_walking s W) as (Hw & He & Hl).
  set (I := fun (s' : Machine) (lc' : Scan.Locals) =>
              Scan.PostTickWorkQueue lc' = CcPostTickWorkQueue s /\
              exists written : list WORK_QUEUE_ENTRY,
                CcRegularWorkQueue s' = CcRegularWorkQueue s ++ written).
  assert (Step : forall a s' lc', I s' lc' ->
            I (fst (fst (loop_body env a s' lc')))
              (snd (fst (loop_body env a s' lc')))).
  { intros a s' lc' [HP (w & HR)].
    destruct (loop_body_queues env a s' lc') as (BP & BR & _).
    split; [congruence|].
    destruct BR as [BR|BR].
    - exists w. congruence.
    - exists (w ++ [mkEntry WriteBehind (ParametersWrite a)]).
      rewrite BR, HR, <- app_assoc. reflexivity. }
  assert (I0 : I (fst (start_tick s)) (snd (start_tick s))).
  { split; [simpl; apply pull_app|]. exists []. simpl.
    rewrite app_nil_r. reflexivity. }
  destruct (scan_loop_ends env I Step _ [] _ _ _ _ Hw He I0 Hl)
    as (s2 & lc2 & Hloop & HP & written & HR).
  exists (end_tick s2 lc2), written.
  rewrite (CcLazyWriteScan_work env s Hn), Hloop.
  destruct (end_tick_frame s2 lc2) as (_ & _ & _ & A & _).
  split; [reflexivity|]. split; [exact A|].
  unfold end_tick. rewrite HP.
  destruct (post_tick_queues (CcPostTickWorkQueue s) s2) as (TR & _).
  match goal with
  | |- CcRegularWorkQueue (CcScheduleLazyWriteScan false ?x) = _ =>
      destruct (schedule_queues false x) as (SR & _); rewrite SR
  end.
  destruct (negb _); simpl; rewrite TR, HR, <- app_assoc; reflexivity.
Qed.

(** X11.  A caller of [CcWaitForCurrentLazyWriterActivity] that gets its
    entry is served by the next scan even when no page is dirty: the scan
    takes the tick for one with work to do, and leaves the caller's
    [EventSet] entry at the very tail of the regular queue, behind
    everything it has posted, with the lazy writer active. *)
Theorem waiter_served_by_next_scan (env : Env) (ev : nat) (s : Machine) :
  Ring.wf CcLazyWriterCursor (CcDirtySharedCacheMapList s) ->
  fst (CcAllocateWorkQueueEntry s) = true ->
  let s1 := snd (CcWaitForCurrentLazyWriterActivity ev s) in
  nothing_to_do s1 = false /\
  exists (s' : Machine) (before : list WORK_QUEUE_ENTRY),
    CcLazyWriteScan env s1 = Some s' /\
    ScanActive (LazyWriter s') = true /\
    CcRegularWorkQueue s'
    = CcRegularWorkQueue s ++ before ++ CcPostTickWorkQueue s
      ++ [mkEntry EventSet (ParametersEvent ev)].
Proof.
  intros W Ha s1.
  pose proof (wait_undisturbed ev s) as U. fold s1 in U.
  destruct U as (_ & UR & UQ & _).
  assert (F : nothing_to_do s1 = false /\
              CcPostTickWorkQueue s1
              = CcPostTickWorkQueue s ++ [mkEntry EventSet (ParametersEvent ev)]).
  { unfold s1, CcWaitForCurrentLazyWriterActivity.
    destruct (allocate_fields s) as (_ & _ & P & L & _).
    destruct (CcAllocateWorkQueueEntry s) as [ok t]. cbn [fst snd] in *.
    subst ok. unfold nothing_to_do. simpl. rewrite P.
    destruct (ScanActive (LazyWriter t)); simpl;
      split; auto using andb_false_r. }
  destruct F as [Hn HP]. split; [exact Hn|].
  rewrite <- UR in W.
  destruct (tick_posts_pulled env s1 W Hn) as (s' & written & E & A & R).
  exists s', written. rewrite R, UQ, HP. auto.
Qed.

(** ** What a scan leaves on the streams *)

Lemma queue_write_behind_pins (a : addr) (s : Machine) (lc : Scan.Locals) :
  in_range (DirtyPages (Scm s a)) ->
  FlagOn (Flags (Scm s a)) WRITE_QUEUED = false ->
  let s' := fst (fst (queue_write_behind a s lc)) in
  (forall b : addr, b <> a -> Scm s' b = Scm s b) /\
  DirtyPages (Scm s' a) = DirtyPages (Scm s a) /\
  (Flags (Scm s' a) = Flags (Scm s a) /\
   CcRegularWorkQueue s' = CcRegularWorkQueue s /\
   CcExpressWorkQueue s' = CcExpressWorkQueue s \/
   Flags (Scm s' a) = SetFlag (Flags (Scm s a)) WRITE_QUEUED /\
   (CcRegularWorkQueue s' = CcRegularWorkQueue s ++ [write_behind_entry a] /\
    CcExpressWorkQueue s' = CcExpressWorkQueue s \/
    CcExpressWorkQueue s' = CcExpressWorkQueue s ++ [write_behind_entry a] /\
    CcRegularWorkQueue s' = CcRegularWorkQueue s)).
Proof.
  intros Hr Hq s'.
  destruct (queue_write_behind_shape a s lc) as (s3 & Q & _ & Oth).
  assert (E3 : s' = s3) by (unfold s'; rewrite Q; reflexivity).
  split; [rewrite E3; exact Oth|]. clear Q Oth E3 s3.
  unfold s', queue_write_behind.
  assert (Hp : Scm (pin a s) a
               = set_DirtyPages (uadd (DirtyPages (Scm s a)) 1)
                   (set_Flags (SetFlag (Flags (Scm s a)) WRITE_QUEUED) (Scm s a)))
    by (unfold pin; apply store_same).
  pose proof (window_undisturbed (pin a s)) as Hw.
  destruct (allocate_undisturbed (window (pin a s))) as (Ha & _ & _).
  pose proof (undisturbed_trans _ _ _ Hw Ha) as Hu.
  destruct Hu as (US & _ & UR & UE & _).
  destruct (CcAllocateWorkQueueEntry (window (pin a s))) as [ok s3].
  cbn [fst snd] in *.
  assert (QR : CcRegularWorkQueue s3 = CcRegularWorkQueue s)
    by (rewrite UR; reflexivity).
  assert (QE : CcExpressWorkQueue s3 = CcExpressWorkQueue s)
    by (rewrite UE; reflexivity).
  destruct ok; cbn [fst snd].
  - assert (Hs : Scm (unbias a s3) a
                 = set_DirtyPages (DirtyPages (Scm s a))
                     (set_Flags (SetFlag (Flags (Scm s a)) WRITE_QUEUED)
                        (Scm s a))).
    { unfold unbias. rewrite store_same, US, Hp. simpl.
      rewrite usub_uadd_one by exact Hr. reflexivity. }
    fold (write_behind_entry a).
    destruct (FlagOn (Flags (Scm (unbias a s3) a)) WAITING_FOR_TEARDOWN).
    + destruct (CcPostWorkQueue_queues (write_behind_entry a) Express
                  (unbias a s3)) as [R1 R2].
      destruct (CcPostWorkQueue_frame (write_behind_entry a) Express
                  (unbias a s3)) as (F1 & _).
      rewrite F1, Hs, R1, R2. simpl. rewrite QR, QE. auto 10.
    + destruct (CcPostWorkQueue_queues (write_behind_entry a) Regular
                  (unbias a s3)) as [R1 R2].
      destruct (CcPostWorkQueue_frame (write_behind_entry a) Regular
                  (unbias a s3)) as (F1 & _).
      rewrite F1, Hs, R1, R2. simpl. rewrite QR, QE. auto 10.
  - unfold unpin. rewrite store_same, US, Hp. simpl.
    rewrite ClearFlag_SetFlag by (apply FlagOn_false; exact Hq).
    rewrite usub_uadd_one by exact Hr. rewrite QR, QE. auto.
Qed.

Lemma drop_lock_occasionally_pins (a : addr) (s : Machine) (lc : Scan.Locals) :
  in_range (DirtyPages (Scm s a)) ->
  let s' := fst (drop_lock_occasionally a s lc) in
  (forall b : addr, b <> a -> Scm s' b = Scm s b) /\
  DirtyPages (Scm s' a) = DirtyPages (Scm s a) /\
  Flags (Scm s' a) = Flags (Scm s a).
Proof.
  intros Hr s'. unfold s', drop_lock_occasionally. cbv zeta.
  destruct (FlagOn (Flags (Scm s a)) (Z.lor WRITE_QUEUED IS_CURSOR)) eqn:G;
    destruct (_ >=? _); cbn [andb negb fst snd]; auto.
  apply FlagOn_either in G. destruct G as [G _].
  assert (Hp : Scm (pin a s) a
               = set_DirtyPages (uadd (DirtyPages (Scm s a)) 1)
                   (set_Flags (SetFlag (Flags (Scm s a)) WRITE_QUEUED) (Scm s a)))
    by (unfold pin; apply store_same).
  pose proof (window_undisturbed (pin a s)) as Hw.
  destruct Hw as (US & _).
  split; [|split].
  - intros b Hb. unfold unpin. rewrite store_other by exact Hb.
    rewrite US. unfold pin. now rewrite store_other.
  - unfold unpin. rewrite store_same, US, Hp. simpl.
    apply usub_uadd_one. exact Hr.
  - unfold unpin. rewrite store_same, US, Hp. simpl.
    apply ClearFlag_SetFlag. apply FlagOn_false. exact G.
Qed.

(** One turn of the loop on [a]: the other shared cache maps are not
    written; [a] keeps its dirty pages; either its flags and the queues
    stay as they are, or it was not [WRITE_QUEUED], is now, and its entry
    is at the tail of one of the queues. *)
Lemma loop_body_pins (env : Env) (a : addr) (s : Machine) (lc : Scan.Locals) :
  in_range (DirtyPages (Scm s a)) ->
  let s' := fst (fst (loop_body env a s lc)) in
  (forall b : addr, b <> a -> Scm s' b = Scm s b) /\
  DirtyPages (Scm s' a) = DirtyPages (Scm s a) /\
  (Flags (Scm s' a) = Flags (Scm s a) /\
   CcRegularWorkQueue s' = CcRegularWorkQueue s /\
   CcExpressWorkQueue s' = CcExpressWorkQueue s \/
   FlagOn (Flags (Scm s a)) WRITE_QUEUED = false /\
   Flags (Scm s' a) = SetFlag (Flags (Scm s a)) WRITE_QUEUED /\
   (CcRegularWorkQueue s' = CcRegularWorkQueue s ++ [write_behind_entry a] /\
    CcExpressWorkQueue s' = CcExpressWorkQueue s \/
    CcExpressWorkQueue s' = CcExpressWorkQueue s ++ [write_behind_entry a] /\
    CcRegularWorkQueue s' = CcRegularWorkQueue s)).
Proof.
  intros Hr s'. unfold s'.
  set (lc1 := match Scan.FirstVisited lc with
              | None => Scan.set_FirstVisited (Some a) lc
              | Some _ => lc
              end).
  destruct (flush_test_fields env (CcCapturedSystemSize s) (Scan.PagesToWrite lc)
              (Scm s a)) as [TF TD].
  destruct (fst (flush_test env (CcCapturedSystemSize s) (Scan.PagesToWrite lc)
                   (Scm s a))) eqn:T.
  - assert (Hq : FlagOn (Flags (Scm s a)) WRITE_QUEUED = false).
    { apply flush_test_iff in T. destruct T as [T _]. exact T. }
    rewrite (loop_body_flush env a s lc T). cbv zeta. fold lc1.
    set (m1 := snd (flush_test env (CcCapturedSystemSize s)
                      (Scan.PagesToWrite lc) (Scm s a))) in *.
    set (m2 := set_stream_pages env (CcCapturedSystemSize s) m1).
    set (s1 := store a m2 (store a m1 s)).
    assert (M2 : Flags m2 = Flags (Scm s a) /\ DirtyPages m2 = DirtyPages (Scm s a)).
    { destruct (set_stream_pages_fields env (CcCapturedSystemSize s) m1)
        as [(A & B & _)|(A & B & _)]; fold m2 in A, B; split; congruence. }
    destruct M2 as [MF MD].
    destruct (adjust_targets_Scm a s1 lc1) as (AS & AR & AE).
    destruct (adjust_targets a s1 lc1) as [s2 lc2]. cbn [fst snd] in *.
    assert (S2 : Scm s2 a = m2) by (rewrite AS; unfold s1; apply store_same).
    assert (O2 : forall b, b <> a -> Scm s2 b = Scm s b).
    { intros b Hb. rewrite AS. unfold s1. now rewrite !store_other. }
    pose proof (queue_write_behind_pins a s2 lc2) as Q. cbv zeta in Q.
    rewrite S2, MF, MD in Q. specialize (Q Hr Hq).
    destruct (queue_write_behind a s2 lc2) as [[s3 lc3] turn].
    cbn [fst snd] in Q. destruct Q as (QO & QD & QF).
    rewrite AR, AE in QF.
    change (CcRegularWorkQueue s1) with (CcRegularWorkQueue s) in QF.
    change (CcExpressWorkQueue s1) with (CcExpressWorkQueue s) in QF.
    assert (G : (forall b : addr, b <> a -> Scm s3 b = Scm s b) /\
                DirtyPages (Scm s3 a) = DirtyPages (Scm s a) /\
                (Flags (Scm s3 a) = Flags (Scm s a) /\
                 CcRegularWorkQueue s3 = CcRegularWorkQueue s /\
                 CcExpressWorkQueue s3 = CcExpressWorkQueue s \/
                 FlagOn (Flags (Scm s a)) WRITE_QUEUED = false /\
                 Flags (Scm s3 a) = SetFlag (Flags (Scm s a)) WRITE_QUEUED /\
                 (CcRegularWorkQueue s3
                  = CcRegularWorkQueue s ++ [write_behind_entry a] /\
                  CcExpressWorkQueue s3 = CcExpressWorkQueue s \/
                  CcExpressWorkQueue s3
                  = CcExpressWorkQueue s ++ [write_behind_entry a] /\
                  CcRegularWorkQueue s3 = CcRegularWorkQueue s))).
    { split; [intros b Hb; rewrite QO, O2 by exact Hb; reflexivity|].
      split; [exact QD|].
      destruct QF as [QF|QF]; [left; exact QF|right; split; [exact Hq|exact QF]]. }
    destruct turn; cbn [fst snd]; [exact G|].
    unfold loop_foot. destruct (Scan.MoveBehindCursor lc3); cbn [fst snd];
      exact G.
  - unfold loop_body. fold lc1.
    assert (HP : Scan.PagesToWrite lc1 = Scan.PagesToWrite lc)
      by (unfold lc1; destruct (Scan.FirstVisited lc); reflexivity).
    rewrite HP.
    destruct (flush_test env (CcCapturedSystemSize s) (Scan.PagesToWrite lc)
                (Scm s a)) as [f m]. simpl in T, TF, TD. subst f.
    pose proof (drop_lock_occasionally_pins a (store a m s) lc1) as D.
    pose proof (drop_lock_occasionally_frame a (store a m s) lc1) as DF.
    pose proof (drop_lock_occasionally_Express a (store a m s) lc1) as DE.
    cbv zeta in D, DF. rewrite store_same in D.
    rewrite TD in D. specialize (D Hr).
    destruct (drop_lock_occasionally a (store a m s) lc1) as [s2 lc2].
    cbn [fst snd] in *. destruct D as (DO & DD & DFl).
    destruct DF as (_ & DR & _).
    assert (G : (forall b : addr, b <> a -> Scm s2 b = Scm s b) /\
                DirtyPages (Scm s2 a) = DirtyPages (Scm s a) /\
                Flags (Scm s2 a) = Flags (Scm s a) /\
                CcRegularWorkQueue s2 = CcRegularWorkQueue s /\
                CcExpressWorkQueue s2 = CcExpressWorkQueue s).
    { split; [intros b Hb; rewrite DO by exact Hb; now rewrite store_other|].
      split; [congruence|]. split; [congruence|]. split; assumption. }
    destruct G as (G1 & G2 & G3).
    unfold loop_foot. destruct (Scan.MoveBehindCursor lc2); cbn [fst snd];
      simpl; auto.
Qed.

Lemma queued_once_step (env : Env) (s s1 : Machine) (lc1 : Scan.Locals)
  (a : addr) (wr we : list addr) :
  (forall b : addr, in_range (DirtyPages (Scm s b))) ->
  CcRegularWorkQueue s1 = CcRegularWorkQueue s ++ map write_behind_entry wr ->
  queued_once s s1 wr we ->
  exists wr' we' : list addr,
    CcRegularWorkQueue (fst (fst (loop_body env a s1 lc1)))
    = CcRegularWorkQueue s ++ map write_behind_entry wr' /\
    queued_once s (fst (fst (loop_body env a s1 lc1))) wr' we'.
Proof.
  intros Hr HR (HE & N & HS).
  assert (Hra : in_range (DirtyPages (Scm s1 a)))
    by (destruct (HS a) as [D _]; rewrite D; apply Hr).
  pose proof (loop_body_pins env a s1 lc1 Hra) as B. cbv zeta in B.
  set (s2 := fst (fst (loop_body env a s1 lc1))) in *.
  destruct B as (BO & BD & BF).
  assert (Keep : forall b, b <> a ->
            DirtyPages (Scm s2 b) = DirtyPages (Scm s b) /\
            Flags (Scm s2 b) = Flags (Scm s1 b)).
  { intros b Hb. rewrite (BO b Hb). destruct (HS b) as [D _]. auto. }
  destruct BF as [(BFl & BR & BE)|(Hq & BFl & BQ)].
  - exists wr, we. split; [congruence|]. split; [congruence|].
    split; [exact N|]. intros b.
    destruct (Nat.eq_dec b a) as [->|Hb].
    + destruct (HS a) as (D & I1 & I2). rewrite BD, BFl. auto.
    + destruct (Keep b Hb) as [KD KF]. destruct (HS b) as (_ & I1 & I2).
      rewrite KF. auto.
  - assert (Na : ~ In a (wr ++ we)).
    { intros Hi. destruct (HS a) as (_ & I1 & _).
      destruct (I1 Hi) as [_ F]. rewrite F in Hq.
      rewrite FlagOn_SetFlag_same in Hq by discriminate. discriminate Hq. }
    assert (Fa : Flags (Scm s1 a) = Flags (Scm s a))
      by (destruct (HS a) as (_ & _ & I2); auto).
    assert (Sa : forall b (l : list addr),
              (forall y, In y l <-> y = a \/ In y (wr ++ we)) ->
              DirtyPages (Scm s2 b) = DirtyPages (Scm s b) /\
              (In b l ->
               FlagOn (Flags (Scm s b)) WRITE_QUEUED = false /\
               Flags (Scm s2 b) = SetFlag (Flags (Scm s b)) WRITE_QUEUED) /\
              (~ In b l -> Flags (Scm s2 b) = Flags (Scm s b))).
    { intros b l Hl. destruct (Nat.eq_dec b a) as [->|Hb].
      - destruct (HS a) as (D & _). rewrite BD, BFl, <- Fa.
        split; [exact D|]. split; [auto|].
        intros K. exfalso. apply K, Hl. auto.
      - destruct (Keep b Hb) as [KD KF]. destruct (HS b) as (_ & I1 & I2).
        rewrite KF. split; [exact KD|]. split.
        + intros K. apply Hl in K. destruct K as [K|K]; [contradiction|auto].
        + intros K. apply I2. intros K'. apply K, Hl. auto. }
    destruct BQ as [[BR BE]|[BE BR]].
    + exists (wr ++ [a]), we. split.
      * rewrite BR, HR, map_app, <- app_assoc. reflexivity.
      * split; [congruence|]. split.
        -- rewrite <- app_assoc. simpl.
           apply (Permutation_NoDup (Permutation_middle wr we a)).
           constructor; assumption.
        -- intros b. apply Sa. intros y.
           rewrite !in_app_iff. simpl. intuition congruence.
    + exists wr, (we ++ [a]). split; [congruence|]. split.
      * rewrite BE, HE, map_app, <- app_assoc. reflexivity.
      * split.
        -- rewrite app_assoc.
           apply (Permutation_NoDup (Permutation_cons_append (wr ++ we) a)).
           constructor; assumption.
        -- intros b. apply Sa. intros y.
           rewrite !in_app_iff. simpl. intuition congruence.
Qed.

(** What a scan with work to do leaves on the streams and the queues. *)
Lemma scan_queues (env : Env) (s : Machine) :
  Ring.wf CcLazyWriterCursor (CcDirtySharedCacheMapList s) ->
  nothing_to_do s = false ->
  (forall b : addr, in_range (DirtyPages (Scm s b))) ->
  exists (s' : Machine) (wr we : list addr),
    CcLazyWriteScan env s = Some s' /\
    CcRegularWorkQueue s'
    = CcRegularWorkQueue s ++ map write_behind_entry wr ++ CcPostTickWorkQueue s /\
    queued_once s s' wr we.
Proof.
  intros W Hn Hr. destruct (start_tick_walking s W) as (Hw & He & Hl).
  set (I := fun (s' : Machine) (lc' : Scan.Locals) =>
              Scan.PostTickWorkQueue lc' = CcPostTickWorkQueue s /\
              exists wr we : list addr,
                CcRegularWorkQueue s'
                = CcRegularWorkQueue s ++ map write_behind_entry wr /\
                queued_once s s' wr we).
  assert (Step : forall a s' lc', I s' lc' ->
            I (fst (fst (loop_body env a s' lc')))
              (snd (fst (loop_body env a s' lc')))).
  { intros a s1 lc1 [HP (wr & we & HR & HQ)]. split.
    - destruct (loop_body_queues env a s1 lc1) as (BP & _). congruence.
    - apply (queued_once_step env s s1 lc1 a wr we Hr HR HQ). }
  assert (I0 : I (fst (start_tick s)) (snd (start_tick s))).
  { split; [simpl; apply pull_app|]. exists [], []. unfold queued_once. simpl.
    rewrite !app_nil_r. split; [reflexivity|]. split; [reflexivity|].
    split; [constructor|]. intros b. split; [reflexivity|].
    split; [contradiction|reflexivity]. }
  destruct (scan_loop_ends env I Step _ [] _ _ _ _ Hw He I0 Hl)
    as (s2 & lc2 & Hloop & HP & wr & we & HR & HE & N & HS).
  exists (end_tick s2 lc2), wr, we.
  rewrite (CcLazyWriteScan_work env s Hn), Hloop.
  destruct (end_tick_frame s2 lc2) as (_ & FS & FE & _).
  split; [reflexivity|]. split.
  - unfold end_tick. rewrite HP.
    destruct (post_tick_queues (CcPostTickWorkQueue s) s2) as (TR & _).
    match goal with
    | |- CcRegularWorkQueue (CcScheduleLazyWriteScan false ?x) = _ =>
        destruct (schedule_queues false x) as (SR & _); rewrite SR
    end.
    destruct (negb _); simpl; rewrite TR, HR, <- app_assoc; reflexivity.
  - unfold queued_once. rewrite FS, FE. auto.
Qed.

(** X12.  A scan with work to do, on streams whose dirty pages are
    [ULONG]s, takes back every page it has added to keep a stream: all
    streams have their dirty pages at its end.  It queues at most one
    write behind for a stream; the streams it has queued one for were not
    [WRITE_QUEUED] and are now, and no other stream has its flags
    changed.  The write behinds are at the tails of the two queues,
    followed on the regular queue by the post tick work items. *)
Theorem scan_queues_each_stream_once (env : Env) (s : Machine) :
  Ring.wf CcLazyWriterCursor (CcDirtySharedCacheMapList s) ->
  nothing_to_do s = false ->
  (forall b : addr, in_range (DirtyPages (Scm s b))) ->
  exists (s' : Machine) (wr we : list addr),
    CcLazyWriteScan env s = Some s' /\
    CcRegularWorkQueue s'
    = CcRegularWorkQueue s ++ map write_behind_entry wr ++ CcPostTickWorkQueue s /\
    queued_once s s' wr we.
Proof. exact (scan_queues env s). Qed.

(** ** A worker on queues without scans *)

Lemma resume_quiet (s : Machine) (lc : Worker.Locals) :
  Worker.Information lc <> CC_REQUEUE ->
  CcExpressWorkQueue (fst (resume s lc)) = CcExpressWorkQueue s /\
  CcRegularWorkQueue (fst (resume s lc)) = CcRegularWorkQueue s /\
  CcNumberActiveWorkerThreads (fst (resume s lc)) = CcNumberActiveWorkerThreads s /\
  WriteBehindResults (fst (resume s lc)) = WriteBehindResults s /\
  Log (fst (resume s lc)) = Log s /\
  Worker.Information (snd (resume s lc)) = Worker.Information lc.
Proof.
  intros H. apply Z.eqb_neq in H. unfold resume. rewrite H.
  destruct (Worker.DropThrottle lc); simpl; auto 10.
Qed.

(** One turn of a worker on an entry that is not a scan and does not ask
    to be queued again: the entry leaves its queue, its call is made and
    it is freed. *)
Lemma worker_turn (env : Env) (s : Machine) (lc : Worker.Locals) (s1 : Machine)
  (lc1 : Worker.Locals) (e : WORK_QUEUE_ENTRY) :
  Worker.Information lc <> CC_REQUEUE ->
  Forall no_requeue (WriteBehindResults s) ->
  take_entry s lc = (s1, lc1, Some e) ->
  Function e <> LazyWriteScan ->
  exists (s2 : Machine) (lc2 : Worker.Locals) (r : WB_OUTCOME),
    process_entry env e s1 lc1 = Some (s2, lc2) /\
    Worker.Information lc2 <> CC_REQUEUE /\
    Forall no_requeue (WriteBehindResults (free_entry e s2 lc2)) /\
    CcNumberActiveWorkerThreads (free_entry e s2 lc2)
    = CcNumberActiveWorkerThreads s /\
    Log (free_entry e s2 lc2)
    = EvCcFreeWorkQueueEntry e :: call_of e r :: Log s /\
    (CcExpressWorkQueue s = e :: CcExpressWorkQueue (free_entry e s2 lc2) /\
     CcRegularWorkQueue (free_entry e s2 lc2) = CcRegularWorkQueue s \/
     CcExpressWorkQueue s = [] /\
     CcExpressWorkQueue (free_entry e s2 lc2) = [] /\
     CcRegularWorkQueue s = e :: CcRegularWorkQueue (free_entry e s2 lc2)).
Proof.
  intros Hi Ho Ht Hf.
  destruct (resume_quiet s lc Hi) as (RE & RR & RA & RW & RL & RI).
  unfold take_entry in Ht.
  destruct (resume s lc) as [s0 lc0]. cbn [fst snd] in *.
  assert (T : Worker.Information lc1 = Worker.Information lc /\
              CcNumberActiveWorkerThreads s1 = CcNumberActiveWorkerThreads s /\
              WriteBehindResults s1 = WriteBehindResults s /\
              Log s1 = Log s /\
              (CcExpressWorkQueue s = e :: CcExpressWorkQueue s1 /\
               CcRegularWorkQueue s1 = CcRegularWorkQueue s \/
               CcExpressWorkQueue s = [] /\ CcExpressWorkQueue s1 = [] /\
               CcRegularWorkQueue s = e :: CcRegularWorkQueue s1)).
  { unfold head_entry in Ht.
    destruct (CcExpressWorkQueue s0) as [|x xs] eqn:X; simpl in Ht.
    - destruct (CcRegularWorkQueue s0) as [|y ys] eqn:Y; simpl in Ht;
        [discriminate|].
      destruct (_ && _); [discriminate|]. inversion Ht; subst. simpl.
      rewrite X, <- RE, <- RR, Y. auto 10.
    - destruct (_ && _); [discriminate|]. inversion Ht; subst. simpl.
      rewrite <- RE, X. auto 10. }
  destruct T as (TI & TA & TW & TL & TQ). clear Ht.
  assert (Hi1 : Worker.Information lc1 <> CC_REQUEUE) by congruence.
  assert (Fr : forall s2 lc2,
            Worker.Information lc2 <> CC_REQUEUE ->
            free_entry e s2 lc2 = log (EvCcFreeWorkQueueEntry e) s2).
  { intros s2 lc2 H. unfold free_entry. apply Z.eqb_neq in H. rewrite H.
    reflexivity. }
  unfold process_entry, call_of.
  destruct (Function e) eqn:F; try congruence.
  - do 2 eexists. exists WbRaises. split; [reflexivity|].
    rewrite Fr by exact Hi1. simpl. split; [exact Hi1|].
    rewrite TW, TA, TL. auto 10.
  - unfold CcWriteBehind.
    destruct (WriteBehindResults s1) as [|r rest] eqn:Wr.
    + do 2 eexists. exists (WbReturns STATUS_SUCCESS 0).
      split; [reflexivity|].
      rewrite Fr by (simpl; unfold CC_REQUEUE; discriminate). simpl.
      split; [unfold CC_REQUEUE; discriminate|].
      rewrite Wr, TA, TL. auto 10.
    + rewrite <- TW in Ho. inversion Ho as [|? ? Hr Hrest]; subst.
      destruct r as [st inf|].
      * do 2 eexists. exists (WbReturns st inf). split; [reflexivity|].
        simpl in Hr. rewrite Fr by exact Hr. simpl. split; [exact Hr|].
        rewrite TA, TL. auto 10.
      * do 2 eexists. exists WbRaises. split; [reflexivity|].
        rewrite Fr by exact Hi1. simpl. split; [exact Hi1|].
        rewrite TA, TL. auto 10.
  - do 2 eexists. exists WbRaises. split; [reflexivity|].
    rewrite Fr by exact Hi1. simpl. split; [exact Hi1|].
    rewrite TW, TA, TL. auto 10.
Qed.

Lemma take_entry_in (s : Machine) (lc : Worker.Locals) (s1 : Machine)
  (lc1 : Worker.Locals) (e : WORK_QUEUE_ENTRY) :
  Worker.Information lc <> CC_REQUEUE ->
  take_entry s lc = (s1, lc1, Some e) ->
  In e (CcExpressWorkQueue s ++ CcRegularWorkQueue s).
Proof.
  intros Hi Ht. destruct (resume_quiet s lc Hi) as (RE & RR & _).
  unfold take_entry in Ht. destruct (resume s lc) as [s0 lc0].
  cbn [fst snd] in *. rewrite <- RE, <- RR. unfold head_entry in Ht.
  destruct (CcExpressWorkQueue s0) as [|x xs]; simpl in Ht.
  - destruct (CcRegularWorkQueue s0) as [|y ys]; simpl in Ht; [discriminate|].
    destruct (_ && _); [discriminate|]. inversion Ht; subst. simpl. auto.
  - destruct (_ && _); [discriminate|]. inversion Ht; subst. simpl. auto.
Qed.

(** X13.  A worker whose queues hold no scan, and whose write behinds do
    not ask to be queued again, comes to the end of its loop within one
    turn for each entry and one more. *)
Theorem worker_drains (env : Env) (fuel : nat) (s : Machine) (lc : Worker.Locals) :
  Worker.Information lc <> CC_REQUEUE ->
  Forall no_requeue (WriteBehindResults s) ->
  Forall (fun e => Function e <> LazyWriteScan)
         (CcExpressWorkQueue s ++ CcRegularWorkQueue s) ->
  (length (CcExpressWorkQueue s) + length (CcRegularWorkQueue s) < fuel)%nat ->
  exists (s' : Machine) (lc' : Worker.Locals),
    worker_loop env fuel s lc = Some (s', lc').
Proof.
  revert s lc. induction fuel as [|fuel IH]; intros s lc Hi Ho Hq Hf;
    [inversion Hf|].
  simpl. destruct (take_entry s lc) as [[s1 lc1] [e|]] eqn:T; [|eauto].
  pose proof (take_entry_in s lc s1 lc1 e Hi T) as He.
  assert (Fe : Function e <> LazyWriteScan)
    by (rewrite Forall_forall in Hq; apply Hq; exact He).
  destruct (worker_turn env s lc s1 lc1 e Hi Ho T Fe)
    as (s2 & lc2 & r & P & Hi2 & Ho2 & _ & _ & Q).
  rewrite P. apply IH; [exact Hi2|exact Ho2| |].
  - destruct Q as [[QE QR]|(QE & QE' & QR)].
    + rewrite QE in Hq. inversion Hq; subst. rewrite QR. assumption.
    + rewrite QE, QR in Hq. simpl in Hq. inversion Hq; subst.
      rewrite QE'. simpl. assumption.
  - destruct Q as [[QE QR]|(QE & QE' & QR)].
    + rewrite QE in Hf. rewrite QR. simpl in Hf. lia.
    + rewrite QE, QR in Hf. rewrite QE'. simpl in Hf |- *. lia.
Qed.

Lemma take_entry_regular_head (s : Machine) (lc : Worker.Locals)
  (e : WORK_QUEUE_ENTRY) (rest : list WORK_QUEUE_ENTRY) :
  Worker.Information lc <> CC_REQUEUE ->
  CcExpressWorkQueue s = [] ->
  CcRegularWorkQueue s = e :: rest ->
  Function e <> EventSet \/ CcNumberActiveWorkerThreads s <= 1 ->
  exists (s1 : Machine) (lc1 : Worker.Locals),
    take_entry s lc = (s1, lc1, Some e).
Proof.
  intros Hi HE HR Hc. destruct (resume_quiet s lc Hi) as (RE & RR & RA & _).
  unfold take_entry. destruct (resume s lc) as [s0 lc0]. cbn [fst snd] in *.
  unfold head_entry. rewrite RE, RR, HE, HR, RA. simpl.
  assert (C : WORK_FUNCTION_eqb (Function e) EventSet
              && (CcNumberActiveWorkerThreads s >? 1) = false).
  { apply andb_false_iff. destruct Hc as [Hc|Hc].
    - left. destruct (WORK_FUNCTION_eqb (Function e) EventSet) eqn:K;
        [|reflexivity]. apply WORK_FUNCTION_eqb_eq in K. contradiction.
    - right. rewrite Z.gtb_ltb. apply Z.ltb_ge. exact Hc. }
  rewrite C. eauto.
Qed.

(** A worker on write behinds followed by an event set, the express queue
    empty. *)
Lemma regular_writes_then_event (env : Env) (ev : nat) (l : list addr) :
  forall (fuel : nat) (s : Machine) (lc : Worker.Locals),
    Worker.Information lc <> CC_REQUEUE ->
    Forall no_requeue (WriteBehindResults s) ->
    CcNumberActiveWorkerThreads s <= 1 ->
    CcExpressWorkQueue s = [] ->
    CcRegularWorkQueue s
    = map write_behind_entry l ++ [mkEntry EventSet (ParametersEvent ev)] ->
    (length l + 2 <= fuel)%nat ->
    exists (s' : Machine) (lc' : Worker.Locals) (calls : list Event),
      worker_loop env fuel s lc = Some (s', lc') /\
      CcExpressWorkQueue s' = [] /\
      CcRegularWorkQueue s' = [] /\
      Log s'
      = EvCcFreeWorkQueueEntry (mkEntry EventSet (ParametersEvent ev))
        :: EvKeSetEvent ev :: calls ++ Log s /\
      forall a : addr, In a l ->
        exists r : WB_OUTCOME, In (EvCcWriteBehind a r) calls.
Proof.
  induction l as [|a l IH]; intros fuel s lc Hi Ho Ha HE HR Hf.
  - destruct fuel as [|[|fuel]]; [simpl in Hf; lia|simpl in Hf; lia|].
    simpl in HR.
    destruct (take_entry_regular_head s lc _ [] Hi HE HR (or_intror Ha))
      as (s1 & lc1 & T).
    destruct (worker_turn env s lc s1 lc1 _ Hi Ho T)
      as (s2 & lc2 & r & P & Hi2 & _ & _ & L & Q); [discriminate|].
    set (s3 := free_entry (mkEntry EventSet (ParametersEvent ev)) s2 lc2) in *.
    assert (Q3 : CcExpressWorkQueue s3 = [] /\ CcRegularWorkQueue s3 = []).
    { destruct Q as [[QE _]|(_ & QE' & QR)]; [congruence|].
      rewrite HR in QR. inversion QR. auto. }
    destruct Q3 as [E3 R3].
    destruct (resume_quiet s3 lc2 Hi2) as (RE & RR & _ & _ & RL & _).
    change (worker_loop env (S (S fuel)) s lc)
      with (match take_entry s lc with
            | (s, lc, None) => Some (s, lc)
            | (s, lc, Some e) =>
                match process_entry env e s lc with
                | Some (s, lc0) => worker_loop env (S fuel) (free_entry e s lc0) lc0
                | None => None
                end
            end).
    rewrite T, P. fold s3. simpl. unfold take_entry.
    destruct (resume s3 lc2) as [s4 lc4]. cbn [fst snd] in *.
    unfold head_entry. rewrite RE, RR, E3, R3. simpl.
    exists s4, lc4, []. rewrite RE, RR, RL, L, E3, R3.
    repeat split; auto. intros b [].
  - destruct fuel as [|fuel]; [simpl in Hf; lia|].
    simpl in HR.
    destruct (take_entry_regular_head s lc _ _ Hi HE HR
                (or_introl (fun K : WriteBehind = EventSet =>
                              eq_ind WriteBehind
                                (fun f => match f with
                                          | WriteBehind => True
                                          | _ => False
                                          end) I EventSet K)))
      as (s1 & lc1 & T).
    destruct (worker_turn env s lc s1 lc1 _ Hi Ho T)
      as (s2 & lc2 & r & P & Hi2 & Ho2 & A2 & L & Q); [discriminate|].
    set (s3 := free_entry (write_behind_entry a) s2 lc2) in *.
    assert (Q3 : CcExpressWorkQueue s3 = [] /\
                 CcRegularWorkQueue s3
                 = map write_behind_entry l
                   ++ [mkEntry EventSet (ParametersEvent ev)]).
    { destruct Q as [[QE _]|(_ & QE' & QR)]; [congruence|].
      rewrite HR in QR. inversion QR. auto. }
    destruct Q3 as [E3 R3].
    destruct (IH fuel s3 lc2 Hi2 Ho2) as (s' & lc' & calls & W & WE & WR & WL & WC);
      [rewrite A2; exact Ha|exact E3|exact R3|simpl in Hf; lia|].
    simpl. rewrite T, P. fold s3.
    exists s', lc',
      (calls ++ [EvCcFreeWorkQueueEntry (write_behind_entry a);
                 call_of (write_behind_entry a) r]).
    split; [exact W|]. split; [exact WE|]. split; [exact WR|]. split.
    + rewrite WL, L, <- app_assoc. reflexivity.
    + intros b [Hb|Hb].
      * subst b. exists r. apply in_or_app. right. simpl. auto.
      * destruct (WC b Hb) as [r' K]. exists r'. apply in_or_app. auto.
Qed.

(** X14.  A worker that is the one active worker, with the express queue
    empty and on the regular queue write behinds for the streams [l]
    followed by an [EventSet] entry, sets the event last: when it leaves
    its loop the call of [KeSetEvent] is the latest call but for the
    freeing of its entry, and a call of [CcWriteBehind] has been made
    before it for every stream of [l]. *)
Theorem event_set_after_writes (env : Env) (ev : nat) (l : list addr) :
  forall (fuel : nat) (s : Machine) (lc : Worker.Locals),
    Worker.Information lc <> CC_REQUEUE ->
    Forall no_requeue (WriteBehindResults s) ->
    CcNumberActiveWorkerThreads s <= 1 ->
    CcExpressWorkQueue s = [] ->
    CcRegularWorkQueue s
    = map write_behind_entry l ++ [mkEntry EventSet (ParametersEvent ev)] ->
    (length l + 2 <= fuel)%nat ->
    exists (s' : Machine) (lc' : Worker.Locals) (calls : list Event),
      worker_loop env fuel s lc = Some (s', lc') /\
      CcExpressWorkQueue s' = [] /\
      CcRegularWorkQueue s' = [] /\
      Log s'
      = EvCcFreeWorkQueueEntry (mkEntry EventSet (ParametersEvent ev))
        :: EvKeSetEvent ev :: calls ++ Log s /\
      forall a : addr, In a l ->
        exists r : WB_OUTCOME, In (EvCcWriteBehind a r) calls.
Proof. exact (regular_writes_then_event env ev l). Qed.

(** ** A scan with no idle worker to wake *)





(** ** From the wait to the event *)




(** ** Streams with modified writing disabled *)

(** X16.  A stream with modified writing disabled that has dirty pages,
    fewer than four write behinds' worth, a file size that is not zero,
    is not queued and not waiting for teardown, and is not held back as a
    temporary file, is served once in sixteen tests on a system that is
    not small: when there are pages left to write, every test of the loop
    adds one to its pass count, and the stream passes exactly when the new
    count is a multiple of 16. *)
Theorem metadata_once_in_sixteen (env : Env) (size : MM_SYSTEMSIZE) (P : Z)
  (m : SHARED_CACHE_MAP) :
  FlagOn (Flags m) (Z.lor WRITE_QUEUED IS_CURSOR) = false ->
  FlagOn (Flags m) WAITING_FOR_TEARDOWN = false ->
  FlagOn (Flags m) MODIFIED_WRITE_DISABLED = true ->
  size <> MmSmallSystem ->
  P <> 0 ->
  0 < DirtyPages m < 4 * (MAX_WRITE_BEHIND env / PAGE_SIZE env) ->
  FileSize m <> 0 ->
  temporary_gate env m = true ->
  LazyWritePassCount (snd (flush_test env size P m))
  = uadd (LazyWritePassCount m) 1 /\
  (fst (flush_test env size P m) = true <->
   (LazyWritePassCount m + 1) mod 16 = 0).
Proof.
  intros Hq Ht Hm Hs Hp Hd Hf Hg. unfold flush_test. rewrite Hq, Ht.
  assert (D : (DirtyPages m =? 0) = false) by (apply Z.eqb_neq; lia).
  assert (Pn : (P =? 0) = false) by (apply Z.eqb_neq; exact Hp).
  rewrite D, Pn. simpl negb. cbv iota zeta.
  set (m1 := set_LazyWritePassCount (uadd (LazyWritePassCount m) 1) m).
  assert (G1 : temporary_gate env m1 = true) by exact Hg.
  assert (C : close_or_empty m1 = false).
  { unfold close_or_empty. simpl. rewrite D, andb_false_r. simpl.
    apply Z.eqb_neq. exact Hf. }
  assert (L : Z.land (uadd (LazyWritePassCount m) 1) 0xF
              = (LazyWritePassCount m + 1) mod 16).
  { change 0xF with (Z.ones 4). rewrite Z.land_ones by lia.
    unfold uadd, wrap, modulus. change (2 ^ 4) with 16.
    apply Z.mod_mod_divide. exists (2 ^ 28). reflexivity. }
  assert (Pg : pass_gate env size m1
               = ((LazyWritePassCount m + 1) mod 16 =? 0)).
  { assert (S1 : MM_SYSTEMSIZE_eqb size MmSmallSystem = false)
      by (destruct size; simpl; congruence).
    assert (S2 : (DirtyPages m >=? 4 * (MAX_WRITE_BEHIND env / PAGE_SIZE env))
                 = false) by (rewrite Z.geb_leb; apply Z.leb_gt; lia).
    unfold pass_gate, four_write_behinds, m1.
    cbn [LazyWritePassCount Flags DirtyPages set_LazyWritePassCount].
    rewrite L, Hm, S1, S2. cbn [negb]. rewrite !orb_false_r. reflexivity. }
  rewrite Pg, G1, andb_true_r.
  destruct (Z.eqb_spec ((LazyWritePassCount m + 1) mod 16) 0) as [E|E]; simpl.
  - split; [reflexivity|]. tauto.
  - rewrite C. split; [reflexivity|]. split; [discriminate|contradiction].
Qed.


(** ** The further properties at the examples *)

Lemma timer_fires_without_entry_witness :
  ScanActive (LazyWriter (timer_fires timer_set_no_pool)) = false /\
  ScanTimer (LazyWriter (CcScheduleLazyWriteScan false (timer_fires timer_set_no_pool)))
  = Some CcFirstDelay.
Proof.
  destruct (timer_fires_without_entry timer_set_no_pool CcIdleDelay)
    as (_ & _ & _ & A & _ & _ & T).
  - reflexivity.
  - reflexivity.
  - split; [exact A|exact T].
Defined.

Lemma wait_for_activity_witness :
  fst (CcWaitForCurrentLazyWriterActivity 5 asleep) = STATUS_WAIT /\
  ScanTimer (LazyWriter (snd (CcWaitForCurrentLazyWriterActivity 5 asleep)))
  = Some CcNoDelay.
Proof.
  destruct (wait_for_activity 5 asleep) as (_ & H).
  destruct (H eq_refl) as (R & _ & _ & _ & T & _).
  split; [exact R|exact T].
Defined.

Lemma workers_kept_witness :
  Log (CcPostWorkQueue (write_behind_entry 1%nat) Regular one_idle_worker)
  = [EvExQueueWorkItem 7%nat] /\
  workers (CcPostWorkQueue (write_behind_entry 1%nat) Regular one_idle_worker)
  = workers one_idle_worker.
Proof.
  destruct (workers_kept (write_behind_entry 1%nat) Regular 7%nat one_idle_worker)
    as (_ & H & W & _).
  - in_range_tac.
  - in_range_tac.
  - destruct (H 7%nat []) as (L & _); [reflexivity|reflexivity|].
    split; [exact L|exact W].
Defined.

Lemma usual_fraction_positive_witness :
  1 <= usual_fraction scenario_A <= CcTotalDirtyPages scenario_A.
Proof.
  destruct (usual_fraction_positive scenario_A) as (H & _).
  - in_range_tac.
  - in_range_tac.
  - in_range_tac.
  - exact H.
Defined.

Lemma take_entry_head_witness :
  Worker.WorkQueueEntry (snd (fst (take_entry success_then_failure Worker.initial)))
  = Some (write_behind_entry 1%nat) /\
  CcRegularWorkQueue (fst (fst (take_entry success_then_failure Worker.initial)))
  = [write_behind_entry 2%nat].
Proof.
  destruct (take_entry_head success_then_failure Worker.initial
              (fst (fst (take_entry success_then_failure Worker.initial)))
              (snd (fst (take_entry success_then_failure Worker.initial)))
              (write_behind_entry 1%nat)) as (E & [(X & _) | (_ & _ & R & _)]).
  - reflexivity.
  - discriminate X.
  - split; [exact E|]. vm_compute in R. inversion R. reflexivity.
Defined.

Lemma requeue_goes_back_witness :
  exists (s2 : Machine) (lc2 : Worker.Locals),
    process_entry env0 (write_behind_entry 1%nat)
      (fst (fst (take_entry requeue_once Worker.initial)))
      (snd (fst (take_entry requeue_once Worker.initial))) = Some (s2, lc2) /\
    CcRegularWorkQueue
      (fst (resume (free_entry (write_behind_entry 1%nat) s2 lc2) lc2))
    = [write_behind_entry 1%nat].
Proof.
  destruct (requeue_goes_back env0 requeue_once Worker.initial
              (fst (fst (take_entry requeue_once Worker.initial)))
              (snd (fst (take_entry requeue_once Worker.initial)))
              (write_behind_entry 1%nat) 1%nat 0 [])
    as (s2 & lc2 & q & P & Q & _ & B & _).
  - reflexivity.
  - reflexivity.
  - reflexivity.
  - reflexivity.
  - exists s2, lc2. split; [exact P|].
    vm_compute in Q. inversion Q; subst q. exact B.
Defined.

Lemma memory_maker_cleared_witness :
  Worker.MemoryMaker (locals_after_loop env0 5 success_then_failure) = false.
Proof.
  destruct (memory_maker_cleared env0 5 success_then_failure
              (after_loop env0 5 success_then_failure)
              (locals_after_loop env0 5 success_then_failure)) as (_ & H).
  apply H. vm_compute. reflexivity.
Defined.

Lemma worker_leaves_when_done_witness :
  CcExpressWorkQueue (after_loop env0 5 success_then_failure) = [] /\
  CcRegularWorkQueue (after_loop env0 5 success_then_failure) = [].
Proof.
  destruct (worker_leaves_when_done env0 5 success_then_failure Worker.initial
              (after_loop env0 5 success_then_failure)
              (locals_after_loop env0 5 success_then_failure))
    as [H | (T & _)].
  - vm_compute. reflexivity.
  - exact H.
  - discriminate T.
Defined.

Lemma scan_keeps_dirty_list_witness :
  exists (s' : Machine) (d1 d2 : list addr),
    CcLazyWriteScan env0 metadata_no_pool = Some s' /\
    Ring.wf CcLazyWriterCursor (CcDirtySharedCacheMapList s') /\
    Ring.rot CcLazyWriterCursor (CcDirtySharedCacheMapList metadata_no_pool)
    = d1 ++ d2 /\
    Ring.rot CcLazyWriterCursor (CcDirtySharedCacheMapList s') = d2 ++ d1.
Proof.
  apply (scan_keeps_dirty_list env0 metadata_no_pool). ring_wf.
Defined.

Lemma scan_goes_on_or_stops_witness :
  exists s' : Machine,
    CcLazyWriteScan env0 quiet = Some s' /\
    ScanActive (LazyWriter s') = false.
Proof.
  destruct (scan_goes_on_or_stops env0 quiet) as (s' & E & (_ & H) & _).
  - ring_wf.
  - exists s'. split; [exact E|]. apply H. repeat split; reflexivity.
Defined.

Lemma waiter_served_by_next_scan_witness :
  exists (s' : Machine) (before : list WORK_QUEUE_ENTRY),
    CcLazyWriteScan env0 (snd (CcWaitForCurrentLazyWriterActivity 5 scenario_A))
    = Some s' /\
    CcRegularWorkQueue s' = before ++ [mkEntry EventSet (ParametersEvent 5)].
Proof.
  destruct (waiter_served_by_next_scan env0 5 scenario_A)
    as (_ & s' & before & E & _ & Q).
  - ring_wf.
  - reflexivity.
  - exists s', before. split; [exact E|exact Q].
Defined.

Lemma scan_queues_each_stream_once_witness :
  exists (s' : Machine) (wr we : list addr),
    CcLazyWriteScan env0 scenario_A = Some s' /\
    CcRegularWorkQueue s' = map write_behind_entry wr /\
    queued_once scenario_A s' wr we.
Proof.
  destruct (scan_queues_each_stream_once env0 scenario_A)
    as (s' & wr & we & E & R & Q).
  - ring_wf.
  - reflexivity.
  - intros b. simpl. destruct (Nat.eqb b 1); in_range_tac.
  - exists s', wr, we. split; [exact E|]. split; [|exact Q].
    rewrite R. simpl. apply app_nil_r.
Defined.

Lemma worker_drains_witness :
  exists (s' : Machine) (lc' : Worker.Locals),
    worker_loop env0 5 success_then_failure Worker.initial = Some (s', lc').
Proof.
  apply (worker_drains env0 5 success_then_failure Worker.initial).
  - vm_compute. discriminate.
  - repeat constructor; vm_compute; discriminate.
  - repeat constructor; vm_compute; discriminate.
  - vm_compute. lia.
Defined.

Lemma event_set_after_writes_witness :
  exists (s' : Machine) (lc' : Worker.Locals) (calls : list Event),
    worker_loop env0 3 writes_then_event Worker.initial = Some (s', lc') /\
    Log s'
    = EvCcFreeWorkQueueEntry (mkEntry EventSet (ParametersEvent 5))
      :: EvKeSetEvent 5 :: calls ++ Log writes_then_event /\
    exists r : WB_OUTCOME, In (EvCcWriteBehind 1%nat r) calls.
Proof.
  destruct (event_set_after_writes env0 5 [1%nat] 3 writes_then_event
              Worker.initial) as (s' & lc' & calls & E & _ & _ & L & C).
  - vm_compute. discriminate.
  - constructor.
  - vm_compute. discriminate.
  - reflexivity.
  - reflexivity.
  - simpl. lia.
  - exists s', lc', calls. split; [exact E|]. split; [exact L|].
    apply C. left. reflexivity.
Defined.


Lemma metadata_once_in_sixteen_witness :
  fst (flush_test env0 MmLargeSystem 100 metadata_stream) = true /\
  LazyWritePassCount (snd (flush_test env0 MmLargeSystem 100 metadata_stream)) = 16.
Proof.
  destruct (metadata_once_in_sixteen env0 MmLargeSystem 100 metadata_stream)
    as (C & _ & H).
  - reflexivity.
  - reflexivity.
  - reflexivity.
  - discriminate.
  - discriminate.
  - split; [apply Z.ltb_lt|apply Z.ltb_lt]; vm_compute; reflexivity.
  - discriminate.
  - reflexivity.
  - split; [apply H; reflexivity|]. rewrite C. reflexivity.
Defined.

